(** * ChatApp realtime signaling core: server dispatch, signal queue, and the
      client transport selector and call state machine.

    Sources embedded here:
    - [src/api/index.js]: [clients], [sendEvent], [callSignals],
      [addCallSignal], [getCallSignals], the [/api/events] registration and
      the [/api/message], [/api/calls/*] handlers, and the friend and group
      handlers as far as they dispatch events;
    - [src/client/src/App.jsx], component [ChatDashboard]: [endCallCleanup],
      the SSE effect ([connectSSE], [onerror], [onmessage]), the call polling
      effect ([pollCalls], [updatePollInterval]), the peer-connection
      callbacks installed by [callUser]/[answerCall], [leaveCall], and the
      updaters of the message list (push, fetch and [pollMessages]);
    - the models file: [Message.formatMessage] and the member objects of
      [Group.findById].

    Time is in milliseconds ([Date.now()], [setTimeout], [setInterval]) and
    is an integer.  Numbers are the integers the program handles (database
    ids, timestamps, delays); [VNaN] is kept apart.  [VNum z] stands for the
    JavaScript number [z] when [z] is a safe integer (at most [2^53 - 1] in
    absolute value): on those [String] prints the decimal numeral and
    [parseInt] reads it back exactly, as the definitions below do.  A
    statement that rests on printing a number and reading it back carries
    [safe_integer] as a hypothesis.  Strings are ASCII texts. *)

From stdpp Require Import gmap strings list pretty.
From Stdlib Require Import ZArith Lia Ascii.

#[local] Set Warnings "-register-all".

Open Scope Z_scope.

(* ================================================================== *)
(** ** JavaScript values and the coercions the sources rely on *)
(* ================================================================== *)

Module JS.

(** A JSON-shaped JavaScript value.  Objects are plain objects, given by
    their own fields in insertion order. *)
Inductive jsval : Type :=
| VUndef
| VNull
| VBool (b : bool)
| VNum (z : Z)
| VNaN
| VStr (s : string)
| VObj (fields : list (string * jsval)).

(** [if (v)], [!v], [a || b], [a && b]. *)
Definition truthy (v : jsval) : bool :=
  match v with
  | VUndef | VNull | VNaN => false
  | VBool b => b
  | VNum z => negb (z =? 0)
  | VStr s => negb (bool_decide (s = EmptyString))
  | VObj _ => true
  end.

Definition or_ (a b : jsval) : jsval := if truthy a then a else b.

(** [o.k]: the own field [k] of a plain object; [undefined] when it is
    missing (and for the primitives the sources read fields of). *)
Fixpoint field (k : string) (fs : list (string * jsval)) : jsval :=
  match fs with
  | [] => VUndef
  | (k', v) :: fs' => if bool_decide (k' = k) then v else field k fs'
  end.

Definition get (o : jsval) (k : string) : jsval :=
  match o with
  | VObj fs => field k fs
  | _ => VUndef
  end.

(** [{ ...o, k: v }]: the fields of [o] with [k] set, [k] keeping its place
    when [o] already has it. *)
Fixpoint set_field (k : string) (v : jsval) (fs : list (string * jsval))
  : list (string * jsval) :=
  match fs with
  | [] => [(k, v)]
  | (k', v') :: fs' =>
      if bool_decide (k' = k) then (k, v) :: fs' else (k', v') :: set_field k v fs'
  end.

(** The own enumerable properties of a string: its characters, under
    their indices. *)
Fixpoint string_entries (i : Z) (s : string) : list (string * jsval) :=
  match s with
  | EmptyString => []
  | String a s' =>
      (pretty i, VStr (String a EmptyString)) :: string_entries (i + 1) s'
  end.

Definition spread_set (o : jsval) (k : string) (v : jsval) : jsval :=
  match o with
  | VObj fs => VObj (set_field k v fs)
  | VStr s => VObj (set_field k v (string_entries 0 s))
  | _ => VObj [(k, v)]
  end.

(** [typeof v === 'string'] and [typeof v === 'number']. *)
Definition is_string (v : jsval) : bool :=
  match v with VStr _ => true | _ => false end.

Definition is_number (v : jsval) : bool :=
  match v with VNum _ | VNaN => true | _ => false end.

(** [String(v)], which is also the property key [obj[v]] uses.  For a
    number it is the decimal numeral, which is what JavaScript prints for
    every safe integer (and for every integer below [10^21]). *)
Definition String_ (v : jsval) : string :=
  match v with
  | VUndef => "undefined"
  | VNull => "null"
  | VBool true => "true"
  | VBool false => "false"
  | VNum z => pretty z
  | VNaN => "NaN"
  | VStr s => s
  | VObj _ => "[object Object]"
  end.

(** Character classes of the number grammar (ASCII). *)
Definition code (a : ascii) : Z := Z.of_nat (nat_of_ascii a).

Definition is_ws (a : ascii) : bool :=
  let n := code a in
  (n =? 32) || ((9 <=? n) && (n <=? 13)).

(** The value of a character as a digit of some radix up to 36. *)
Definition digit_val (a : ascii) : option Z :=
  let n := code a in
  if (48 <=? n) && (n <=? 57) then Some (n - 48)
  else if (97 <=? n) && (n <=? 122) then Some (n - 87)
  else if (65 <=? n) && (n <=? 90) then Some (n - 55)
  else None.

Fixpoint skip_ws (s : string) : string :=
  match s with
  | String a s' => if is_ws a then skip_ws s' else s
  | EmptyString => EmptyString
  end.

(** The longest prefix of digits of radix [r], as a number; [None] when the
    string does not start with such a digit. *)
Fixpoint digits_prefix (r : Z) (s : string) (acc : option Z) : option Z :=
  match s with
  | String a s' =>
      match digit_val a with
      | Some d =>
          if d <? r then digits_prefix r s' (Some (r * default 0 acc + d))
          else acc
      | None => acc
      end
  | EmptyString => acc
  end.

(** [parseInt(s, radix)], with [radix] either 10 or left out: leading white
    space, an optional sign, a [0x] prefix when the radix is left out, then
    the longest run of digits; [NaN] when there is no digit.  The result is
    the integer the digits denote, which is what JavaScript returns when
    that integer is a safe integer. *)
Definition parseInt_radix (auto : bool) (s : string) : jsval :=
  let s1 := skip_ws s in
  let '(neg, s2) :=
    match s1 with
    | String "-" t => (true, t)
    | String "+" t => (false, t)
    | _ => (false, s1)
    end in
  let '(r, s3) :=
    match s2 with
    | String "0" (String x t) =>
        if auto && ((code x =? 120) || (code x =? 88)) then (16, t) else (10, s2)
    | _ => (10, s2)
    end in
  match digits_prefix r s3 None with
  | Some n => VNum (if neg then - n else n)
  | None => VNaN
  end.

Definition parseInt10 (s : string) : jsval := parseInt_radix false s.

(** [parseInt(v)]: any value goes through [String(v)] first. *)
Definition parseInt (v : jsval) : jsval := parseInt_radix true (String_ v).

(** The rest of a string after its leading run of characters in a class,
    with the length of the run. *)
Fixpoint span (p : ascii -> bool) (s : string) : nat * string :=
  match s with
  | String a s' =>
      if p a then let '(n, r) := span p s' in (S n, r) else (O, s)
  | EmptyString => (O, EmptyString)
  end.

Definition digit_below (r : Z) (a : ascii) : bool :=
  match digit_val a with Some d => d <? r | None => false end.

Definition is_digit : ascii -> bool := digit_below 10.

Definition is_hex_digit : ascii -> bool := digit_below 16.

Definition is_oct_digit : ascii -> bool := digit_below 8.

Definition is_bin_digit : ascii -> bool := digit_below 2.

(** A whole string made of at least one character of a class. *)
Definition all_of (p : ascii -> bool) (s : string) : bool :=
  match span p s with
  | (S _, EmptyString) => true
  | _ => false
  end.

(** An exponent part [e[+-]digits], or nothing, up to the end. *)
Definition exponent_or_end (s : string) : bool :=
  match s with
  | EmptyString => true
  | String a r =>
      if (code a =? 101) || (code a =? 69) then
        match r with
        | String "+" r' | String "-" r' => all_of is_digit r'
        | _ => all_of is_digit r
        end
      else false
  end.

(** [StrUnsignedDecimalLiteral]: [Infinity], [d+.d*e?], [.d+e?], [d+e?]. *)
Definition unsigned_decimal (s : string) : bool :=
  if bool_decide (s = "Infinity") then true else
  let '(n, r) := span is_digit s in
  match r with
  | String "." r1 =>
      let '(m, r2) := span is_digit r1 in
      negb ((n + m =? 0)%nat) && exponent_or_end r2
  | _ => negb ((n =? 0)%nat) && exponent_or_end r
  end.

Definition nondecimal_integer (s : string) : bool :=
  match s with
  | String "0" (String x r) =>
      let n := code x in
      if (n =? 120) || (n =? 88) then all_of is_hex_digit r
      else if (n =? 111) || (n =? 79) then all_of is_oct_digit r
      else if (n =? 98) || (n =? 66) then all_of is_bin_digit r
      else false
  | _ => false
  end.

Definition rev_string (s : string) : string :=
  String.string_of_list_ascii (rev (String.list_ascii_of_string s)).

Definition trim (s : string) : string :=
  rev_string (skip_ws (rev_string (skip_ws s))).

(** [Number(s)] is [NaN]: the trimmed text is neither empty nor a numeric
    literal. *)
Definition string_is_NaN (s : string) : bool :=
  let t := trim s in
  match t with
  | EmptyString => false
  | String "+" r | String "-" r => negb (unsigned_decimal r)
  | _ => negb (unsigned_decimal t || nondecimal_integer t)
  end.

(** The global [isNaN(v)], that is [Number(v)] is [NaN]. *)
Definition isNaN (v : jsval) : bool :=
  match v with
  | VUndef | VNaN | VObj _ => true
  | VNull | VBool _ | VNum _ => false
  | VStr s => string_is_NaN s
  end.

(** [a === b] on primitives; [NaN] equals nothing.  Two objects are equal
    only when they are the same object, which no comparison of the sources
    that reaches this case depends on. *)
Definition strict_eq (a b : jsval) : bool :=
  match a, b with
  | VUndef, VUndef | VNull, VNull => true
  | VBool x, VBool y => bool_decide (x = y)
  | VNum x, VNum y => x =? y
  | VStr x, VStr y => bool_decide (x = y)
  | _, _ => false
  end.

(** [v === null || v === undefined]; also what a missing or [null] member
    of a WebIDL dictionary is. *)
Definition nullish (v : jsval) : bool :=
  strict_eq v VNull || strict_eq v VUndef.

(** [arr.indexOf(k)], [-1] when absent. *)
Fixpoint indexOf_from (i : Z) (l : list jsval) (k : jsval) : Z :=
  match l with
  | [] => -1
  | x :: l' => if strict_eq x k then i else indexOf_from (i + 1) l' k
  end.

Definition indexOf (l : list jsval) (k : jsval) : Z := indexOf_from 0 l k.

(** [arr.filter((k, index, self) => p k index self)]. *)
Fixpoint filter_idx_from (p : jsval -> Z -> bool) (i : Z) (l : list jsval)
  : list jsval :=
  match l with
  | [] => []
  | x :: l' =>
      if p x i then x :: filter_idx_from p (i + 1) l'
      else filter_idx_from p (i + 1) l'
  end.

Definition filter_idx (p : jsval -> Z -> bool) (l : list jsval) : list jsval :=
  filter_idx_from p 0 l.

(** [arr.slice(-n)]: the last [n] elements. *)
Definition slice_last {A} (n : nat) (l : list A) : list A :=
  drop (length l - n)%nat l.

End JS.

(* ================================================================== *)
(** ** The server: push registry, dispatcher and signal queue
       ([src/api/index.js]) *)
(* ================================================================== *)

Module Server.
Import JS.

(** An entry of [callSignals[uid]]: [{ ...signal, timestamp }], to which
    [getCallSignals] later adds [read] and [readAt].  A missing [read] is
    [false], a missing [readAt] is [None]. *)
Record Signal : Type := mkSignal {
  sig_type : string;
  sig_data : jsval;
  timestamp : Z;
  read : bool;
  readAt : option Z
}.

(** A response stream held in [clients]. *)
Definition conn : Type := nat.

(** The process-wide state: [clients], [callSignals], and the outside of the
    process that [sendEvent] touches: which response streams raise on
    [write], and every frame written so far, oldest first.  A frame is kept
    as the object that was serialised. *)
Record State : Type := mkState {
  clients : gmap string conn;
  callSignals : gmap string (list Signal);
  broken : gset conn;
  wire : list (conn * jsval)
}.

Definition empty_state : State :=
  {| clients := ∅; callSignals := ∅; broken := ∅; wire := [] |}.

Definition set_clients (st : State) (c : gmap string conn) : State :=
  {| clients := c; callSignals := callSignals st;
     broken := broken st; wire := wire st |}.

Definition set_callSignals (st : State) (q : gmap string (list Signal)) : State :=
  {| clients := clients st; callSignals := q;
     broken := broken st; wire := wire st |}.

Definition push_wire (st : State) (c : conn) (frame : jsval) : State :=
  {| clients := clients st; callSignals := callSignals st;
     broken := broken st; wire := wire st ++ [(c, frame)] |}.

(** *** Push registry: [app.get('/api/events')] *)

(** [typeof userId === 'string' ? parseInt(userId) : userId]. *)
Definition toInt (v : jsval) : jsval :=
  if is_string v then parseInt v else v.

(** The keys the connection is stored under, in the order of the
    assignments [clients[k] = res]. *)
Definition storedKeys (userId : jsval) : list jsval :=
  let userIdStr := String_ userId in
  let userIdInt := toInt userId in
  [VStr userIdStr; VStr (String_ userId)]
  ++ (if is_number userId then [userId] else [])
  ++ (if negb (isNaN userIdInt)
      then [userIdInt; VStr (String_ userIdInt)] else []).

Definition register (st : State) (userId : jsval) (res : conn) : State :=
  set_clients st
    (foldl (fun m k => <[String_ k := res]> m) (clients st) (storedKeys userId)).

(** [req.on('close')]: the same keys are deleted. *)
Definition unregister (st : State) (userId : jsval) : State :=
  set_clients st
    (foldl (fun m k => delete (String_ k) m) (clients st) (storedKeys userId)).

(** *** Dispatcher: [sendEvent] *)

(** The candidate keys, before and after the [filter]. *)
Definition keysToTry_raw (uid : jsval) : list jsval :=
  let uidStr := String_ uid in
  let uidInt := if is_string uid then parseInt10 uidStr else uid in
  [ VStr uidStr;
    VStr (String_ uidInt);
    uidInt;
    parseInt10 uidStr;
    VStr (String_ (parseInt10 uidStr)) ].

Definition keysToTry (uid : jsval) : list jsval :=
  let self := keysToTry_raw uid in
  filter_idx
    (fun k index =>
       negb (strict_eq k VNull) && negb (strict_eq k VUndef)
       && negb (isNaN k) && (indexOf self k =? index))
    self.

(** [for (const key of keysToTry) if (clients[key]) { ...; break }]. *)
Fixpoint find_client (cl : gmap string conn) (keys : list jsval)
  : option (jsval * conn) :=
  match keys with
  | [] => None
  | key :: keys' =>
      match cl !! String_ key with
      | Some target => Some (key, target)
      | None => find_client cl keys'
      end
  end.

(** [eventPayload = { type, message: data, data }]. *)
Definition eventPayload (type : string) (data : jsval) : jsval :=
  VObj [("type", VStr type); ("message", data); ("data", data)].

(** [keysToTry.forEach(key => delete clients[key])]. *)
Definition delete_keys (cl : gmap string conn) (keys : list jsval)
  : gmap string conn :=
  foldl (fun m key => delete (String_ key) m) cl keys.

Definition sendEvent (st : State) (uid : jsval) (type : string) (data : jsval)
  : bool * State :=
  let keys := keysToTry uid in
  match find_client (clients st) keys with
  | Some (_, target) =>
      if bool_decide (target ∈ broken st)
      then (false, set_clients st (delete_keys (clients st) keys))
      else (true, push_wire st target (eventPayload type data))
  | None => (false, st)
  end.

(** *** Signal queue: [addCallSignal], [getCallSignals] *)

Definition addCallSignal (st : State) (now : Z) (userId : jsval)
    (type : string) (data : jsval) : State :=
  let uid := String_ userId in
  let q := default [] (callSignals st !! uid) in
  let signalWithTimestamp :=
    {| sig_type := type; sig_data := data; timestamp := now;
       read := false; readAt := None |} in
  let q1 := q ++ [signalWithTimestamp] in
  let q2 := if (50 <? Z.of_nat (length q1)) then slice_last 50 q1 else q1 in
  set_callSignals st (<[uid := q2]> (callSignals st)).

Definition SIGNAL_TTL : Z := 60000.
Definition MAX_AGE_FOR_READ : Z := 30000.
Definition CLEAR_AGE : Z := 30000.
Definition READ_CLEAR_AGE : Z := 10000.

(** The body of [unreadSignals.forEach]: an unread signal younger than
    [MAX_AGE_FOR_READ] gets [read = true; readAt = now].  On a signal that is
    already read it changes nothing, so mapping it over the whole queue is
    the mutation of the shared objects. *)
Definition mark_read (now : Z) (s : Signal) : Signal :=
  if negb (read s) && (now - timestamp s <? MAX_AGE_FOR_READ)
  then {| sig_type := sig_type s; sig_data := sig_data s;
          timestamp := timestamp s; read := true; readAt := Some now |}
  else s.

(** [s.readAt || s.timestamp]. *)
Definition readAt_or_timestamp (s : Signal) : Z :=
  match readAt s with
  | Some r => if r =? 0 then timestamp s else r
  | None => timestamp s
  end.

(** The predicate of the last [filter]. *)
Definition retained (now : Z) (s : Signal) : bool :=
  if read s then now - readAt_or_timestamp s <? READ_CLEAR_AGE
  else now - timestamp s <? CLEAR_AGE.

Definition fresh (now : Z) (s : Signal) : bool :=
  now - timestamp s <? SIGNAL_TTL.

Definition unread (s : Signal) : bool := negb (read s).

(** [getCallSignals]: the returned array holds the very objects of the
    queue, so the caller sees them as [mark_read] left them. *)
Definition getCallSignals (st : State) (now : Z) (userId : jsval)
  : list Signal * State :=
  let uid := String_ userId in
  match callSignals st !! uid with
  | None => ([], set_callSignals st (<[uid := []]> (callSignals st)))
  | Some q =>
      let q1 := List.filter (fresh now) q in
      let unreadSignals := List.filter unread q1 in
      let q2 := map (mark_read now) q1 in
      let q3 := List.filter (retained now) q2 in
      (map (mark_read now) unreadSignals,
       set_callSignals st (<[uid := q3]> (callSignals st)))
  end.

(** *** REST handlers that dispatch events *)

(** A handler gets the parsed request body and the outcome of
    [jwt.verify(token, JWT_SECRET)]: [Some id] for [decoded.id], [None] when
    it raises.  It answers with an HTTP status; a handler whose
    [jwt.verify] raises answers 401 (500 for an error that is not about the
    token) and has changed nothing. *)

(** [app.post('/api/message')], from the dispatch on: [g_members] is
    [Group.findById(groupIdInt)] with its [members], when there are any. *)
Definition member_id (m : jsval) : jsval :=
  let memberId :=
    match m with
    | VObj _ => or_ (get m "id") (get m "_id")
    | _ => m
    end in
  toInt memberId.

Definition message_dispatch (st : State) (groupIdInt : jsval)
    (g_members : option (list jsval))
    (recipientIdInt senderIdInt msg : jsval) : State :=
  if truthy groupIdInt then
    match g_members with
    | Some members =>
        foldl (fun s m => snd (sendEvent s (member_id m) "receive_message" msg))
              st members
    | None => st
    end
  else if truthy recipientIdInt then
    let st1 := snd (sendEvent st recipientIdInt "receive_message" msg) in
    snd (sendEvent st1 senderIdInt "receive_message" msg)
  else st.

(** [sendEvent(toId, 'friend_request', ...)], [sendEvent(fromUserId,
    'friend_accepted', ...)], [sendEvent(m, 'group_created', group)],
    [sendEvent(m.id || m, 'group_deleted', ...)] and [app.post('/api/signal')]
    are each one bare call of [sendEvent]. *)
Definition notify (st : State) (uid : jsval) (type : string) (data : jsval)
  : State :=
  snd (sendEvent st uid type data).

(** [app.post('/api/calls/initiate')]. *)
Definition calls_initiate (st : State) (now : Z) (decoded : option jsval)
    (body : jsval) : Z * State :=
  let token := get body "token" in
  let userToCall := get body "userToCall" in
  let signalData := get body "signalData" in
  let fromUsername := get body "fromUsername" in
  if negb (truthy token) || negb (truthy userToCall) || negb (truthy signalData)
  then (400, st)
  else
    match decoded with
    | None => (401, st)
    | Some callerId =>
        let targetId := toInt userToCall in
        let callerIdInt := toInt callerId in
        let isVideo := or_ (get body "isVideo") (VBool false) in
        let data :=
          VObj [("from", callerIdInt);
                ("signal", spread_set signalData "isVideo" isVideo);
                ("name", or_ fromUsername (VStr "Someone"))] in
        let st1 := snd (sendEvent st targetId "call_user" data) in
        (200, addCallSignal st1 now targetId "call_user" data)
    end.

(** [app.post('/api/calls/answer')]. *)
Definition calls_answer (st : State) (now : Z) (decoded : option jsval)
    (body : jsval) : Z * State :=
  let token := get body "token" in
  let signal := get body "signal" in
  let to := get body "to" in
  if negb (truthy token) || negb (truthy signal) || negb (truthy to)
  then (400, st)
  else
    match decoded with
    | None => (401, st)
    | Some _ =>
        let callerId := toInt to in
        let st1 := snd (sendEvent st callerId "call_accepted" signal) in
        (200, addCallSignal st1 now callerId "call_accepted" signal)
    end.

(** [validCandidate] of [app.post('/api/calls/ice-candidate')]. *)
Definition validCandidate (candidate : jsval) : jsval :=
  VObj [("candidate", or_ (get candidate "candidate") (VStr EmptyString));
        ("sdpMid", or_ (get candidate "sdpMid") VNull);
        ("sdpMLineIndex",
         if negb (strict_eq (get candidate "sdpMLineIndex") VUndef)
         then get candidate "sdpMLineIndex" else VNull)].

(** The test that skips a candidate without its required fields. *)
Definition invalid_candidate (vc : jsval) : bool :=
  negb (truthy (get vc "candidate")) && negb (truthy (get vc "sdpMid"))
  && strict_eq (get vc "sdpMLineIndex") VNull.

(** [app.post('/api/calls/ice-candidate')]. *)
Definition calls_ice_candidate (st : State) (now : Z) (decoded : option jsval)
    (body : jsval) : Z * State :=
  let token := get body "token" in
  let to := get body "to" in
  let candidate := get body "candidate" in
  if negb (truthy token) || negb (truthy to) then (400, st)
  else if negb (truthy candidate) then (200, st)
  else
    match decoded with
    | None => (401, st)
    | Some _ =>
        let targetId := toInt to in
        let vc := validCandidate candidate in
        if invalid_candidate vc then (200, st)
        else
          let st1 := snd (sendEvent st targetId "ice_candidate" vc) in
          (200, addCallSignal st1 now targetId "ice_candidate" vc)
    end.

(** [app.post('/api/calls/end')]. *)
Definition calls_end (st : State) (now : Z) (decoded : option jsval)
    (body : jsval) : Z * State :=
  let token := get body "token" in
  let to := get body "to" in
  if negb (truthy token) then (400, st)
  else
    match decoded with
    | None => (401, st)
    | Some senderId =>
        let senderIdInt := toInt senderId in
        if truthy to then
          let targetId := toInt to in
          let data := VObj [("from", senderIdInt)] in
          let st1 := snd (sendEvent st targetId "end_call" data) in
          (200, addCallSignal st1 now targetId "end_call" data)
        else (200, st)
    end.

(** [app.get('/api/calls/poll')]: the signals of the caller of the
    endpoint, or nothing with status 401. *)
Definition calls_poll (st : State) (now : Z) (decoded : option jsval)
  : Z * list Signal * State :=
  match decoded with
  | None => (401, [], st)
  | Some userId =>
      let '(signals, st') := getCallSignals st now (toInt userId) in
      (200, signals, st')
  end.

(** *** Other handlers on the dispatch path *)

(** The database is outside this model: what a handler reads from it is an
    argument of the handler ([created] for the row [Message.create] returns,
    [g_members] for the members of the group found, and so on), and what it
    writes to it is left out. *)

(** [app.post('/api/message')], for a server whose models are loaded. *)
Definition post_message (st : State) (decoded : option jsval) (body : jsval)
    (created : jsval) (g_members : option (list jsval)) : Z * State :=
  let token := get body "token" in
  let recipientId := get body "recipientId" in
  let groupId := get body "groupId" in
  let content := get body "content" in
  let fileUrl := get body "fileUrl" in
  if negb (truthy token) then (401, st)
  else if negb (truthy content) && negb (truthy fileUrl) then (400, st)
  else
    match decoded with
    | None => (401, st)
    | Some senderId =>
        let senderIdInt := toInt senderId in
        let recipientIdInt :=
          if truthy recipientId then toInt recipientId else VNull in
        let groupIdInt := if truthy groupId then toInt groupId else VNull in
        if negb (truthy groupIdInt) && negb (truthy recipientIdInt)
        then (400, st)
        else if negb (truthy created) then (500, st)
        else (200, message_dispatch st groupIdInt g_members
                     recipientIdInt senderIdInt created)
    end.

(** [app.post('/api/friends/request')]: [targetUser] is
    [User.findById(toId)], [hasRequest] and [isFriend] are the answers of
    [User.hasFriendRequest] and [User.isFriend], [fromUser] is
    [User.findById(fromIdInt)]. *)
Definition friends_request (st : State) (decoded : option jsval) (body : jsval)
    (targetUser : jsval) (hasRequest isFriend : bool) (fromUser : jsval)
  : Z * State :=
  let token := get body "token" in
  let toUserId := get body "toUserId" in
  if negb (truthy token) || negb (truthy toUserId) then (400, st)
  else
    match decoded with
    | None => (401, st)
    | Some fromId =>
        let toId := toInt toUserId in
        let fromIdInt := toInt fromId in
        if strict_eq fromIdInt toId then (400, st)
        else if negb (truthy targetUser) then (404, st)
        else if hasRequest then (400, st)
        else if isFriend then (400, st)
        else (200, notify st toId "friend_request" (VObj [("from", fromUser)]))
    end.

(** [app.post('/api/friends/accept')]; every error is answered 500. *)
Definition friends_accept (st : State) (decoded : option jsval) (body : jsval)
  : Z * State :=
  match decoded with
  | None => (500, st)
  | Some myId =>
      (200, notify st (get body "fromUserId") "friend_accepted"
              (VObj [("fromId", myId)]))
  end.

(** The equality of [Set]: same-value-zero, under which [NaN] equals
    itself. *)
Definition same_value_zero (a b : jsval) : bool :=
  match a, b with
  | VNaN, VNaN => true
  | _, _ => strict_eq a b
  end.

(** [[...new Set(l)]]: the first occurrence of each value, in order. *)
Fixpoint Set_values (seen : list jsval) (l : list jsval) : list jsval :=
  match l with
  | [] => seen
  | x :: l' =>
      if existsb (same_value_zero x) seen then Set_values seen l'
      else Set_values (seen ++ [x]) l'
  end.

(** [[...new Set([...members, adminId].map(id => parseInt(id)))]]. *)
Definition allMembers (members : list jsval) (adminId : jsval) : list jsval :=
  Set_values [] (map parseInt (members ++ [adminId])).

(** [app.post('/api/groups')]: [group] is what [Group.create] returns;
    every error is answered 500. *)
Definition groups_create (st : State) (decoded : option jsval)
    (members : list jsval) (group : jsval) : Z * State :=
  match decoded with
  | None => (500, st)
  | Some adminId =>
      (200, foldl (fun acc m => notify acc m "group_created" group) st
              (allMembers members adminId))
  end.

(** [app.delete('/api/groups/:id')]: [group] is [Group.findById], [members]
    its [members], [role] the [role] of [User.findById(uid)]. *)
Definition groups_delete (st : State) (decoded : option jsval)
    (group : option jsval) (members : option (list jsval)) (role : jsval)
  : Z * State :=
  match decoded with
  | None => (500, st)
  | Some uid =>
      match group with
      | None => (404, st)
      | Some g =>
          if negb (strict_eq (get g "admin_id") uid)
             && negb (strict_eq role (VStr "admin"))
          then (403, st)
          else
            (200,
             match members with
             | Some ms =>
                 foldl (fun acc m =>
                          notify acc (or_ (get m "id") m) "group_deleted"
                            (VObj [("groupId", get g "id")]))
                       st ms
             | None => st
             end)
      end
  end.

(** The [keepAlive] timer of [/api/events]: [res.write(': keepalive\n\n')],
    and on an error the keys of the user are deleted.  The comment line is
    logged on the wire as the string written. *)
Definition keepAlive (st : State) (userId : jsval) (res : conn) : State :=
  if bool_decide (res ∈ broken st) then unregister st userId
  else push_wire st res (VStr ": keepalive").

(** *** The group model ([Group.findById] of the models file) *)

(** A member as [Group.findById] hands it out, from the user row [m]. *)
Definition formatMember (m : jsval) : jsval :=
  VObj [("_id", get m "id"); ("id", get m "id");
        ("username", get m "username"); ("nickname", get m "nickname");
        ("avatar", get m "avatar"); ("role", get m "role")].

(** The [members] of the group found: [members.map(m => m.users)
    .filter(Boolean)], each row formatted; [users] are the joined user rows
    [m.users]. *)
Definition Group_members (users : list jsval) : list jsval :=
  formatMember <$> List.filter truthy users.

(** *** The message model ([Message.formatMessage] of the models file) *)

(** [formatMessage(msg)]: the shape in which [Message.create],
    [Message.findById] and [Message.find] hand out a row.  [sender] is
    [msg.sender || (Array.isArray(msg.sender) ? msg.sender[0] : null)]; a
    falsy value is no array, so the second operand is [null]. *)
Definition formatMessage (msg : jsval) : jsval :=
  let sender := or_ (get msg "sender") VNull in
  VObj [("_id", get msg "id");
        ("id", get msg "id");
        ("sender",
         VObj [("_id", get msg "sender_id");
               ("id", get msg "sender_id");
               ("username", or_ (get sender "username") VNull);
               ("nickname", or_ (get sender "nickname") VNull);
               ("avatar", or_ (get sender "avatar") VNull)]);
        ("recipient", get msg "recipient_id");
        ("recipient_id", get msg "recipient_id");
        ("groupId", get msg "group_id");
        ("group_id", get msg "group_id");
        ("content", get msg "content");
        ("fileUrl", get msg "fileUrl");
        ("type", get msg "type");
        ("timestamp", get msg "timestamp");
        ("sender_username", or_ (get sender "username") VNull);
        ("sender_nickname", or_ (get sender "nickname") VNull);
        ("sender_avatar", or_ (get sender "avatar") VNull);
        ("sender_id", get msg "sender_id")].

End Server.

(* ================================================================== *)
(** ** The client: [ChatDashboard] of [src/client/src/App.jsx] *)
(* ================================================================== *)

Module Client.
Import JS.

(** *** Push reconnection: the SSE effect's [connectSSE] *)

(** [EventSource.readyState]. *)
Inductive readyState : Type := CONNECTING | OPEN | CLOSED.

(** The variables of the effect, [let reconnectAttempts = 0] and
    [reconnectTimeout], with the delays handed to [setTimeout(connectSSE,
    delay)] so far, oldest first. *)
Record Sse : Type := mkSse {
  reconnectAttempts : Z;
  reconnectTimeout : option Z;
  scheduled : list Z
}.

Definition maxReconnectAttempts : Z := 5.

Definition sse_start : Sse :=
  {| reconnectAttempts := 0; reconnectTimeout := None; scheduled := [] |}.

(** [Math.min(1000 * Math.pow(2, reconnectAttempts), 30000)]. *)
Definition backoff_delay (attempts : Z) : Z :=
  Z.min (1000 * 2 ^ attempts) 30000.

(** The body shared by [onerror] (closed branch) and the [catch] block of
    [connectSSE]. *)
Definition schedule_reconnect (s : Sse) : Sse :=
  if reconnectAttempts s <? maxReconnectAttempts then
    let attempts := reconnectAttempts s + 1 in
    let delay := backoff_delay attempts in
    {| reconnectAttempts := attempts;
       reconnectTimeout := Some delay;
       scheduled := scheduled s ++ [delay] |}
  else s.

(** [eventSource.onopen]. *)
Definition onopen (s : Sse) : Sse :=
  {| reconnectAttempts := 0;
     reconnectTimeout := reconnectTimeout s;
     scheduled := scheduled s |}.

(** [eventSource.onerror], given [eventSource.readyState]. *)
Definition onerror (s : Sse) (rs : readyState) : Sse :=
  match rs with
  | CLOSED => schedule_reconnect s
  | _ => s
  end.

(** What can happen to the subscription between two reconnections. *)
Inductive sse_event : Type :=
| SseOpen
| SseError (rs : readyState)
| SseConstructorThrows.

Definition sse_step (s : Sse) (e : sse_event) : Sse :=
  match e with
  | SseOpen => onopen s
  | SseError rs => onerror s rs
  | SseConstructorThrows => schedule_reconnect s
  end.

Definition sse_run (s : Sse) (es : list sse_event) : Sse :=
  foldl sse_step s es.

(** *** Adaptive call polling: [updatePollInterval] and [intervalCheck] *)

(** [(callActiveRef.current || receivingCallRef.current) ? 500 : 2000]. *)
Definition poll_interval (callActiveRef receivingCallRef : bool) : Z :=
  if callActiveRef || receivingCallRef then 500 else 2000.

(** The timers of the polling effect: the [setInterval(pollCalls, interval)]
    held in [callPollIntervalRef] (its period and next due time), the
    [setInterval(..., 1000)] of [intervalCheck] (its next due time), the
    clock, and the times at which [pollCalls] was called, oldest first. *)
Record Poller : Type := mkPoller {
  clock : Z;
  pollPeriod : Z;
  pollDue : Z;
  checkDue : Z;
  polled : list Z
}.

(** [updatePollInterval] at time [clock p]: the running interval is
    cleared and a new one is set from the refs. *)
Definition updatePollInterval (refs : bool * bool) (p : Poller) : Poller :=
  let interval := poll_interval (fst refs) (snd refs) in
  {| clock := clock p; pollPeriod := interval;
     pollDue := clock p + interval;
     checkDue := checkDue p; polled := polled p |}.

(** The effect body at time [t0]: [pollCalls(); updatePollInterval();
    intervalCheck = setInterval(..., 1000)]. *)
Definition poll_start (refs : bool * bool) (t0 : Z) : Poller :=
  updatePollInterval refs
    {| clock := t0; pollPeriod := 0; pollDue := t0;
       checkDue := t0 + 1000; polled := [t0] |}.

(** The poll timer fires when due. *)
Definition fire_poll (p : Poller) : Poller :=
  if pollDue p =? clock p then
    {| clock := clock p; pollPeriod := pollPeriod p;
       pollDue := clock p + pollPeriod p;
       checkDue := checkDue p; polled := polled p ++ [clock p] |}
  else p.

(** The check timer fires when due, and calls [updatePollInterval]. *)
Definition fire_check (refs : bool * bool) (p : Poller) : Poller :=
  if checkDue p =? clock p then
    updatePollInterval refs
      {| clock := clock p; pollPeriod := pollPeriod p; pollDue := pollDue p;
         checkDue := clock p + 1000; polled := polled p |}
  else p.

(** One millisecond passes, then the timers that are due run.  When both are
    due in the same millisecond, [check_first] says which runs first. *)
Definition tick (check_first : bool) (refs : bool * bool) (p : Poller)
  : Poller :=
  let p1 := {| clock := clock p + 1; pollPeriod := pollPeriod p;
               pollDue := pollDue p; checkDue := checkDue p;
               polled := polled p |} in
  if check_first then fire_poll (fire_check refs p1)
  else fire_check refs (fire_poll p1).

(** The poller [n] milliseconds after the effect ran at [t0]; [env t] gives
    the refs at time [t]. *)
Fixpoint poll_run (check_first : bool) (env : Z -> bool * bool) (t0 : Z)
    (n : nat) : Poller :=
  match n with
  | O => poll_start (env t0) t0
  | S k =>
      tick check_first (env (t0 + Z.of_nat (S k)))
           (poll_run check_first env t0 k)
  end.

(** *** The call session *)

(** The state variables of [ChatDashboard] that the call logic reads: what
    one render sees, and so what every closure created during that render
    keeps seeing.  [localStream] is the handle of the acquired media stream
    or [null]. *)
Record View : Type := mkView {
  callActive : bool;
  receivingCall : bool;
  caller : jsval;
  callerSignal : jsval;
  callStatus : string;
  isVideoCall : bool;
  localStream : option nat;
  showCallEnding : bool;
  selectedUser : jsval
}.

(** The [useState] initial values. *)
Definition initial_view : View :=
  {| callActive := false; receivingCall := false; caller := VNull;
     callerSignal := VNull; callStatus := EmptyString; isVideoCall := false;
     localStream := None; showCallEnding := false; selectedUser := VNull |}.

(** An [RTCPeerConnection]: which handlers are installed, whether it was
    closed, the remote description and the candidates handed to it. *)
Record Peer : Type := mkPeer {
  onconnectionstatechange_set : bool;
  oniceconnectionstatechange_set : bool;
  onicegatheringstatechange_set : bool;
  ontrack_set : bool;
  onicecandidate_set : bool;
  closed : bool;
  remoteDescription : option jsval;
  iceCandidates : list jsval
}.

Definition new_peer : Peer :=
  {| onconnectionstatechange_set := true; oniceconnectionstatechange_set := true;
     onicegatheringstatechange_set := true; ontrack_set := true;
     onicecandidate_set := true; closed := false;
     remoteDescription := None; iceCandidates := [] |}.

(** [connectionRef.current]: [useRef()] starts it as [undefined],
    [endCallCleanup] leaves [null]. *)
Inductive connref : Type :=
| ConnUndefined
| ConnNull
| ConnPeer (p : Peer).

Record Refs : Type := mkRefs {
  callEndedIntentionallyRef : bool;
  callTargetRef : jsval;
  connectionRef : connref;
  callActiveRef : bool;
  receivingCallRef : bool
}.

Definition initial_refs : Refs :=
  {| callEndedIntentionallyRef := false; callTargetRef := VNull;
     connectionRef := ConnUndefined;
     callActiveRef := false; receivingCallRef := false |}.

(** What a pending [setTimeout] will run. *)
Inductive timer_body : Type :=
| ResetCall
| RestartIceIfFailed.

(** The operations on things outside the component, in the order they are
    performed. *)
Inductive effect : Type :=
| FlagSet
| HandlersDetached
| TracksStopped (stream : nat)
| MediaElementsCleared
| PeerClosed
| TimeoutSet (ms : Z) (body : timer_body)
| PostEndCall (to : jsval)
| IceCandidateAdded (candidate : jsval)
| RemoteDescriptionSet (description : jsval)
| IceRestarted.

(** A running [ChatDashboard]: the current state (what the next render
    shows), the refs, the media streams whose tracks are running, the
    pending timeouts, the log of operations, oldest first, and
    [effect_view]: the view held by the closures of the two transport
    effects.  Both are written [useEffect(() => { ... }, [token])]
    (App.jsx:626-959 for the push subscription, 1012-1218 for call polling),
    so their bodies run after the first render and again only when [token]
    changes; [eventSource.onmessage], [pollCalls] and the [endCallCleanup]
    they call are the functions of that render and read its [callActive],
    [receivingCall], [caller] and [localStream].  Refs are shared by all
    renders, which is why [updatePollInterval] reads [callActiveRef] and
    [receivingCallRef] (App.jsx:1193, 1220-1227). *)
Record Client : Type := mkClient {
  st : View;
  refs : Refs;
  effect_view : View;
  live_streams : list nat;
  timeouts : list (Z * timer_body);
  log : list effect
}.

Definition mount : Client :=
  {| st := initial_view; refs := initial_refs; effect_view := initial_view;
     live_streams := []; timeouts := []; log := [] |}.

(** Updates of one part of the client. *)
Definition with_st (f : View -> View) (c : Client) : Client :=
  {| st := f (st c); refs := refs c; effect_view := effect_view c;
     live_streams := live_streams c; timeouts := timeouts c; log := log c |}.

Definition with_refs (f : Refs -> Refs) (c : Client) : Client :=
  {| st := st c; refs := f (refs c); effect_view := effect_view c;
     live_streams := live_streams c; timeouts := timeouts c; log := log c |}.

Definition emit (e : effect) (c : Client) : Client :=
  {| st := st c; refs := refs c; effect_view := effect_view c;
     live_streams := live_streams c; timeouts := timeouts c;
     log := log c ++ [e] |}.

(** The state setters. *)
Definition setCallActive (b : bool) : Client -> Client :=
  with_st (fun v =>
    {| callActive := b; receivingCall := receivingCall v; caller := caller v;
       callerSignal := callerSignal v; callStatus := callStatus v;
       isVideoCall := isVideoCall v; localStream := localStream v;
       showCallEnding := showCallEnding v; selectedUser := selectedUser v |}).

Definition setReceivingCall (b : bool) : Client -> Client :=
  with_st (fun v =>
    {| callActive := callActive v; receivingCall := b; caller := caller v;
       callerSignal := callerSignal v; callStatus := callStatus v;
       isVideoCall := isVideoCall v; localStream := localStream v;
       showCallEnding := showCallEnding v; selectedUser := selectedUser v |}).

Definition setCaller (x : jsval) : Client -> Client :=
  with_st (fun v =>
    {| callActive := callActive v; receivingCall := receivingCall v; caller := x;
       callerSignal := callerSignal v; callStatus := callStatus v;
       isVideoCall := isVideoCall v; localStream := localStream v;
       showCallEnding := showCallEnding v; selectedUser := selectedUser v |}).

Definition setCallerSignal (x : jsval) : Client -> Client :=
  with_st (fun v =>
    {| callActive := callActive v; receivingCall := receivingCall v;
       caller := caller v; callerSignal := x; callStatus := callStatus v;
       isVideoCall := isVideoCall v; localStream := localStream v;
       showCallEnding := showCallEnding v; selectedUser := selectedUser v |}).

Definition setCallStatus (x : string) : Client -> Client :=
  with_st (fun v =>
    {| callActive := callActive v; receivingCall := receivingCall v;
       caller := caller v; callerSignal := callerSignal v; callStatus := x;
       isVideoCall := isVideoCall v; localStream := localStream v;
       showCallEnding := showCallEnding v; selectedUser := selectedUser v |}).

Definition setIsVideoCall (b : bool) : Client -> Client :=
  with_st (fun v =>
    {| callActive := callActive v; receivingCall := receivingCall v;
       caller := caller v; callerSignal := callerSignal v;
       callStatus := callStatus v; isVideoCall := b;
       localStream := localStream v;
       showCallEnding := showCallEnding v; selectedUser := selectedUser v |}).

Definition setLocalStream (x : option nat) : Client -> Client :=
  with_st (fun v =>
    {| callActive := callActive v; receivingCall := receivingCall v;
       caller := caller v; callerSignal := callerSignal v;
       callStatus := callStatus v; isVideoCall := isVideoCall v;
       localStream := x;
       showCallEnding := showCallEnding v; selectedUser := selectedUser v |}).

Definition setShowCallEnding (b : bool) : Client -> Client :=
  with_st (fun v =>
    {| callActive := callActive v; receivingCall := receivingCall v;
       caller := caller v; callerSignal := callerSignal v;
       callStatus := callStatus v; isVideoCall := isVideoCall v;
       localStream := localStream v;
       showCallEnding := b; selectedUser := selectedUser v |}).

Definition setSelectedUser (x : jsval) : Client -> Client :=
  with_st (fun v =>
    {| callActive := callActive v; receivingCall := receivingCall v;
       caller := caller v; callerSignal := callerSignal v;
       callStatus := callStatus v; isVideoCall := isVideoCall v;
       localStream := localStream v;
       showCallEnding := showCallEnding v; selectedUser := x |}).

(** Assignments to the refs. *)
Definition set_callEndedIntentionallyRef (b : bool) : Client -> Client :=
  with_refs (fun r =>
    {| callEndedIntentionallyRef := b; callTargetRef := callTargetRef r;
       connectionRef := connectionRef r; callActiveRef := callActiveRef r;
       receivingCallRef := receivingCallRef r |}).

Definition set_callTargetRef (x : jsval) : Client -> Client :=
  with_refs (fun r =>
    {| callEndedIntentionallyRef := callEndedIntentionallyRef r;
       callTargetRef := x;
       connectionRef := connectionRef r; callActiveRef := callActiveRef r;
       receivingCallRef := receivingCallRef r |}).

Definition set_connectionRef (x : connref) : Client -> Client :=
  with_refs (fun r =>
    {| callEndedIntentionallyRef := callEndedIntentionallyRef r;
       callTargetRef := callTargetRef r;
       connectionRef := x; callActiveRef := callActiveRef r;
       receivingCallRef := receivingCallRef r |}).

Definition set_callActiveRef (b : bool) : Client -> Client :=
  with_refs (fun r =>
    {| callEndedIntentionallyRef := callEndedIntentionallyRef r;
       callTargetRef := callTargetRef r;
       connectionRef := connectionRef r; callActiveRef := b;
       receivingCallRef := receivingCallRef r |}).

Definition set_receivingCallRef (b : bool) : Client -> Client :=
  with_refs (fun r =>
    {| callEndedIntentionallyRef := callEndedIntentionallyRef r;
       callTargetRef := callTargetRef r;
       connectionRef := connectionRef r; callActiveRef := callActiveRef r;
       receivingCallRef := b |}).

(** The effects [useEffect(() => { callActiveRef.current = callActive },
    [callActive])] and its twin for [receivingCall], run after a render. *)
Definition sync_refs (c : Client) : Client :=
  set_receivingCallRef (receivingCall (st c))
    (set_callActiveRef (callActive (st c)) c).

(** *** [endCallCleanup] *)

Definition detach_handlers (p : Peer) : Peer :=
  {| onconnectionstatechange_set := false; oniceconnectionstatechange_set := false;
     onicegatheringstatechange_set := false; ontrack_set := false;
     onicecandidate_set := false; closed := closed p;
     remoteDescription := remoteDescription p;
     iceCandidates := iceCandidates p |}.

(** [if (connectionRef.current) { connectionRef.current.on... = null }]. *)
Definition remove_handlers (c : Client) : Client :=
  match connectionRef (refs c) with
  | ConnPeer p =>
      emit HandlersDetached (set_connectionRef (ConnPeer (detach_handlers p)) c)
  | _ => c
  end.

(** [if (localStream) { localStream.getTracks().forEach(track =>
    track.stop()); setLocalStream(null) }], where [localStream] is the one
    of the render that created this [endCallCleanup]. *)
Definition stop_tracks (cap : View) (c : Client) : Client :=
  match localStream cap with
  | Some s =>
      let c :=
        {| st := st c; refs := refs c; effect_view := effect_view c;
           live_streams := List.filter (fun x => negb (x =? s)%nat) (live_streams c);
           timeouts := timeouts c; log := log c |} in
      let c := emit (TracksStopped s) c in
      setLocalStream None c
  | None => c
  end.

(** [if (connectionRef.current) { connectionRef.current.close();
    connectionRef.current = null }]. *)
Definition close_connection (c : Client) : Client :=
  match connectionRef (refs c) with
  | ConnPeer _ => set_connectionRef ConnNull (emit PeerClosed c)
  | _ => c
  end.

(** The reset shared by the timeout body and the branch without message. *)
Definition reset_call (c : Client) : Client :=
  let c := set_callActiveRef false c in
  let c := set_receivingCallRef false c in
  let c := setCallActive false c in
  let c := setReceivingCall false c in
  let c := setCallStatus EmptyString c in
  let c := setCaller VNull c in
  let c := setIsVideoCall false c in
  let c := setShowCallEnding false c in
  let c := set_callEndedIntentionallyRef false c in
  set_callTargetRef VNull c.

Definition setTimeout (body : timer_body) (ms : Z) (c : Client) : Client :=
  emit (TimeoutSet ms body)
    {| st := st c; refs := refs c; effect_view := effect_view c;
       live_streams := live_streams c;
       timeouts := timeouts c ++ [(ms, body)]; log := log c |}.

Definition endCallCleanup (cap : View) (statusMessage : string) (c : Client)
  : Client :=
  let c := set_callEndedIntentionallyRef true c in
  let c := emit FlagSet c in
  let c := remove_handlers c in
  if truthy (VStr statusMessage) then
    let c := setCallStatus statusMessage c in
    let c := setShowCallEnding true c in
    let c := stop_tracks cap c in
    let c := emit MediaElementsCleared c in
    let c := close_connection c in
    setTimeout ResetCall 3000 c
  else
    let c := reset_call c in
    let c := stop_tracks cap c in
    let c := emit MediaElementsCleared c in
    close_connection c.

(** The oldest pending timeout fires.  [ice_failed] is
    [peer.iceConnectionState === 'failed'] at that moment. *)
Definition fire_timeout (ice_failed : bool) (c : Client) : Client :=
  match timeouts c with
  | [] => c
  | (_, body) :: rest =>
      let c :=
        {| st := st c; refs := refs c; effect_view := effect_view c;
           live_streams := live_streams c; timeouts := rest; log := log c |} in
      match body with
      | ResetCall => reset_call c
      | RestartIceIfFailed =>
          if ice_failed && negb (callEndedIntentionallyRef (refs c))
          then emit IceRestarted c else c
      end
  end.

(** *** Connection health callbacks *)

(** [peer.connectionState] and [peer.iceConnectionState]. *)
Inductive connectionState : Type :=
| CsNew | CsConnecting | CsConnected | CsDisconnected | CsFailed | CsClosed.

Inductive iceConnectionState : Type :=
| IceNew | IceChecking | IceConnected | IceCompleted
| IceDisconnected | IceFailed | IceClosed.

(** [callEndedIntentionallyRef.current || showCallEnding]. *)
Definition ended (cap : View) (c : Client) : bool :=
  callEndedIntentionallyRef (refs c) || showCallEnding cap.

(** [(callActive || receivingCall) && !callEndedIntentionallyRef.current &&
    !showCallEnding]. *)
Definition still_in_call (cap : View) (c : Client) : bool :=
  (callActive cap || receivingCall cap)
  && negb (callEndedIntentionallyRef (refs c)) && negb (showCallEnding cap).

(** [peer.onconnectionstatechange] as installed by [callUser]. *)
Definition onconnectionstatechange_caller (cap : View) (c : Client)
    (s : connectionState) : Client :=
  if ended cap c then c
  else
    match s with
    | CsConnected =>
        if negb (callEndedIntentionallyRef (refs c)) && negb (showCallEnding cap)
        then setCallStatus "Call in progress" c else c
    | CsDisconnected =>
        if still_in_call cap c then setCallStatus "Connection lost..." c else c
    | CsFailed =>
        if still_in_call cap c
        then emit IceRestarted
               (setCallStatus "Connection failed - trying to reconnect..." c)
        else c
    | _ => c
    end.

(** [peer.oniceconnectionstatechange] as installed by [callUser]. *)
Definition oniceconnectionstatechange_caller (cap : View) (c : Client)
    (s : iceConnectionState) : Client :=
  if ended cap c then c
  else
    match s with
    | IceFailed =>
        if still_in_call cap c
        then emit IceRestarted
               (setCallStatus "Connection failed - check network" c)
        else c
    | IceDisconnected =>
        if still_in_call cap c then setCallStatus "Connection lost..." c else c
    | IceConnected =>
        if negb (callEndedIntentionallyRef (refs c)) && negb (showCallEnding cap)
        then setCallStatus "Call in progress" c else c
    | _ => c
    end.

(** [peer.onconnectionstatechange] as installed by [answerCall]. *)
Definition onconnectionstatechange_answerer (cap : View) (c : Client)
    (s : connectionState) : Client :=
  if ended cap c then c
  else
    match s with
    | CsConnected => setCallStatus "Call in progress" c
    | CsConnecting =>
        if negb (bool_decide (callStatus cap = "Call in progress"))
        then setCallStatus "Call in progress" c else c
    | CsDisconnected =>
        if still_in_call cap c then setCallStatus "Connection lost..." c else c
    | CsFailed =>
        if still_in_call cap c
        then emit IceRestarted
               (setCallStatus "Connection failed - trying to reconnect..." c)
        else c
    | _ => c
    end.

(** [peer.oniceconnectionstatechange] as installed by [answerCall]. *)
Definition oniceconnectionstatechange_answerer (cap : View) (c : Client)
    (s : iceConnectionState) : Client :=
  if ended cap c then c
  else
    match s with
    | IceFailed =>
        if still_in_call cap c
        then setTimeout RestartIceIfFailed 1000
               (setCallStatus "Connection failed - retrying..." c)
        else c
    | IceDisconnected =>
        if still_in_call cap c then setCallStatus "Connection lost..." c else c
    | IceConnected =>
        if negb (callEndedIntentionallyRef (refs c)) && negb (showCallEnding cap)
        then setCallStatus "Call in progress" c else c
    | _ => c
    end.

(** *** Incoming events: [eventSource.onmessage] and [pollCalls] *)

(** [connectionRef.current !== null] and [if (connectionRef.current)]. *)
Definition conn_not_null (r : connref) : bool :=
  match r with ConnNull => false | _ => true end.

Definition conn_truthy (r : connref) : bool :=
  match r with ConnPeer _ => true | _ => false end.

(** The [call_user] branch, the same in both handlers once the caller id,
    the caller name candidates and the offer have been read from the event:
    [from], [name], [signal] are [data.from], [data.name], [data.signal] in
    [onmessage] and [signal.data.from], [signal.data.name],
    [signal.data.signal] in [pollCalls]. *)
Definition on_call_user (cap : View) (c : Client) (from name signal : jsval)
  : Client :=
  let hasActiveConnection :=
    conn_not_null (connectionRef (refs c)) && callActive cap in
  let isActuallyReceiving :=
    receivingCall cap && negb (strict_eq (caller cap) VNull)
    && negb (callActive cap) in
  if hasActiveConnection then c
  else if isActuallyReceiving then c
  else
    let callerId := from in
    let callerName := or_ (or_ name (get signal "name")) (VStr "Someone") in
    let c := set_callTargetRef callerId c in
    let c := set_receivingCallRef true c in
    let c := setReceivingCall true c in
    let c := setCaller callerId c in
    let c := setCallerSignal signal c in
    setCallStatus (String_ callerName ++ " is calling...") c.

(** [connectionRef.current.setRemoteDescription(...)] and
    [connectionRef.current.addIceCandidate(...)]. *)
Definition setRemoteDescription (d : jsval) (c : Client) : Client :=
  match connectionRef (refs c) with
  | ConnPeer p =>
      emit (RemoteDescriptionSet d)
        (set_connectionRef
           (ConnPeer
              {| onconnectionstatechange_set := onconnectionstatechange_set p;
                 oniceconnectionstatechange_set := oniceconnectionstatechange_set p;
                 onicegatheringstatechange_set := onicegatheringstatechange_set p;
                 ontrack_set := ontrack_set p;
                 onicecandidate_set := onicecandidate_set p;
                 closed := closed p; remoteDescription := Some d;
                 iceCandidates := iceCandidates p |}) c)
  | _ => c
  end.

Definition addIceCandidate (cand : jsval) (c : Client) : Client :=
  match connectionRef (refs c) with
  | ConnPeer p =>
      emit (IceCandidateAdded cand)
        (set_connectionRef
           (ConnPeer
              {| onconnectionstatechange_set := onconnectionstatechange_set p;
                 oniceconnectionstatechange_set := oniceconnectionstatechange_set p;
                 onicegatheringstatechange_set := onicegatheringstatechange_set p;
                 ontrack_set := ontrack_set p;
                 onicecandidate_set := onicecandidate_set p;
                 closed := closed p; remoteDescription := remoteDescription p;
                 iceCandidates := iceCandidates p ++ [cand] |}) c)
  | _ => c
  end.

(** The [call_accepted] branch; [answer] is [data.signal] in [onmessage]
    and [signal.data] in [pollCalls]. *)
Definition on_call_accepted (c : Client) (answer : jsval) : Client :=
  let c := setCallStatus "Call in progress" c in
  if conn_truthy (connectionRef (refs c)) then setRemoteDescription answer c
  else c.

(** The [ice_candidate] branch; [cand] is [data.candidate] in [onmessage]
    and [signal.data] in [pollCalls].  What the platform raises inside the
    [try] is caught there. *)
Definition malformed_candidate (cand : jsval) : bool :=
  negb (truthy (get cand "candidate")) && negb (truthy (get cand "sdpMid"))
  && strict_eq (get cand "sdpMLineIndex") VUndef.

(** [new RTCIceCandidate(init)] raises a [TypeError] when [init] is not an
    object, and when the [sdpMid] and the [sdpMLineIndex] of [init] are both
    [null] or missing. *)
Definition RTCIceCandidate_raises (init : jsval) : bool :=
  match init with
  | VObj _ => nullish (get init "sdpMid") && nullish (get init "sdpMLineIndex")
  | _ => true
  end.

(** [try { connectionRef.current.addIceCandidate(new RTCIceCandidate(cand)) }
    catch (err) { console.error(...) }]: when the constructor raises, nothing
    is handed to the connection. *)
Definition on_ice_candidate (c : Client) (cand : jsval) : Client :=
  if conn_truthy (connectionRef (refs c)) && truthy cand then
    if strict_eq cand VNull || strict_eq cand VUndef then c
    else if malformed_candidate cand then c
    else if RTCIceCandidate_raises cand then c
    else addIceCandidate cand c
  else c.

(** The [end_call] branch, the same in both handlers. *)
Definition on_end_call (cap : View) (c : Client) : Client :=
  let isCurrentlyCaller := callActive cap && negb (receivingCall cap) in
  let isCurrentlyReceiver := receivingCall cap && negb (callActive cap) in
  let c := set_callEndedIntentionallyRef true c in
  let c := emit FlagSet c in
  let c := setShowCallEnding true c in
  let statusMessage :=
    if isCurrentlyReceiver && negb (callActive cap)
    then "Call declined by caller"
    else "Call ended by other party" in
  let c := setCallStatus statusMessage c in
  let c := remove_handlers c in
  endCallCleanup cap statusMessage c.

Definition type_is (type : jsval) (name : string) : bool :=
  strict_eq type (VStr name).

(** [eventSource.onmessage], from [const data = JSON.parse(event.data)] on.
    The [receive_message] branch works on the message list only. *)
Definition onmessage (cap : View) (c : Client) (data : jsval) : Client :=
  let type := get data "type" in
  if type_is type "receive_message" then c
  else if type_is type "call_user" then
    on_call_user cap c (get data "from") (get data "name") (get data "signal")
  else if type_is type "call_accepted" then
    on_call_accepted c (get data "signal")
  else if type_is type "ice_candidate" then
    on_ice_candidate c (get data "candidate")
  else if type_is type "end_call" then on_end_call cap c
  else c.

(** The body of [signals.forEach(signal => ...)] in [pollCalls]; a signal
    arrives as the server queued it, with its [type] and [data]. *)
Definition poll_signal (cap : View) (c : Client) (signal : Server.Signal)
  : Client :=
  let type := VStr (Server.sig_type signal) in
  let data := Server.sig_data signal in
  if type_is type "call_user" then
    on_call_user cap c (get data "from") (get data "name") (get data "signal")
  else if type_is type "call_accepted" then on_call_accepted c data
  else if type_is type "ice_candidate" then on_ice_candidate c data
  else if type_is type "end_call" then on_end_call cap c
  else c.

Definition pollCalls (cap : View) (c : Client) (signals : list Server.Signal)
  : Client :=
  foldl (poll_signal cap) c signals.

(** *** User actions: [callUser], [answerCall], [leaveCall] *)

(** [navigator.mediaDevices.getUserMedia] resolves with stream [s]:
    [setLocalStream(stream)], a peer connection with its handlers, and
    [connectionRef.current = peer]. *)
Definition got_media (s : nat) (c : Client) : Client :=
  let c :=
    {| st := st c; refs := refs c; effect_view := effect_view c;
       live_streams := live_streams c ++ [s];
       timeouts := timeouts c; log := log c |} in
  let c := setLocalStream (Some s) c in
  set_connectionRef (ConnPeer new_peer) c.

(** [callUser(videoEnabled)], up to the call of [getUserMedia]. *)
Definition callUser (cap : View) (videoEnabled : bool) (c : Client) : Client :=
  if negb (truthy (selectedUser cap)) then c
  else
    let targetUserId :=
      or_ (get (selectedUser cap) "_id") (get (selectedUser cap) "id") in
    let c := set_callTargetRef targetUserId c in
    let c := setIsVideoCall videoEnabled c in
    let c := setCallActive true c in
    setCallStatus
      ("Calling " ++ String_ (get (selectedUser cap) "username") ++ "...") c.

(** [answerCall()], up to the call of [getUserMedia]. *)
Definition answerCall (cap : View) (c : Client) : Client :=
  let videoCall := truthy (or_ (get (callerSignal cap) "isVideo") (VBool false)) in
  let c := setIsVideoCall videoCall c in
  let c := set_callActiveRef true c in
  let c := set_receivingCallRef false c in
  let c := setCallActive true c in
  let c := setReceivingCall false c in
  setCallStatus "Call in progress" c.

(** [answerCall]'s continuation once the media is there:
    [peer.setRemoteDescription(new RTCSessionDescription(callerSignal))]. *)
Definition answer_got_media (cap : View) (s : nat) (c : Client) : Client :=
  setRemoteDescription (callerSignal cap) (got_media s c).

(** [callTargetRef.current || selectedUser?._id || selectedUser?.id ||
    caller]. *)
Definition otherId (cap : View) (c : Client) : jsval :=
  or_ (or_ (or_ (callTargetRef (refs c)) (get (selectedUser cap) "_id"))
           (get (selectedUser cap) "id"))
      (caller cap).

Definition leaveCall (cap : View) (c : Client) : Client :=
  let other := otherId cap c in
  let isReceiver := receivingCall cap && negb (callActive cap) in
  let c := if truthy other then emit (PostEndCall other) c else c in
  let statusMessage := if isReceiver then "Call declined" else "Call ended" in
  endCallCleanup cap statusMessage c.

(** *** The session: which view each closure holds *)

(** The transport handlers keep the view of the render after which their
    effects ran.  The buttons ([onClick={answerCall}], [onClick={leaveCall}],
    [onClick={() => callUser(...)}], App.jsx:2353-2443) get the functions of
    the current render, which read the current state. *)
Definition receive_sse (c : Client) (data : jsval) : Client :=
  onmessage (effect_view c) c data.

Definition receive_poll (c : Client) (signals : list Server.Signal) : Client :=
  pollCalls (effect_view c) c signals.

Definition click_call (videoEnabled : bool) (c : Client) : Client :=
  callUser (st c) videoEnabled c.

Definition click_answer (c : Client) : Client := answerCall (st c) c.

Definition click_leave (c : Client) : Client := leaveCall (st c) c.

(** The [catch] branches of [callUser] and [answerCall]: [getUserMedia]
    was rejected, or the post of the offer or of the answer failed.  Each
    runs [endCallCleanup()] of the render whose button was clicked. *)
Definition call_failed (cap : View) (c : Client) : Client :=
  endCallCleanup cap EmptyString c.

(** *** The message list *)

(** [formattedMessage] of the [receive_message] branch of [onmessage];
    [nowISO] is [new Date().toISOString()]. *)
Definition formattedMessage (newMessage nowISO : jsval) : jsval :=
  let sender := get newMessage "sender" in
  VObj [("_id", or_ (get newMessage "_id") (get newMessage "id"));
        ("id", or_ (get newMessage "id") (get newMessage "_id"));
        ("sender",
         or_ sender
           (VObj [("_id", or_ (get newMessage "sender_id") (get sender "_id"));
                  ("id", or_ (get newMessage "sender_id") (get sender "id"));
                  ("username",
                   or_ (get sender "username") (get newMessage "sender_username"));
                  ("nickname",
                   or_ (get sender "nickname") (get newMessage "sender_nickname"));
                  ("avatar",
                   or_ (get sender "avatar") (get newMessage "sender_avatar"))]));
        ("recipient",
         or_ (get newMessage "recipient") (get newMessage "recipient_id"));
        ("recipient_id",
         or_ (get newMessage "recipient_id") (get newMessage "recipient"));
        ("groupId", or_ (get newMessage "groupId") (get newMessage "group_id"));
        ("group_id", or_ (get newMessage "group_id") (get newMessage "groupId"));
        ("content", or_ (get newMessage "content") (VStr EmptyString));
        ("type", or_ (get newMessage "type") (VStr "text"));
        ("fileUrl", or_ (get newMessage "fileUrl") (VStr EmptyString));
        ("timestamp", or_ (get newMessage "timestamp") nowISO)].

(** [String(m._id || m.id)], the identity of a message in the list. *)
Definition message_key (m : jsval) : string :=
  String_ (or_ (get m "_id") (get m "id")).

(** The updater given to [setMessages] in the [receive_message] branch.
    [sort] is [updated.sort((a, b) => timeA - timeB)], whose order depends
    on how the platform reads the timestamps as dates. *)
Definition add_message (sort : list jsval -> list jsval)
    (prev : list jsval) (fm : jsval) : list jsval :=
  if existsb (fun m => bool_decide (message_key m = message_key fm)) prev
  then prev
  else sort (prev ++ [fm]).

(** The [receive_message] branch of [onmessage], on the message list. *)
Definition on_receive_message (sort : list jsval -> list jsval)
    (nowISO : jsval) (prev : list jsval) (data : jsval) : list jsval :=
  let newMessage := or_ (get data "message") (get data "data") in
  if truthy newMessage
  then add_message sort prev (formattedMessage newMessage nowISO)
  else prev.

(** The updater of the fetch effect: a [Map] from key to message, filled
    with the list, then with the fetched messages whose key is new, read
    back in insertion order and sorted. *)
Fixpoint map_set (k : string) (v : jsval) (m : list (string * jsval))
  : list (string * jsval) :=
  match m with
  | [] => [(k, v)]
  | (k', v') :: m' =>
      if bool_decide (k' = k) then (k, v) :: m' else (k', v') :: map_set k v m'
  end.

Definition map_has (k : string) (m : list (string * jsval)) : bool :=
  existsb (fun kv => bool_decide (kv.1 = k)) m.

Definition merge_fetched (sort : list jsval -> list jsval)
    (prev fetched : list jsval) : list jsval :=
  let existingMap :=
    foldl (fun m msg => map_set (message_key msg) msg m) [] prev in
  let existingMap :=
    foldl (fun m msg =>
             if map_has (message_key msg) m then m
             else map_set (message_key msg) msg m)
          existingMap fetched in
  sort (map snd existingMap).

(** [pollMessages]: [lastMessageId] lives in the effect, [messages] is the
    list; [fetched] is [response.data || []]. *)
Record MessagePoll : Type := mkMessagePoll {
  lastMessageId : jsval;
  messages : list jsval
}.

Definition pollMessages (p : MessagePoll) (fetched : list jsval)
  : MessagePoll :=
  match last fetched with
  | None => p
  | Some latestMessage =>
      let latestId := or_ (get latestMessage "id") (get latestMessage "_id") in
      let messages' :=
        if truthy (lastMessageId p)
           && negb (strict_eq latestId (lastMessageId p))
        then
          if existsb
               (fun m => strict_eq (or_ (get m "id") (get m "_id")) latestId)
               (messages p)
          then messages p
          else messages p ++ [latestMessage]
        else messages p in
      {| lastMessageId := latestId; messages := messages' |}
  end.

End Client.

(* ================================================================== *)
(** ** Vocabulary of the statements *)
(* ================================================================== *)

Import JS Server Client.

(** What a queued signal carries, apart from its read marks. *)
Definition payload (s : Signal) : string * jsval * Z :=
  (sig_type s, sig_data s, timestamp s).

(** The queue of a user, empty when the key is not there yet. *)
Definition queue_of (st : State) (userId : jsval) : list Signal :=
  default [] (callSignals st !! String_ userId).

(** Signals enqueued for one user, one after the other: each is a type, a
    payload and the time of its [addCallSignal]. *)
Definition enqueue_all (st : State) (userId : jsval)
    (adds : list (string * jsval * Z)) : State :=
  foldl (fun acc a => addCallSignal acc a.2 userId a.1.1 a.1.2) st adds.

(** A signal queued at [now] is on offer to the next poll of [target]: the
    poll returns it when it comes less than 60 s after [now] and fewer than
    50 signals were queued for [target] in between. *)
Definition on_offer (st : State) (target : jsval) (now : Z) (type : string)
    (data : jsval) : Prop :=
  ∀ adds now2, (length adds < 50)%nat → now2 - now < SIGNAL_TTL →
    ∃ s, s ∈ (getCallSignals (enqueue_all st target adds) now2 target).1
       ∧ payload s = (type, data, now).

(** [Number.isSafeInteger(n)]: the integers that a number holds exactly
    and that [String] prints as a decimal numeral. *)
Definition safe_integer (n : Z) : Prop :=
  - 9007199254740991 ≤ n ≤ 9007199254740991.

(** The signal that [addCallSignal] appends. *)
Definition new_signal (type : string) (data : jsval) (now : Z) : Signal :=
  {| sig_type := type; sig_data := data; timestamp := now;
     read := false; readAt := None |}.

(** No queue holds more than 50 signals. *)
Definition queues_bounded (st : State) : Prop :=
  ∀ key q, callSignals st !! key = Some q → (length q ≤ 50)%nat.

(** The state after the frames [fs] were written. *)
Definition written (st : State) (fs : list (conn * jsval)) : State :=
  {| clients := clients st; callSignals := callSignals st;
     broken := broken st; wire := wire st ++ fs |}.

(** One copy of [frame] for each of the ids that has a registration, in the
    order of the ids. *)
Definition deliveries (st : State) (ids : list Z) (frame : jsval)
  : list (conn * jsval) :=
  omap (fun n => (fun c => (c, frame)) <$> clients st !! pretty n) ids.

(** What both loops of the merge keep true of the map, [seen] being the
    messages handled so far. *)
Definition merge_inv (m : list (string * jsval)) (seen : list jsval) : Prop :=
  NoDup m.*1
  ∧ (∀ k v, (k, v) ∈ m → message_key v = k ∧ v ∈ seen)
  ∧ (∀ x, x ∈ seen → message_key x ∈ m.*1).


(** The event the [/api/calls/initiate] handler builds. *)
Definition call_user_data (callerId : jsval) (body : jsval) : jsval :=
  VObj [("from", toInt callerId);
        ("signal",
         spread_set (get body "signalData") "isVideo"
                    (or_ (get body "isVideo") (VBool false)));
        ("name", or_ (get body "fromUsername") (VStr "Someone"))].

(** The time of the latest call of [updatePollInterval], [n] ms into an
    effect that ran at [t0]: the effect body calls it at [t0], the check
    timer every 1000 ms from then on. *)
Definition last_update (t0 : Z) (n : nat) : Z :=
  t0 + 1000 * (Z.of_nat n / 1000).

(** The session after [ResetCall] ran is idle. *)
Definition idle (c : Client) : Prop :=
  callActive (st c) = false ∧ receivingCall (st c) = false
  ∧ caller (st c) = VNull ∧ callStatus (st c) = EmptyString
  ∧ showCallEnding (st c) = false
  ∧ callActiveRef (refs c) = false ∧ receivingCallRef (refs c) = false
  ∧ callEndedIntentionallyRef (refs c) = false
  ∧ callTargetRef (refs c) = VNull.

(** What [endCallCleanup] with a status message logs, in order. *)
Definition cleanup_log (cap : View) (r : connref) : list effect :=
  [FlagSet]
  ++ (if conn_truthy r then [HandlersDetached] else [])
  ++ match localStream cap with Some s => [TracksStopped s] | None => [] end
  ++ [MediaElementsCleared]
  ++ (if conn_truthy r then [PeerClosed] else [])
  ++ [TimeoutSet 3000 ResetCall].

(** The request body of a call offer, and the offer as the relay passes it
    on. *)
Definition initiate_body (to : Z) (sdp name : string) : jsval :=
  VObj [("token", VStr "t"); ("userToCall", VNum to);
        ("signalData", VObj [("type", VStr "offer"); ("sdp", VStr sdp)]);
        ("fromUsername", VStr name)].

Definition offer_of (sdp : string) : jsval :=
  VObj [("type", VStr "offer"); ("sdp", VStr sdp); ("isVideo", VBool false)].

(* ================================================================== *)
(** * Properties *)
(* ================================================================== *)

(** ** Signal queue and dispatcher *)

Section Queue.

Implicit Types (st : State) (s : Signal) (q : list Signal) (now : Z).

Lemma mark_read_payload now s : payload (mark_read now s) = payload s.
Proof. unfold mark_read. destruct (_ && _); reflexivity. Qed.

Lemma mark_read_read s now :
  read (mark_read now s) = read s || (now - timestamp s <? MAX_AGE_FOR_READ).
Proof.
  unfold mark_read.
  destruct (read s) eqn:Hr, (_ <? _); simpl; rewrite ?Hr; reflexivity.
Qed.

Lemma sendEvent_callSignals st uid type data :
  callSignals (sendEvent st uid type data).2 = callSignals st.
Proof.
  unfold sendEvent. destruct (find_client _ _) as [[k target]|]; [|done].
  by case_bool_decide.
Qed.

Lemma slice_last_keeps_last {A} (n : nat) (l : list A) (x : A) :
  x ∈ slice_last (S n) (l ++ [x]).
Proof.
  unfold slice_last. rewrite length_app. simpl.
  rewrite drop_app_le by lia.
  apply elem_of_app. right. set_solver.
Qed.

Lemma addCallSignal_lookup st now userId type data :
  ∃ q, callSignals (addCallSignal st now userId type data) !! String_ userId
       = Some q
    ∧ {| sig_type := type; sig_data := data; timestamp := now;
         read := false; readAt := None |} ∈ q.
Proof.
  unfold addCallSignal. simpl. rewrite lookup_insert_eq. eexists. split; [done|].
  destruct (50 <? _).
  - apply (slice_last_keeps_last 49).
  - apply elem_of_app. right. set_solver.
Qed.

Lemma addCallSignal_after_sendEvent st now target type data ty' d' :
  callSignals (addCallSignal (sendEvent st target ty' d').2 now target type data)
  = callSignals (addCallSignal st now target type data).
Proof. unfold addCallSignal. simpl. by rewrite sendEvent_callSignals. Qed.

(** The queue after [addCallSignal], in terms of the queue before. *)
Lemma queue_of_addCallSignal_eq st now userId type data :
  let q1 := queue_of st userId
            ++ [{| sig_type := type; sig_data := data; timestamp := now;
                   read := false; readAt := None |}] in
  queue_of (addCallSignal st now userId type data) userId
  = if 50 <? Z.of_nat (length q1) then slice_last 50 q1 else q1.
Proof.
  unfold queue_of at 2, addCallSignal. simpl. rewrite lookup_insert_eq.
  reflexivity.
Qed.

(** A signal stays in the queue while fewer than 50 came after it. *)
Lemma enqueue_all_keeps st target adds s pre new :
  queue_of st target = pre ++ s :: new →
  (length new + length adds < 50)%nat →
  s ∈ queue_of (enqueue_all st target adds) target.
Proof.
  revert st pre new. induction adds as [|a adds IH]; intros st pre new Hq Hlen.
  - cbn. rewrite Hq. apply elem_of_app. right. left.
  - cbn [enqueue_all foldl]. fold (enqueue_all (addCallSignal st a.2 target a.1.1 a.1.2) target adds).
    pose proof (queue_of_addCallSignal_eq st a.2 target a.1.1 a.1.2) as Hq1.
    cbn zeta in Hq1. rewrite Hq in Hq1.
    set (x := {| sig_type := a.1.1; sig_data := a.1.2; timestamp := a.2;
                 read := false; readAt := None |}) in *.
    cbn [length] in Hlen.
    assert (Hshape : ∃ pre', queue_of (addCallSignal st a.2 target a.1.1 a.1.2) target
                             = pre' ++ s :: (new ++ [x])).
    { rewrite Hq1. clear Hq1. rewrite <- app_assoc. cbn [app].
      destruct (50 <? _).
      - unfold slice_last. rewrite drop_app_le.
        + eexists. reflexivity.
        + rewrite length_app. cbn [length]. rewrite length_app. cbn [length]. lia.
      - eexists. reflexivity. }
    destruct Hshape as [pre' Hq'].
    apply (IH _ pre' (new ++ [x]) Hq').
    rewrite length_app. cbn [length]. lia.
Qed.

Lemma addCallSignal_on_offer st now target type data :
  on_offer (addCallSignal st now target type data) target now type data.
Proof.
  intros adds now2 Hadds Hlt.
  set (e := {| sig_type := type; sig_data := data; timestamp := now;
               read := false; readAt := None |}).
  assert (Hin : e ∈ queue_of
                  (enqueue_all (addCallSignal st now target type data) target adds)
                  target).
  { pose proof (queue_of_addCallSignal_eq st now target type data) as Hq.
    cbn zeta in Hq. fold e in Hq.
    assert (Hshape : ∃ pre, queue_of (addCallSignal st now target type data) target
                            = pre ++ e :: []).
    { rewrite Hq. clear Hq. destruct (50 <? _).
      - unfold slice_last. rewrite drop_app_le.
        + eexists. reflexivity.
        + rewrite length_app. cbn [length]. lia.
      - eexists. reflexivity. }
    destruct Hshape as [pre Hpre].
    apply (enqueue_all_keeps _ target adds e pre [] Hpre). cbn [length]. lia. }
  exists (mark_read now2 e). split; [|apply mark_read_payload].
  unfold getCallSignals. unfold queue_of in Hin.
  destruct (callSignals _ !! String_ target) as [q|]; cbn [default] in Hin;
    [|by apply elem_of_nil in Hin].
  cbn [fst]. apply list_elem_of_fmap. exists e. split; [reflexivity|].
  apply list_elem_of_In, filter_In. split; [|reflexivity].
  apply filter_In. split; [apply list_elem_of_In, Hin|].
  unfold fresh. cbn. apply Z.ltb_lt, Hlt.
Qed.

Lemma addCallSignal_callSignals_ext st st' now userId type data :
  callSignals st = callSignals st' →
  callSignals (addCallSignal st now userId type data)
  = callSignals (addCallSignal st' now userId type data).
Proof. intros Heq. unfold addCallSignal. cbn. by rewrite Heq. Qed.

Lemma enqueue_all_callSignals_ext st st' target adds :
  callSignals st = callSignals st' →
  callSignals (enqueue_all st target adds)
  = callSignals (enqueue_all st' target adds).
Proof.
  revert st st'. induction adds as [|a adds IH]; intros st st' Heq; [done|].
  cbn [enqueue_all foldl]. apply IH. by apply addCallSignal_callSignals_ext.
Qed.

Lemma on_offer_ext st st' target now type data :
  callSignals st = callSignals st' →
  on_offer st target now type data → on_offer st' target now type data.
Proof.
  intros Heq H adds now2 Hadds Hlt.
  destruct (H adds now2 Hadds Hlt) as (s & Hs & Hp).
  exists s. split; [|done].
  revert Hs. unfold getCallSignals.
  rewrite (enqueue_all_callSignals_ext st st' target adds Heq).
  by destruct (callSignals _ !! _).
Qed.

Lemma message_dispatch_callSignals st groupIdInt g_members r sd msg :
  callSignals (message_dispatch st groupIdInt g_members r sd msg)
  = callSignals st.
Proof.
  unfold message_dispatch. destruct (truthy groupIdInt).
  - destruct g_members as [members|]; [|done].
    revert st. induction members as [|m ms IH]; intros st; [done|].
    simpl. rewrite IH. apply sendEvent_callSignals.
  - destruct (truthy r); [|done].
    by rewrite !sendEvent_callSignals.
Qed.

End Queue.

Section Dispatch.

Implicit Types (st : State) (now : Z) (body : jsval).

(** C1 (as amended).  The dispatcher [sendEvent] only attempts the push and
    never touches the signal queue, so the events that go through a bare
    [sendEvent] (receive_message, friend_request, friend_accepted,
    group_created, group_deleted, and the [/api/signal] relay) are not
    queued.  The four call handlers (call_user, call_accepted, ice_candidate,
    end_call) add the event to the target's queue after the push attempt,
    whatever the registry holds and whatever the push did, and a poll by the
    target less than 60 s later returns it. *)
Theorem C1_call_signals_mirrored_to_queue :
  (∀ st uid type data,
     callSignals (sendEvent st uid type data).2 = callSignals st)
  ∧ (∀ st uid type data,
       callSignals (notify st uid type data) = callSignals st)
  ∧ (∀ st groupIdInt g_members recipientIdInt senderIdInt msg,
       callSignals
         (message_dispatch st groupIdInt g_members recipientIdInt senderIdInt msg)
       = callSignals st)
  ∧ (∀ st now callerId body,
       truthy (get body "token") = true →
       truthy (get body "userToCall") = true →
       truthy (get body "signalData") = true →
       let target := toInt (get body "userToCall") in
       let data := call_user_data callerId body in
       let st' := (calls_initiate st now (Some callerId) body).2 in
       callSignals st' = callSignals (addCallSignal st now target "call_user" data)
       ∧ on_offer st' target now "call_user" data)
  ∧ (∀ st now answererId body,
       truthy (get body "token") = true →
       truthy (get body "signal") = true →
       truthy (get body "to") = true →
       let target := toInt (get body "to") in
       let data := get body "signal" in
       let st' := (calls_answer st now (Some answererId) body).2 in
       callSignals st'
       = callSignals (addCallSignal st now target "call_accepted" data)
       ∧ on_offer st' target now "call_accepted" data)
  ∧ (∀ st now senderId body,
       truthy (get body "token") = true →
       truthy (get body "to") = true →
       truthy (get body "candidate") = true →
       invalid_candidate (validCandidate (get body "candidate")) = false →
       let target := toInt (get body "to") in
       let data := validCandidate (get body "candidate") in
       let st' := (calls_ice_candidate st now (Some senderId) body).2 in
       callSignals st'
       = callSignals (addCallSignal st now target "ice_candidate" data)
       ∧ on_offer st' target now "ice_candidate" data)
  ∧ (∀ st now senderId body,
       truthy (get body "token") = true →
       truthy (get body "to") = true →
       let target := toInt (get body "to") in
       let data := VObj [("from", toInt senderId)] in
       let st' := (calls_end st now (Some senderId) body).2 in
       callSignals st' = callSignals (addCallSignal st now target "end_call" data)
       ∧ on_offer st' target now "end_call" data).
Proof.
  split; [exact sendEvent_callSignals|].
  split; [intros; apply sendEvent_callSignals|].
  split; [exact message_dispatch_callSignals|].
  repeat split.
  - unfold calls_initiate. rewrite H, H0, H1. simpl.
    apply addCallSignal_after_sendEvent.
  - unfold calls_initiate. rewrite H, H0, H1. simpl.
    eapply on_offer_ext; [|apply addCallSignal_on_offer].
    symmetry. apply addCallSignal_after_sendEvent.
  - unfold calls_answer. rewrite H, H0, H1. simpl.
    apply addCallSignal_after_sendEvent.
  - unfold calls_answer. rewrite H, H0, H1. simpl.
    eapply on_offer_ext; [|apply addCallSignal_on_offer].
    symmetry. apply addCallSignal_after_sendEvent.
  - unfold calls_ice_candidate. rewrite H, H0, H1, H2. simpl.
    apply addCallSignal_after_sendEvent.
  - unfold calls_ice_candidate. rewrite H, H0, H1, H2. simpl.
    eapply on_offer_ext; [|apply addCallSignal_on_offer].
    symmetry. apply addCallSignal_after_sendEvent.
  - unfold calls_end. rewrite H, H0. simpl.
    apply addCallSignal_after_sendEvent.
  - unfold calls_end. rewrite H, H0. simpl.
    eapply on_offer_ext; [|apply addCallSignal_on_offer].
    symmetry. apply addCallSignal_after_sendEvent.
Qed.

End Dispatch.

(** User 1 ends a call with user 2, who has no push registration: a poll by
    user 2 one second later returns the event. *)
Lemma C1_end_call_polled :
  ∃ s, s ∈ (getCallSignals
              (calls_end empty_state 1000 (Some (VNum 1))
                 (VObj [("token", VStr "t"); ("to", VNum 2)])).2
              2000 (VNum 2)).1
     ∧ payload s = ("end_call", VObj [("from", VNum 1)], 1000).
Proof.
  destruct C1_call_signals_mirrored_to_queue as (_ & _ & _ & _ & _ & _ & Hend).
  destruct (Hend empty_state 1000 (VNum 1)
              (VObj [("token", VStr "t"); ("to", VNum 2)])
              eq_refl eq_refl) as [_ Hoffer].
  apply (Hoffer [] 2000); [cbn; lia | reflexivity].
Defined.

(** C1 fails as stated: user 1 sends a direct message to user 2, who has no
    push registration.  Nothing is written to any stream, nothing is queued,
    and the poll of user 2 at that very moment returns nothing. *)
Lemma C1_message_not_queued :
  let msg := VObj [("id", VNum 10); ("content", VStr "hi")] in
  let st := message_dispatch empty_state VNull None (VNum 2) (VNum 1) msg in
  wire st = [] ∧ callSignals st = ∅
  ∧ calls_poll st 1000 (Some (VNum 2)) = (200, [], (getCallSignals st 1000 (VNum 2)).2).
Proof. vm_compute. repeat split. Qed.

Section Drain.

Implicit Types (st : State) (s r : Signal) (q : list Signal) (now : Z).

Lemma elem_of_filter_bool {A} (f : A → bool) (l : list A) (x : A) :
  x ∈ List.filter f l ↔ x ∈ l ∧ f x = true.
Proof. rewrite !list_elem_of_In. apply filter_In. Qed.

(** [getCallSignals] in terms of the queue it finds. *)
Lemma getCallSignals_unfold st now userId :
  let q1 := List.filter (fresh now) (queue_of st userId) in
  (getCallSignals st now userId).1
  = map (mark_read now) (List.filter unread q1)
  ∧ callSignals (getCallSignals st now userId).2
    = <[String_ userId := List.filter (retained now) (map (mark_read now) q1)]>
        (callSignals st).
Proof.
  unfold getCallSignals, queue_of.
  destruct (callSignals st !! String_ userId) as [q|]; simpl; done.
Qed.

Lemma queue_of_getCallSignals st now userId :
  queue_of (getCallSignals st now userId).2 userId
  = List.filter (retained now)
      (map (mark_read now) (List.filter (fresh now) (queue_of st userId))).
Proof.
  destruct (getCallSignals_unfold st now userId) as [_ Hq].
  unfold queue_of at 1. rewrite Hq, lookup_insert_eq. done.
Qed.

(** After the sweep of a poll every signal left is read. *)
Lemma retained_mark_read_is_read now s :
  retained now (mark_read now s) = true → read (mark_read now s) = true.
Proof.
  unfold retained, mark_read, CLEAR_AGE, MAX_AGE_FOR_READ.
  destruct (read s) eqn:Hr; simpl; [by rewrite Hr|].
  destruct (now - timestamp s <? 30000) eqn:Hage; simpl; [done|].
  rewrite Hr, Hage. done.
Qed.

Lemma drained_queue_all_read st now userId s :
  s ∈ queue_of (getCallSignals st now userId).2 userId →
  read s = true
  ∧ now - readAt_or_timestamp s < READ_CLEAR_AGE
  ∧ now - timestamp s < SIGNAL_TTL.
Proof.
  rewrite queue_of_getCallSignals.
  intros [Hin Hret]%elem_of_filter_bool.
  apply list_elem_of_fmap in Hin as (s0 & -> & Hin0).
  apply elem_of_filter_bool in Hin0 as [_ Hfresh].
  pose proof (retained_mark_read_is_read now s0 Hret) as Hread.
  split; [done|]. split.
  - unfold retained in Hret. rewrite Hread in Hret. by apply Z.ltb_lt.
  - unfold fresh in Hfresh. apply Z.ltb_lt in Hfresh.
    assert (Ht : timestamp (mark_read now s0) = timestamp s0)
      by (pose proof (mark_read_payload now s0) as Hp;
          unfold payload in Hp; congruence).
    by rewrite Ht.
Qed.


End Drain.


Section DrainTwice.

Implicit Types (st : State) (s r : Signal) (q : list Signal) (now : Z).

Lemma queue_of_addCallSignal st now userId type data :
  queue_of (addCallSignal st now userId type data) userId
  ⊆ queue_of st userId
    ++ [{| sig_type := type; sig_data := data; timestamp := now;
           read := false; readAt := None |}].
Proof.
  unfold queue_of at 1, addCallSignal. simpl. rewrite lookup_insert_eq. simpl.
  fold (queue_of st userId).
  destruct (50 <? _); [apply subseteq_drop | done].
Qed.

(** Between two polls the queue holds read signals and the new ones. *)
Lemma queue_of_enqueue_all st userId adds s :
  s ∈ queue_of (enqueue_all st userId adds) userId →
  s ∈ queue_of st userId ∨ (read s = false ∧ payload s ∈ adds).
Proof.
  induction adds as [|a adds IH] using rev_ind; [by left|].
  unfold enqueue_all. rewrite foldl_snoc. fold (enqueue_all st userId adds).
  intros Hs%queue_of_addCallSignal.
  apply elem_of_app in Hs as [Hs|Hs].
  - destruct (IH Hs) as [?|[? ?]]; [by left|right].
    split; [done|]. apply elem_of_app. by left.
  - apply list_elem_of_singleton in Hs as ->. right. split; [done|].
    apply elem_of_app. right. destruct a as [[ty d] t]. set_solver.
Qed.

(** C3 (as amended).  A poll returns exactly the polling user's unread
    signals younger than 60 s, in queue order.  It marks read, with the
    current time, those of them younger than 30 s; those between 30 s and
    60 s old are returned unmarked and removed by the sweep.  Either way no
    unread signal is left, so a second poll returns none of them: what it
    returns was enqueued in between.  A signal the second poll leaves in the
    queue was read less than 10 s before it. *)
Theorem C3_drain_marks_young_signals st now userId :
  let ret := (getCallSignals st now userId).1 in
  let st' := (getCallSignals st now userId).2 in
  map payload ret
  = map payload
      (List.filter (fun s => unread s && fresh now s) (queue_of st userId))
  ∧ (∀ r, r ∈ ret →
       if now - timestamp r <? 30000
       then read r = true ∧ readAt r = Some now
       else read r = false)
  ∧ (∀ now2, (getCallSignals st' now2 userId).1 = [])
  ∧ (∀ adds now2 r,
       r ∈ (getCallSignals (enqueue_all st' userId adds) now2 userId).1 →
       payload r ∈ adds)
  ∧ (∀ adds now2 s,
       s ∈ queue_of
             (getCallSignals (enqueue_all st' userId adds) now2 userId).2 userId →
       read s = true ∧ now2 - readAt_or_timestamp s < 10000).
Proof.
  intros ret st'. subst ret st'.
  destruct (getCallSignals_unfold st now userId) as [Hret Hq]. simpl in *.
  split; [|split; [|split; [|split]]].
  - rewrite Hret. generalize (queue_of st userId) as q.
    induction q as [|s q IH]; [done|]. simpl.
    destruct (fresh now s) eqn:Hf; simpl.
    + destruct (unread s); simpl; [|done].
      by rewrite mark_read_payload, IH.
    + by rewrite andb_false_r.
  - intros r Hr. rewrite Hret in Hr.
    apply list_elem_of_fmap in Hr as (s & -> & Hs).
    apply elem_of_filter_bool in Hs as [_ Hun].
    unfold unread in Hun. unfold mark_read, MAX_AGE_FOR_READ.
    destruct (read s) eqn:Hr; [done|]. simpl.
    destruct (now - timestamp s <? 30000) eqn:Hage; simpl.
    + by rewrite Hage.
    + by rewrite Hage.
  - intros now2. clear Hret Hq.
    destruct (getCallSignals_unfold (getCallSignals st now userId).2 now2 userId)
      as [Hret2 _]. simpl in Hret2. rewrite Hret2.
    destruct (List.filter unread _) as [|s l] eqn:Hl; [reflexivity|].
    assert (Hs : s ∈ List.filter unread
                   (List.filter (fresh now2)
                      (queue_of (getCallSignals st now userId).2 userId)))
      by (rewrite Hl; left).
    apply elem_of_filter_bool in Hs as [Hs Hun].
    apply elem_of_filter_bool in Hs as [Hs _].
    apply drained_queue_all_read in Hs as [Hread _].
    unfold unread in Hun. by rewrite Hread in Hun.
  - intros adds now2 r Hr.
    destruct (getCallSignals_unfold
                (enqueue_all (getCallSignals st now userId).2 userId adds)
                now2 userId) as [Hret2 _].
    simpl in Hret2. rewrite Hret2 in Hr.
    apply list_elem_of_fmap in Hr as (s & -> & Hs).
    apply elem_of_filter_bool in Hs as [Hs Hun].
    apply elem_of_filter_bool in Hs as [Hs _].
    rewrite mark_read_payload.
    apply queue_of_enqueue_all in Hs as [Hs|[_ Hs]]; [|done].
    apply drained_queue_all_read in Hs as [Hread _].
    unfold unread in Hun. by rewrite Hread in Hun.
  - intros adds now2 s Hs.
    by apply drained_queue_all_read in Hs as (? & ? & ?).
Qed.

End DrainTwice.

(** User 2 polls at 1500 a signal queued at 1000, another signal is queued
    at 1800, and user 2 polls again at 2000: the signal the second poll
    returns is the one queued in between. *)
Lemma C3_second_poll_returns_new_signal_only :
  let st := addCallSignal empty_state 1000 (VNum 2) "call_user"
              (VObj [("from", VNum 1)]) in
  let st' := (getCallSignals st 1500 (VNum 2)).2 in
  let adds := [("end_call", VObj [("from", VNum 1)], 1800)] in
  let r := {| sig_type := "end_call"; sig_data := VObj [("from", VNum 1)];
              timestamp := 1800; read := true; readAt := Some 2000 |} in
  (getCallSignals (enqueue_all st' (VNum 2) adds) 2000 (VNum 2)).1 = [r]
  ∧ payload r ∈ adds.
Proof.
  intros st st' adds r.
  destruct (C3_drain_marks_young_signals st 1500 (VNum 2))
    as (_ & _ & _ & H & _).
  split; [vm_compute; reflexivity|].
  apply (H adds 2000 r). vm_compute. left.
Defined.

(** C3 fails as stated: a signal enqueued at time 0 and first polled 40 s
    later is returned, and is returned unread, without a [readAt]; the sweep
    of that same poll drops it. *)
Lemma C3_old_signal_returned_unmarked :
  let st := addCallSignal empty_state 0 (VNum 2) "end_call"
              (VObj [("from", VNum 1)]) in
  (getCallSignals st 40000 (VNum 2)).1
  = [{| sig_type := "end_call"; sig_data := VObj [("from", VNum 1)];
        timestamp := 0; read := false; readAt := None |}]
  ∧ queue_of (getCallSignals st 40000 (VNum 2)).2 (VNum 2) = [].
Proof. vm_compute. split; reflexivity. Qed.

(** ** Push registry *)

Section Registry.

Implicit Types (st : State) (cl : gmap string conn) (keys : list jsval).

Lemma strict_eq_refl_str (x : string) : strict_eq (VStr x) (VStr x) = true.
Proof. simpl. by apply bool_decide_eq_true. Qed.

Lemma keysToTry_num (n : Z) :
  ∃ pre rest, keysToTry (VNum n) = pre ++ VNum n :: rest
            ∧ (pre = [] ∨ pre = [VStr (pretty n)]).
Proof.
  unfold keysToTry, keysToTry_raw. cbn [is_string String_].
  generalize (parseInt10 (pretty n)) as pn. intros pn.
  unfold filter_idx, indexOf. cbn [filter_idx_from indexOf_from].
  rewrite !strict_eq_refl_str.
  cbn [strict_eq negb andb isNaN].
  rewrite (Z.eqb_refl n).
  change (0 =? 0) with true. change (0 =? 0 + 1) with false.
  change (0 + 1 + 1 =? 0 + 1 + 1) with true.
  rewrite !andb_false_r, !andb_true_r.
  destruct (string_is_NaN (pretty n)); cbn [negb].
  - exists []. eexists. split; [reflexivity|]. by left.
  - exists [VStr (pretty n)]. eexists. split; [reflexivity|]. by right.
Qed.

Lemma find_client_app_first cl pre k rest c :
  (∀ k', k' ∈ pre → String_ k' = String_ k) →
  cl !! String_ k = Some c →
  ∃ key, find_client cl (pre ++ k :: rest) = Some (key, c) ∧ String_ key = String_ k.
Proof.
  intros Hpre Hc. induction pre as [|p pre IH]; simpl.
  - rewrite Hc. eauto.
  - rewrite (Hpre p) by left. rewrite Hc. exists p. split; [done|]. apply Hpre. left.
Qed.

Lemma delete_keys_lookup cl keys name :
  delete_keys cl keys !! name
  = if bool_decide (name ∈ String_ <$> keys) then None else cl !! name.
Proof.
  unfold delete_keys. revert cl. induction keys as [|k keys IH]; intros cl.
  - reflexivity.
  - cbn [foldl]. rewrite IH, fmap_cons.
    destruct (decide (name = String_ k)) as [->|Hne].
    + rewrite lookup_delete_eq.
      rewrite (bool_decide_true (String_ k ∈ String_ k :: _)) by left.
      by case_bool_decide.
    + rewrite lookup_delete_ne by done.
      case_bool_decide as H1; case_bool_decide as H2; try done.
      * exfalso. apply H2. by right.
      * exfalso. apply elem_of_cons in H2 as [?|?]; done.
Qed.

Lemma storedKeys_num n k : k ∈ storedKeys (VNum n) → String_ k = pretty n.
Proof.
  unfold storedKeys, toInt. cbn [is_string is_number isNaN negb String_].
  intros H. repeat (apply elem_of_cons in H as [->|H]; [reflexivity|]).
  repeat (apply elem_of_app in H as [H|H]);
  repeat (apply elem_of_cons in H as [->|H]; [reflexivity|]); by apply elem_of_nil in H.
Qed.

Lemma register_num_lookup st n (res : conn) :
  clients (register st (VNum n) res) !! pretty n = Some res.
Proof.
  unfold register, storedKeys, toInt.
  cbn [is_string is_number isNaN negb String_ app foldl set_clients clients].
  apply lookup_insert_eq.
Qed.

(** C9.  A push to a user goes to the first of the candidate keys that is
    registered.  When the write on that stream raises, [sendEvent] returns
    [false] and deletes every candidate key, which for a numeric user id
    covers every key the registration was stored under; no other key, no
    queue and no stream is touched.  When none of the candidate keys is
    registered, [sendEvent] returns [false] and the whole state, registry
    included, is as before.  A connection registered under a numeric id is
    the one a push to that id finds. *)
Theorem C9_push_failure_unregisters st uid type data :
  let res := sendEvent st uid type data in
  (∀ key target,
     find_client (clients st) (keysToTry uid) = Some (key, target) →
     target ∈ broken st →
     res.1 = false
     ∧ (∀ k, k ∈ keysToTry uid → clients res.2 !! String_ k = None)
     ∧ (∀ n k, uid = VNum n → k ∈ storedKeys uid →
          clients res.2 !! String_ k = None)
     ∧ (∀ name, name ∉ String_ <$> keysToTry uid →
          clients res.2 !! name = clients st !! name)
     ∧ callSignals res.2 = callSignals st ∧ wire res.2 = wire st)
  ∧ (find_client (clients st) (keysToTry uid) = None → res = (false, st))
  ∧ (∀ n target, uid = VNum n → clients st !! pretty n = Some target →
       ∃ key, find_client (clients st) (keysToTry uid) = Some (key, target)).
Proof.
  intros res. subst res. split; [|split].
  - intros key target Hfind Hbroken. unfold sendEvent. rewrite Hfind.
    rewrite bool_decide_true by done. cbn [fst snd set_clients clients].
    split; [done|]. split; [|split; [|split]].
    + intros k Hk. rewrite delete_keys_lookup.
      rewrite bool_decide_true; [done|]. by apply list_elem_of_fmap_2.
    + intros n k -> Hk. rewrite delete_keys_lookup.
      rewrite bool_decide_true; [done|].
      rewrite (storedKeys_num n k Hk).
      destruct (keysToTry_num n) as (pre & rest & -> & _).
      apply (list_elem_of_fmap_2 String_ _ (VNum n)).
      apply elem_of_app. right. left.
    + intros name Hname. rewrite delete_keys_lookup.
      by rewrite bool_decide_false.
    + done.
  - intros Hfind. unfold sendEvent. by rewrite Hfind.
  - intros n target -> Hreg.
    destruct (keysToTry_num n) as (pre & rest & -> & Hpre).
    destruct (find_client_app_first (clients st) pre (VNum n) rest target)
      as (key & Hkey & _); [|done|by exists key].
    intros k' Hk'. destruct Hpre as [->| ->].
    + by apply elem_of_nil in Hk'.
    + by apply list_elem_of_singleton in Hk' as ->.
Qed.

End Registry.

(** User 7 is registered on stream 1, whose writes raise: the push fails and
    the key of user 7 is gone. *)
Lemma C9_broken_stream_unregistered :
  let st := register
              {| clients := ∅; callSignals := ∅; broken := {[1%nat]}; wire := [] |}
              (VNum 7) 1%nat in
  let res := sendEvent st (VNum 7) "receive_message" (VObj [("id", VNum 10)]) in
  res.1 = false ∧ clients res.2 !! "7" = None.
Proof.
  intros st res.
  destruct (C9_push_failure_unregisters st (VNum 7) "receive_message"
              (VObj [("id", VNum 10)])) as [H _].
  destruct (H (VStr "7") 1%nat eq_refl) as (Hres & Hkeys & _).
  - vm_compute. reflexivity.
  - split; [exact Hres|]. apply (Hkeys (VNum 7)). vm_compute. right. left.
Defined.

(** ** Transport selector *)

Section Reconnect.

Implicit Types (s : Sse).

Lemma schedule_reconnect_exhausted s :
  5 ≤ reconnectAttempts s → schedule_reconnect s = s.
Proof.
  intros H. unfold schedule_reconnect, maxReconnectAttempts.
  destruct (reconnectAttempts s <? 5) eqn:Hlt; [|done].
  apply Z.ltb_lt in Hlt. lia.
Qed.

Lemma sse_run_exhausted s (k : nat) :
  5 ≤ reconnectAttempts s →
  sse_run s (repeat (SseError CLOSED) k) = s.
Proof.
  intros H. induction k as [|k IH]; [done|].
  unfold sse_run in *. simpl. by rewrite schedule_reconnect_exhausted.
Qed.

(** C4 (as amended).  On an error with the subscription closed the client
    schedules a reconnection while fewer than 5 attempts were made since the
    last successful open, after [min (1000 * 2^k) 30000] ms for attempt [k]:
    2 s, 4 s, 8 s, 16 s, then 30 s (the cap).  From the sixth error on
    nothing is scheduled and the state no longer changes.  An error in
    another ready state schedules nothing; an open resets the count. *)
Theorem C4_reconnect_backoff :
  (∀ s, reconnectAttempts s < 5 →
     let s' := onerror s CLOSED in
     let delay := Z.min (1000 * 2 ^ (reconnectAttempts s + 1)) 30000 in
     reconnectAttempts s' = reconnectAttempts s + 1
     ∧ reconnectTimeout s' = Some delay
     ∧ scheduled s' = scheduled s ++ [delay])
  ∧ (∀ s, 5 ≤ reconnectAttempts s → onerror s CLOSED = s)
  ∧ (∀ s rs, rs ≠ CLOSED → onerror s rs = s)
  ∧ (∀ n : nat,
       scheduled (sse_run sse_start (repeat (SseError CLOSED) n))
       = take n [2000; 4000; 8000; 16000; 30000])
  ∧ (∀ s, reconnectAttempts (onopen s) = 0
          ∧ reconnectTimeout (onerror (onopen s) CLOSED) = Some 2000).
Proof.
  split; [|split; [|split; [|split]]].
  - intros s Hlt. simpl. unfold schedule_reconnect, maxReconnectAttempts.
    apply Z.ltb_lt in Hlt. rewrite Hlt. done.
  - intros s H. by apply schedule_reconnect_exhausted.
  - intros s rs Hrs. by destruct rs.
  - intros n. destruct (decide (n ≤ 5)%nat) as [Hle|Hgt].
    + do 6 (destruct n as [|n]; [reflexivity|]). lia.
    + replace n with (5 + (n - 5))%nat by lia.
      rewrite repeat_app. unfold sse_run. rewrite foldl_app.
      fold (sse_run (foldl sse_step sse_start (repeat (SseError CLOSED) 5))
              (repeat (SseError CLOSED) (n - 5))).
      rewrite sse_run_exhausted by (vm_compute; congruence).
      rewrite take_ge by (simpl; lia). reflexivity.
  - intros s. split; reflexivity.
Qed.

End Reconnect.

(** After three failed attempts the next delay is 16 s. *)
Lemma C4_fourth_delay :
  reconnectTimeout
    (onerror {| reconnectAttempts := 3; reconnectTimeout := Some 8000;
                scheduled := [2000; 4000; 8000] |} CLOSED)
  = Some 16000.
Proof.
  destruct C4_reconnect_backoff as [H _].
  destruct (H {| reconnectAttempts := 3; reconnectTimeout := Some 8000;
                 scheduled := [2000; 4000; 8000] |}) as (_ & Hd & _).
  - reflexivity.
  - exact Hd.
Defined.

(** C4 fails as stated: the first reconnection is scheduled after 2 s, not
    after 1 s. *)
Lemma C4_first_delay_not_one_second :
  reconnectTimeout (onerror sse_start CLOSED) = Some 2000
  ∧ reconnectTimeout (onerror sse_start CLOSED) ≠ Some 1000.
Proof. split; [reflexivity | discriminate]. Qed.

Section Polling.

Variable check_first : bool.
Variable env : Z → bool * bool.
Variable t0 : Z.

Lemma fire_poll_keeps p :
  clock (fire_poll p) = clock p ∧ pollPeriod (fire_poll p) = pollPeriod p
  ∧ checkDue (fire_poll p) = checkDue p.
Proof. unfold fire_poll. by destruct (pollDue p =? clock p). Qed.

Lemma poll_run_invariant (n : nat) :
  let p := poll_run check_first env t0 n in
  clock p = t0 + Z.of_nat n
  ∧ checkDue p = last_update t0 n + 1000
  ∧ pollPeriod p
    = poll_interval (env (last_update t0 n)).1 (env (last_update t0 n)).2.
Proof.
  induction n as [|n IH].
  - unfold last_update. change (Z.of_nat 0 / 1000) with 0.
    replace (t0 + 1000 * 0) with t0 by lia.
    cbn. repeat split; lia.
  - destruct IH as (Hclock & Hcheck & Hperiod).
    cbn [poll_run]. set (p := poll_run check_first env t0 n) in *.
    set (refs := env (t0 + Z.of_nat (S n))).
    assert (Hdiv : Z.of_nat (S n) / 1000 = Z.of_nat n / 1000
                   ∧ Z.of_nat (S n) ≠ 1000 * (Z.of_nat n / 1000 + 1)
                   ∨ Z.of_nat (S n) / 1000 = Z.of_nat n / 1000 + 1
                   ∧ Z.of_nat (S n) = 1000 * (Z.of_nat n / 1000 + 1)).
    { rewrite Nat2Z.inj_succ. Z.to_euclidean_division_equations. lia. }
    unfold tick, fire_check, updatePollInterval, last_update in *.
    destruct check_first; cbn [clock checkDue pollPeriod pollDue polled].
    + destruct (fire_poll_keeps
                  (if checkDue p =? clock p + 1
                   then {| clock := clock p + 1;
                           pollPeriod := poll_interval refs.1 refs.2;
                           pollDue := clock p + 1 + poll_interval refs.1 refs.2;
                           checkDue := clock p + 1 + 1000;
                           polled := polled p |}
                   else {| clock := clock p + 1; pollPeriod := pollPeriod p;
                           pollDue := pollDue p; checkDue := checkDue p;
                           polled := polled p |}))
        as (-> & -> & ->).
      destruct (checkDue p =? clock p + 1) eqn:Hdue;
        cbn [clock checkDue pollPeriod];
        [apply Z.eqb_eq in Hdue | apply Z.eqb_neq in Hdue].
      * destruct Hdiv as [[_ Hne]|[Hq Heq]]; [lia|].
        rewrite Hq. subst refs. rewrite Heq.
        repeat split; lia.
      * destruct Hdiv as [[Hq _]|[_ Heq]]; [|lia].
        rewrite Hq. repeat split; [lia|lia|done].
    + destruct (fire_poll_keeps
                  {| clock := clock p + 1; pollPeriod := pollPeriod p;
                     pollDue := pollDue p; checkDue := checkDue p;
                     polled := polled p |}) as (Hc & Hp & Hk).
      cbn [clock checkDue pollPeriod] in Hc, Hp, Hk.
      rewrite Hk, Hc.
      destruct (checkDue p =? clock p + 1) eqn:Hdue;
        cbn [clock checkDue pollPeriod]; rewrite ?Hc, ?Hp, ?Hk;
        [apply Z.eqb_eq in Hdue | apply Z.eqb_neq in Hdue].
      * destruct Hdiv as [[_ Hne]|[Hq Heq]]; [lia|].
        rewrite Hq. subst refs. rewrite Heq.
        repeat split; lia.
      * destruct Hdiv as [[Hq _]|[_ Heq]]; [|lia].
        rewrite Hq. repeat split; [lia|lia|done].
Qed.

(** While call polling runs, the period last handed to [setInterval] is
    the one chosen at the latest call of [updatePollInterval]: 500 ms when
    [callActiveRef] or [receivingCallRef] was set at that moment, 2000 ms
    otherwise.  That call is less than 1000 ms old at any time.  This is
    about the argument of [setInterval] only, not about when [pollCalls]
    runs. *)
Lemma pollPeriod_follows_refs (n : nat) :
  let p := poll_run check_first env t0 n in
  let refs := env (last_update t0 n) in
  clock p = t0 + Z.of_nat n
  ∧ 0 ≤ clock p - last_update t0 n < 1000
  ∧ pollPeriod p = (if refs.1 || refs.2 then 500 else 2000)
  ∧ (∀ a r, (∀ t, clock p - 1000 < t ≤ clock p → env t = (a, r)) →
       pollPeriod p = (if a || r then 500 else 2000)).
Proof.
  intros p refs. subst p refs.
  destruct (poll_run_invariant n) as (Hclock & _ & Hperiod).
  assert (Hage : 0 ≤ t0 + Z.of_nat n - last_update t0 n < 1000).
  { unfold last_update. Z.to_euclidean_division_equations. lia. }
  split; [done|]. split; [by rewrite Hclock|]. split; [done|].
  intros a r Hconst. rewrite Hperiod.
  rewrite (Hconst (last_update t0 n)) by lia. done.
Qed.

(** With both refs unset throughout, every re-evaluation re-arms the poll
    timer 2000 ms ahead and the next one comes 1000 ms later: after the
    first call in the effect body, [pollCalls] is not called by the timer. *)
Lemma idle_poll_timer_rearmed_before_due (n : nat) :
  (∀ t, env t = (false, false)) →
  let p := poll_run check_first env t0 n in
  polled p = [t0] ∧ clock p < checkDue p ∧ pollDue p = checkDue p + 1000.
Proof.
  intros Hidle. induction n as [|n IH].
  - cbn. rewrite Hidle. cbn. repeat split; lia.
  - destruct IH as (Hpolled & Hlt & Hdue).
    cbn [poll_run]. set (p := poll_run check_first env t0 n) in *.
    rewrite Hidle.
    unfold tick, fire_check, fire_poll, updatePollInterval.
    destruct check_first; cbn [clock checkDue pollPeriod pollDue polled fst snd].
    + destruct (checkDue p =? clock p + 1) eqn:Hc;
        cbn [clock checkDue pollPeriod pollDue polled poll_interval orb];
        [apply Z.eqb_eq in Hc | apply Z.eqb_neq in Hc].
      * rewrite (proj2 (Z.eqb_neq _ _)) by lia. cbn. repeat split; [done|lia|lia].
      * rewrite (proj2 (Z.eqb_neq _ _)) by lia. cbn. repeat split; [done|lia|lia].
    + rewrite (proj2 (Z.eqb_neq (pollDue p) (clock p + 1))) by lia.
      cbn [clock checkDue pollPeriod pollDue polled].
      destruct (checkDue p =? clock p + 1) eqn:Hc;
        cbn [clock checkDue pollPeriod pollDue polled poll_interval orb];
        [apply Z.eqb_eq in Hc | apply Z.eqb_neq in Hc];
        repeat split; [done|lia|lia|done|lia|lia].
Qed.

End Polling.

(** C5, at failing inputs.  The poll timer is cleared and set anew at every
    re-evaluation, 1000 ms apart, whether or not the call state changed; a
    period only counts if it fits between two re-evaluations.  An idle
    client (both refs unset) is given the period 2000 ms and, after the call
    of [pollCalls] in the effect body, never polls again, in either order of
    two timers due together.  A client on which a ring is pending from
    200 ms on is given the period 500 ms at the re-evaluation at 1000 ms and
    polls for the first time at 1500 ms; when the re-evaluation runs before
    the poll timer due in the same millisecond (the order in which they
    were armed), it then polls at 2500 ms: once a second, not every 500 ms.
    In the other order it polls every 500 ms from 1500 ms on. *)
Theorem C5_poll_timer_rearmed_every_second :
  let idle := fun _ : Z => (false, false) in
  let ring := fun t : Z => (false, 200 <=? t) in
  (∀ check_first t0 n,
     polled (poll_run check_first idle t0 n) = [t0]
     ∧ pollPeriod (poll_run check_first idle t0 n) = 2000)
  ∧ pollPeriod (poll_run true ring 0 3000) = 500
  ∧ polled (poll_run true ring 0 3000) = [0; 1500; 2500]
  ∧ polled (poll_run false ring 0 3000) = [0; 1500; 2000; 2500; 3000].
Proof.
  intros idle ring. split; [|split; [|split]].
  - intros check_first t0 n.
    destruct (idle_poll_timer_rearmed_before_due check_first idle t0 n)
      as (Hpolled & _); [done|].
    destruct (poll_run_invariant check_first idle t0 n) as (_ & _ & Hperiod).
    split; [exact Hpolled | exact Hperiod].
  - vm_compute. reflexivity.
  - vm_compute. reflexivity.
  - vm_compute. reflexivity.
Qed.

Section Leave.

Implicit Types (c : Client) (cap : View).

Lemma reset_call_idle c : idle (reset_call c).
Proof. unfold idle. cbn. repeat split. Qed.

Lemma endCallCleanup_with_message cap (msg : string) c :
  msg ≠ EmptyString →
  let c' := endCallCleanup cap msg c in
  log c' = log c ++ cleanup_log cap (connectionRef (refs c))
  ∧ callEndedIntentionallyRef (refs c') = true
  ∧ conn_truthy (connectionRef (refs c')) = false
  ∧ timeouts c' = timeouts c ++ [(3000, ResetCall)]
  ∧ callStatus (st c') = msg ∧ showCallEnding (st c') = true
  ∧ live_streams c'
    = match localStream cap with
      | Some s => List.filter (fun x => negb (x =? s)%nat) (live_streams c)
      | None => live_streams c
      end
  ∧ localStream (st c')
    = match localStream cap with
      | Some _ => None
      | None => localStream (st c)
      end.
Proof.
  intros Hmsg. unfold endCallCleanup.
  assert (Ht : truthy (VStr msg) = true)
    by (cbn; by rewrite bool_decide_false).
  rewrite Ht. clear Ht.
  destruct c as [v r ev live tos lg].
  destruct r as [flag target conn aref rref].
  unfold cleanup_log, stop_tracks.
  destruct conn, (localStream cap) as [s|];
    cbn; rewrite <- ?app_assoc; cbn; repeat split; reflexivity.
Qed.

(** C10.  [leaveCall] takes as target the first truthy value among the
    cached call target, the selected contact's [_id], its [id], and the
    recorded caller.  It posts [end_call] to that target exactly when the
    target is truthy, so not when all of them are [null] (or falsy in
    another way).  In every case it
    then runs the cleanup: the flag is set, the handlers of an existing peer
    connection are detached, the tracks of the local stream are stopped and
    the stream is let go, the peer connection is closed, and the reset that
    makes the session idle is scheduled 3000 ms later. *)
Theorem C10_leaveCall_target_and_cleanup c :
  let cap := st c in
  let target := callTargetRef (refs c) in
  let sel_id := get (selectedUser cap) "_id" in
  let sel_id' := get (selectedUser cap) "id" in
  let other := otherId cap c in
  let c' := click_leave c in
  other = (if truthy target then target
           else if truthy sel_id then sel_id
           else if truthy sel_id' then sel_id'
           else caller cap)
  ∧ (truthy target = false → truthy sel_id = false →
     truthy sel_id' = false → truthy (caller cap) = false →
       truthy other = false)
  ∧ log c'
    = log c ++ (if truthy other then [PostEndCall other] else [])
      ++ cleanup_log cap (connectionRef (refs c))
  ∧ callEndedIntentionallyRef (refs c') = true
  ∧ (∀ s, localStream cap = Some s → s ∉ live_streams c')
  ∧ localStream (st c') = None
  ∧ conn_truthy (connectionRef (refs c')) = false
  ∧ timeouts c' = timeouts c ++ [(3000, ResetCall)]
  ∧ (∀ c'', idle (reset_call c''))
  ∧ (timeouts c = [] → idle (fire_timeout false c')).
Proof.
  intros cap target sel_id sel_id' other c'.
  assert (Hother : other = (if truthy target then target
                            else if truthy sel_id then sel_id
                            else if truthy sel_id' then sel_id'
                            else caller cap)).
  { subst other. unfold otherId, or_. fold cap target sel_id sel_id'.
    destruct (truthy target) eqn:H1; cbv iota; rewrite ?H1; [reflexivity|].
    destruct (truthy sel_id) eqn:H2; cbv iota; rewrite ?H2; [reflexivity|].
    destruct (truthy sel_id') eqn:H3; cbv iota; rewrite ?H3; reflexivity. }
  set (c1 := if truthy other then emit (PostEndCall other) c else c).
  set (msg := if receivingCall cap && negb (callActive cap)
              then "Call declined" else "Call ended").
  assert (Hmsg : msg ≠ EmptyString) by (subst msg; by destruct (_ && _)).
  assert (Hc' : c' = endCallCleanup cap msg c1) by reflexivity.
  destruct (endCallCleanup_with_message cap msg c1 Hmsg)
    as (Hlog & Hflag & Hconn & Htos & _ & _ & Hlive & Hstream).
  rewrite <- Hc' in *.
  assert (Hc1 : refs c1 = refs c ∧ st c1 = st c ∧ timeouts c1 = timeouts c
                ∧ live_streams c1 = live_streams c
                ∧ log c1 = log c ++ (if truthy other
                                     then [PostEndCall other] else []))
    by (subst c1; destruct (truthy other); cbn;
        rewrite ?app_nil_r; repeat split; reflexivity).
  destruct Hc1 as (Hr1 & Hs1 & Ht1 & Hl1 & Hlog1).
  split; [exact Hother|]. split; [|split; [|split; [|split; [|split;
    [|split; [|split; [|split]]]]]]].
  - intros Ht Hs Hs' Hc. by rewrite Hother, Ht, Hs, Hs'.
  - rewrite Hlog, Hlog1, Hr1, <- app_assoc. reflexivity.
  - exact Hflag.
  - intros s Hs. rewrite Hlive, Hs.
    intros [_ Hin]%elem_of_filter_bool.
    by rewrite Nat.eqb_refl in Hin.
  - rewrite Hstream, Hs1. fold cap. by destruct (localStream cap).
  - exact Hconn.
  - by rewrite Htos, Ht1.
  - exact reset_call_idle.
  - intros Hnone. unfold fire_timeout. rewrite Htos, Ht1, Hnone.
    cbn [app]. apply reset_call_idle.
Qed.

End Leave.

(** A receiver who declines, with every target source [null], posts
    nothing and is idle once the reset has run. *)
Lemma C10_decline_without_target :
  let c := setReceivingCall true mount in
  truthy (otherId (st c) c) = false ∧ idle (fire_timeout false (click_leave c)).
Proof.
  intros c.
  destruct (C10_leaveCall_target_and_cleanup c)
    as (_ & Hnull & _ & _ & _ & _ & _ & _ & _ & Hidle).
  split.
  - apply Hnull; reflexivity.
  - apply Hidle. reflexivity.
Defined.

Section Offers.

Implicit Types (c : Client) (cap : View).

(** The guard of the [call_user] branch ignores the event when the view
    held by the handler shows an active call on a connection, or a pending
    ring. *)
Lemma on_call_user_ignored_in_own_view cap c from name signal :
  (conn_not_null (connectionRef (refs c)) = true ∧ callActive cap = true)
  ∨ (receivingCall cap = true ∧ caller cap ≠ VNull ∧ callActive cap = false) →
  on_call_user cap c from name signal = c.
Proof.
  unfold on_call_user. intros [[-> ->]|(-> & Hc & ->)]; [reflexivity|].
  rewrite andb_false_r. cbn.
  by destruct (caller cap).
Qed.

(** The transport handlers hold the view of the first render, in which no
    call is active and no ring is pending: whatever the session has become,
    an incoming [call_user] is recorded. *)
Lemma call_user_always_recorded c from name signal :
  effect_view c = initial_view →
  let c' := on_call_user (effect_view c) c from name signal in
  receivingCall (st c') = true ∧ caller (st c') = from
  ∧ callerSignal (st c') = signal ∧ callTargetRef (refs c') = from.
Proof.
  intros ->. unfold on_call_user. cbn.
  rewrite andb_false_r. cbn. repeat split.
Qed.

End Offers.

(** C6, at a failing input.  User 5 calls user 9, whose client polls and
    shows the ring; then user 6 calls user 9 as well and the client polls
    again.  The second offer is not ignored: it replaces the recorded caller,
    the stored offer and the cached call target of the first. *)
Theorem C6_second_offer_replaces_first :
  let s1 := (calls_initiate empty_state 1000 (Some (VNum 5))
               (initiate_body 9 "offer-5" "eve")).2 in
  let poll1 := getCallSignals s1 1200 (VNum 9) in
  let c1 := sync_refs (receive_poll mount poll1.1) in
  let s2 := (calls_initiate poll1.2 1500 (Some (VNum 6))
               (initiate_body 9 "offer-6" "mallory")).2 in
  let poll2 := getCallSignals s2 1700 (VNum 9) in
  let c2 := receive_poll c1 poll2.1 in
  (receivingCall (st c1) = true ∧ caller (st c1) = VNum 5
   ∧ callerSignal (st c1) = offer_of "offer-5"
   ∧ callTargetRef (refs c1) = VNum 5)
  ∧ map payload poll2.1
    = [("call_user",
        VObj [("from", VNum 6); ("signal", offer_of "offer-6");
              ("name", VStr "mallory")], 1500)]
  ∧ (caller (st c2) = VNum 6
     ∧ callerSignal (st c2) = offer_of "offer-6"
     ∧ callTargetRef (refs c2) = VNum 6
     ∧ callStatus (st c2) = "mallory is calling...")
  ∧ c2 ≠ c1.
Proof. vm_compute. repeat split. discriminate. Qed.

Section Termination.

Implicit Types (c : Client) (cap : View).

(** Once the flag is set, the four connection-state callbacks change
    nothing, whatever view they hold and whatever state is reported. *)
Lemma callbacks_ignored_once_ended cap c :
  callEndedIntentionallyRef (refs c) = true →
  (∀ s, onconnectionstatechange_caller cap c s = c)
  ∧ (∀ s, oniceconnectionstatechange_caller cap c s = c)
  ∧ (∀ s, onconnectionstatechange_answerer cap c s = c)
  ∧ (∀ s, oniceconnectionstatechange_answerer cap c s = c).
Proof.
  intros Hflag.
  unfold onconnectionstatechange_caller, oniceconnectionstatechange_caller,
    onconnectionstatechange_answerer, oniceconnectionstatechange_answerer,
    ended.
  rewrite Hflag. repeat split.
Qed.

(** Both triggers set the flag before anything else they log, and the flag
    is set when they are done. *)
Lemma endCallCleanup_flag_first cap (msg : string) c :
  ∃ rest, log (endCallCleanup cap msg c) = log c ++ FlagSet :: rest.
Proof.
  destruct c as [v r ev live tos lg].
  destruct r as [flag target conn aref rref].
  unfold endCallCleanup, stop_tracks.
  destruct (truthy (VStr msg)), conn, (localStream cap); cbn;
    rewrite <- ?app_assoc; cbn; eexists; reflexivity.
Qed.

Lemma on_end_call_flag_first cap c :
  (∃ rest, log (on_end_call cap c) = log c ++ FlagSet :: rest)
  ∧ callEndedIntentionallyRef (refs (on_end_call cap c)) = true.
Proof.
  unfold on_end_call.
  set (msg := if receivingCall cap && negb (callActive cap)
                 && negb (callActive cap)
              then "Call declined by caller"
              else "Call ended by other party").
  assert (Hmsg : msg ≠ EmptyString) by (subst msg; by destruct (_ && _)).
  set (c0 := remove_handlers _).
  destruct (endCallCleanup_with_message cap msg c0 Hmsg) as (Hlog & Hflag & _).
  split; [|exact Hflag].
  rewrite Hlog. subst c0.
  destruct c as [v r ev live tos lg].
  destruct r as [flag target conn aref rref].
  destruct conn; cbn; rewrite <- ?app_assoc; cbn; eexists; reflexivity.
Qed.

(** The cleanup that the transport handlers run holds the view of the
    first render, whose [localStream] is [null]: it stops no track. *)
Lemma end_call_keeps_streams c :
  effect_view c = initial_view →
  live_streams (on_end_call (effect_view c) c) = live_streams c
  ∧ localStream (st (on_end_call (effect_view c) c)) = localStream (st c).
Proof.
  intros Hview. unfold on_end_call.
  set (msg := if receivingCall (effect_view c) && negb (callActive (effect_view c))
                 && negb (callActive (effect_view c))
              then "Call declined by caller"
              else "Call ended by other party").
  assert (Hmsg : msg ≠ EmptyString) by (subst msg; by destruct (_ && _)).
  set (c0 := remove_handlers _).
  destruct (endCallCleanup_with_message (effect_view c) msg c0 Hmsg)
    as (_ & _ & _ & _ & _ & _ & Hlive & Hstream).
  rewrite Hlive, Hstream, Hview. cbn [localStream initial_view]. subst c0.
  destruct c as [v r ev live tos lg].
  destruct r as [flag target conn aref rref].
  destruct conn; cbn; split; reflexivity.
Qed.

End Termination.

(** C7, at a failing input.  The user selects contact 7 and starts a video
    call; the media stream (handle 1) is acquired and the peer connection
    created.  Contact 7 hangs up and the [end_call] frame arrives on the push
    channel.  The flag is set first, the handlers are detached, the peer
    connection is closed and, after the 3000 ms timeout, the session is idle;
    but no track is stopped: stream 1 is still running and still held, during
    the grace period and after it.  The hang-up button in the same state does
    stop it. *)
Theorem C7_end_call_leaves_tracks_running :
  let bob := VObj [("_id", VNum 7); ("username", VStr "bob")] in
  let c1 := sync_refs (click_call true (setSelectedUser bob mount)) in
  let c2 := got_media 1 c1 in
  let frame := eventPayload "end_call" (VObj [("from", VNum 7)]) in
  let c3 := receive_sse c2 frame in
  let c4 := fire_timeout false c3 in
  (callActive (st c2) = true ∧ localStream (st c2) = Some 1%nat
   ∧ live_streams c2 = [1%nat]
   ∧ connectionRef (refs c2) = ConnPeer new_peer)
  ∧ log c3 = [FlagSet; HandlersDetached; FlagSet; HandlersDetached;
              MediaElementsCleared; PeerClosed; TimeoutSet 3000 ResetCall]
  ∧ (callEndedIntentionallyRef (refs c3) = true
     ∧ connectionRef (refs c3) = ConnNull
     ∧ live_streams c3 = [1%nat])
  ∧ (callActive (st c4) = false ∧ receivingCall (st c4) = false
     ∧ callStatus (st c4) = EmptyString
     ∧ live_streams c4 = [1%nat] ∧ localStream (st c4) = Some 1%nat)
  ∧ (live_streams (click_leave c2) = []
     ∧ localStream (st (click_leave c2)) = None).
Proof. vm_compute. repeat split. Qed.

Section Candidates.

Implicit Types (c : Client) (cand : jsval).

(** The poll handler hands a candidate to the peer connection exactly when
    there is a connection, the candidate is truthy, it does not lack all of
    [candidate], [sdpMid] and [sdpMLineIndex], and the [RTCIceCandidate]
    constructor accepts it; otherwise it changes nothing. *)
Lemma on_ice_candidate_applied c cand :
  let c' := on_ice_candidate c cand in
  if conn_truthy (connectionRef (refs c)) && truthy cand
     && negb (malformed_candidate cand) && negb (RTCIceCandidate_raises cand)
  then log c' = log c ++ [IceCandidateAdded cand]
  else c' = c.
Proof.
  unfold on_ice_candidate, addIceCandidate.
  destruct c as [v r ev live tos lg].
  destruct r as [flag target conn aref rref]. cbn.
  destruct conn; cbn; try reflexivity.
  destruct (truthy cand) eqn:Ht; cbn; [|reflexivity].
  assert (Hn : strict_eq cand VNull || strict_eq cand VUndef = false)
    by (destruct cand; try discriminate; reflexivity).
  rewrite Hn. destruct (malformed_candidate cand); [reflexivity|].
  destruct (RTCIceCandidate_raises cand); reflexivity.
Qed.

Lemma validCandidate_fields cand :
  get (validCandidate cand) "candidate"
  = or_ (get cand "candidate") (VStr EmptyString)
  ∧ get (validCandidate cand) "sdpMid" = or_ (get cand "sdpMid") VNull
  ∧ get (validCandidate cand) "sdpMLineIndex"
    = (if negb (strict_eq (get cand "sdpMLineIndex") VUndef)
       then get cand "sdpMLineIndex" else VNull).
Proof. repeat split. Qed.

(** The relay's test on [validCandidate], in terms of the candidate that
    was posted. *)
Lemma invalid_candidate_posted cand :
  invalid_candidate (validCandidate cand)
  = negb (truthy (get cand "candidate")) && negb (truthy (get cand "sdpMid"))
    && (strict_eq (get cand "sdpMLineIndex") VUndef
        || strict_eq (get cand "sdpMLineIndex") VNull).
Proof.
  unfold invalid_candidate.
  destruct (validCandidate_fields cand) as (-> & -> & ->).
  unfold or_.
  destruct (truthy (get cand "candidate")) eqn:H1; cbv iota; rewrite ?H1;
    [reflexivity|].
  destruct (truthy (get cand "sdpMid")) eqn:H2; cbv iota; rewrite ?H2;
    [reflexivity|].
  destruct (get cand "sdpMLineIndex"); reflexivity.
Qed.

(** The relay forwards the candidate exactly when the request has a token,
    a target and a truthy candidate, the token verifies, and the candidate
    has one of the three fields; otherwise the state is as before. *)
Lemma calls_ice_candidate_forwards st now decoded body :
  let cand := get body "candidate" in
  let forwarded :=
    truthy (get body "token") && truthy (get body "to") && truthy cand
    && bool_decide (is_Some decoded)
    && (truthy (get cand "candidate") || truthy (get cand "sdpMid")
        || negb (strict_eq (get cand "sdpMLineIndex") VUndef
                 || strict_eq (get cand "sdpMLineIndex") VNull)) in
  let st' := (calls_ice_candidate st now decoded body).2 in
  if forwarded
  then st' = addCallSignal
               (sendEvent st (toInt (get body "to")) "ice_candidate"
                  (validCandidate cand)).2
               now (toInt (get body "to")) "ice_candidate" (validCandidate cand)
  else st' = st.
Proof.
  unfold calls_ice_candidate.
  destruct (truthy (get body "token")); [|reflexivity].
  destruct (truthy (get body "to")); [|reflexivity].
  destruct (truthy (get body "candidate")); [|reflexivity].
  destruct decoded as [senderId|]; [|reflexivity].
  cbn [negb orb andb snd]. rewrite bool_decide_true by eauto.
  rewrite invalid_candidate_posted.
  destruct (truthy (get (get body "candidate") "candidate")); [reflexivity|].
  destruct (truthy (get (get body "candidate") "sdpMid")); [reflexivity|].
  cbn [negb orb andb].
  destruct (_ || _); reflexivity.
Qed.

(** No frame that [sendEvent] writes has a [candidate] field, so the push
    handler applies none of them. *)
Lemma sse_ice_candidate_frame_ignored c cand :
  receive_sse c (eventPayload "ice_candidate" cand) = c.
Proof.
  unfold receive_sse, onmessage, eventPayload, type_is, on_ice_candidate.
  cbn. by rewrite andb_false_r.
Qed.

End Candidates.

(** C8, at a failing input.  User 9 has a push registration (stream 0), was
    called by user 5, answered, and has a peer connection.  User 5 sends a
    well-formed candidate: the relay writes the frame to stream 0 and queues
    the signal.  The push handler reads [data.candidate] of the frame, which
    has [type], [message] and [data] only, and applies nothing; the poll
    handler, given the queued signal, applies the candidate. *)
Theorem C8_pushed_candidate_not_applied :
  let s0 := register empty_state (VNum 9) 0%nat in
  let s1 := (calls_initiate s0 1000 (Some (VNum 5))
               (initiate_body 9 "offer-5" "eve")).2 in
  let poll1 := getCallSignals s1 1200 (VNum 9) in
  let c1 := sync_refs (receive_poll mount poll1.1) in
  let c2 := answer_got_media (st c1) 1%nat (sync_refs (click_answer c1)) in
  let cand := VObj [("candidate", VStr "candidate:1 1 UDP 2122260223 192.0.2.1 54321 typ host");
                    ("sdpMid", VStr "0"); ("sdpMLineIndex", VNum 0)] in
  let s2 := (calls_ice_candidate poll1.2 2000 (Some (VNum 5))
               (VObj [("token", VStr "t"); ("to", VNum 9);
                      ("candidate", cand)])).2 in
  let frame := eventPayload "ice_candidate" cand in
  let poll2 := getCallSignals s2 2100 (VNum 9) in
  connectionRef (refs c2)
  = ConnPeer {| onconnectionstatechange_set := true;
                oniceconnectionstatechange_set := true;
                onicegatheringstatechange_set := true;
                ontrack_set := true; onicecandidate_set := true;
                closed := false;
                remoteDescription := Some (offer_of "offer-5");
                iceCandidates := [] |}
  ∧ last (wire s2) = Some (0%nat, frame)
  ∧ receive_sse c2 frame = c2
  ∧ map payload poll2.1 = [("ice_candidate", cand, 2000)]
  ∧ log (receive_poll c2 poll2.1) = log c2 ++ [IceCandidateAdded cand].
Proof. vm_compute. repeat split. Qed.

(* ================================================================== *)
(** * Further properties of the code *)
(* ================================================================== *)

(** ** Identifiers as numbers and as decimal strings *)

Section ParseRoundTrip.

Lemma small_N_cases (d : N) :
  (d < 10)%N → d ∈ [0; 1; 2; 3; 4; 5; 6; 7; 8; 9]%N.
Proof.
  intros H. destruct d as [|p]; [set_solver|].
  do 4 (destruct p as [p|p|]; try lia; try (cbn; set_solver)).
Qed.

Lemma digit_val_pretty_char (d : N) :
  (d < 10)%N → digit_val (pretty_N_char d) = Some (Z.of_N d).
Proof.
  intros H%small_N_cases.
  repeat (apply elem_of_cons in H as [->|H]; [reflexivity|]).
  by apply elem_of_nil in H.
Qed.

(** Reading back the digits that [pretty] writes. *)
Lemma digits_prefix_pretty_go (x : N) (s : string) :
  (0 < x)%N →
  digits_prefix 10 (pretty_N_go x s) None
  = digits_prefix 10 s (Some (Z.of_N x)).
Proof.
  revert s. induction (N.lt_wf_0 x) as [x _ IH]. intros s Hpos.
  rewrite pretty_N_go_step by done.
  assert (Hmod : (N.modulo x 10 < 10)%N) by (apply N.mod_lt; lia).
  pose proof (N.div_mod x 10 ltac:(done)) as Hdm.
  destruct (decide (N.div x 10 = 0)%N) as [Hz|Hnz].
  - rewrite Hz, pretty_N_go_0. cbn [digits_prefix].
    rewrite digit_val_pretty_char by done.
    assert (Hx : x = N.modulo x 10) by lia.
    rewrite <- Hx.
    assert (Hlt : (Z.of_N x <? 10) = true) by (apply Z.ltb_lt; lia).
    rewrite Hlt. reflexivity.
  - rewrite IH; [| apply N.div_lt; lia | by apply N.neq_0_lt_0].
    cbn [digits_prefix]. rewrite digit_val_pretty_char by done.
    assert (Hlt : (Z.of_N (N.modulo x 10) <? 10) = true)
      by (apply Z.ltb_lt; lia).
    rewrite Hlt. cbn [default]. unfold id. f_equal. f_equal. lia.
Qed.

Lemma pretty_go_first_digit (x : N) (s : string) :
  (0 < x)%N →
  ∃ d r, (0 < d < 10)%N ∧ pretty_N_go x s = String (pretty_N_char d) r.
Proof.
  revert s. induction (N.lt_wf_0 x) as [x _ IH]. intros s Hpos.
  rewrite pretty_N_go_step by done.
  destruct (decide (N.div x 10 = 0)%N) as [Hz|Hnz].
  - rewrite Hz, pretty_N_go_0. exists (N.modulo x 10), s. split; [|done].
    pose proof (N.div_mod x 10 ltac:(done)).
    pose proof (N.mod_lt x 10 ltac:(done)). lia.
  - apply IH; [apply N.div_lt; lia | by apply N.neq_0_lt_0].
Qed.

Lemma parseInt_radix_pretty_signed (auto neg : bool) (p : positive) :
  parseInt_radix auto
    (if neg then String "-" (pretty (N.pos p)) else pretty (N.pos p))
  = VNum (if neg then Z.neg p else Z.pos p).
Proof.
  unfold pretty, pretty_N. rewrite decide_False by done.
  destruct (pretty_go_first_digit (N.pos p) EmptyString) as (d & r & Hd & Heq);
    [lia|].
  pose proof (digits_prefix_pretty_go (N.pos p) EmptyString) as Hdig.
  rewrite Heq in Hdig |- *.
  assert (Hc : d ∈ [1; 2; 3; 4; 5; 6; 7; 8; 9]%N).
  { pose proof (small_N_cases d) as H.
    apply elem_of_cons in H as [->|H]; [lia|done|lia]. }
  unfold parseInt_radix.
  destruct neg;
    repeat (apply elem_of_cons in Hc as [->|Hc];
      [cbn [skip_ws pretty_N_char] in *;
       repeat match goal with
              | |- context [is_ws ?c] =>
                  let b := eval vm_compute in (is_ws c) in
                  change (is_ws c) with b
              end;
       cbv iota; cbn -[digits_prefix]; rewrite Hdig by lia; reflexivity|]);
    by apply elem_of_nil in Hc.
Qed.

(** [parseInt(String(n))] is [n], with or without the radix. *)
Lemma parseInt_radix_pretty (auto : bool) (n : Z) :
  parseInt_radix auto (pretty n) = VNum n.
Proof.
  destruct n as [|p|p].
  - by destruct auto.
  - apply (parseInt_radix_pretty_signed auto false p).
  - apply (parseInt_radix_pretty_signed auto true p).
Qed.

(** The candidate push keys of a decimal string are those of the number. *)
Lemma keysToTry_pretty (n : Z) :
  keysToTry (VStr (pretty n)) = keysToTry (VNum n).
Proof.
  unfold keysToTry, keysToTry_raw. cbn [is_string String_].
  assert (H : parseInt10 (pretty n) = VNum n)
    by apply (parseInt_radix_pretty false).
  rewrite !H. reflexivity.
Qed.

(** X1.  A safe integer id and its decimal string are normalised to the
    same number: [parseInt(String(n), 10)], [parseInt(String(n))],
    [parseInt(n)] and the handlers' [typeof x === 'string' ? parseInt(x) : x]
    on either form all give [n]; so the queue key and the candidate push
    keys of the string form are those of the number. *)
Theorem X1_decimal_string_ids (n : Z) :
  safe_integer n →
  parseInt10 (pretty n) = VNum n
  ∧ parseInt (VStr (pretty n)) = VNum n
  ∧ parseInt (VNum n) = VNum n
  ∧ toInt (VStr (pretty n)) = toInt (VNum n)
  ∧ String_ (toInt (VStr (pretty n))) = pretty n
  ∧ keysToTry (VStr (pretty n)) = keysToTry (VNum n).
Proof.
  intros _.
  pose proof (parseInt_radix_pretty false n) as H10.
  pose proof (parseInt_radix_pretty true n) as Hauto.
  repeat split; try done.
  - unfold toInt. cbn [is_string]. unfold parseInt. cbn [String_].
    by rewrite Hauto.
  - apply keysToTry_pretty.
Qed.

End ParseRoundTrip.

(** The largest safe integer, as the string of a token and as a number. *)
Lemma X1_largest_safe_id :
  toInt (VStr "9007199254740991") = VNum 9007199254740991
  ∧ keysToTry (VStr "9007199254740991") = keysToTry (VNum 9007199254740991).
Proof.
  destruct (X1_decimal_string_ids 9007199254740991)
    as (_ & _ & _ & Hint & _ & Hkeys).
  - unfold safe_integer. lia.
  - split; [exact Hint | exact Hkeys].
Defined.

(** ** Push registry: registration, delivery, removal *)

Section RegistryMore.

Implicit Types (st : State) (cl : gmap string conn).

Lemma elem_of_filter_idx_from (p : jsval → Z → bool) (i : Z) (l : list jsval)
    (x : jsval) :
  x ∈ filter_idx_from p i l → x ∈ l.
Proof.
  revert i. induction l as [|y l IH]; intros i; cbn; [done|].
  destruct (p y i).
  - intros [->|H]%elem_of_cons; [left|right; by eapply IH].
  - intros H. right. by eapply IH.
Qed.

(** Every candidate key of a numeric id names the same property. *)
Lemma keysToTry_num_key (n : Z) (k : jsval) :
  k ∈ keysToTry (VNum n) → String_ k = pretty n.
Proof.
  unfold keysToTry, filter_idx. intros H%elem_of_filter_idx_from.
  unfold keysToTry_raw in H. cbn [is_string String_] in H.
  assert (Hp : parseInt10 (pretty n) = VNum n)
    by apply (parseInt_radix_pretty false).
  rewrite Hp in H. cbn [String_] in H.
  repeat (apply elem_of_cons in H as [->|H]; [reflexivity|]).
  by apply elem_of_nil in H.
Qed.

Lemma find_client_all_absent cl (keys : list jsval) :
  (∀ k, k ∈ keys → cl !! String_ k = None) → find_client cl keys = None.
Proof.
  induction keys as [|k keys IH]; intros H; [done|].
  cbn. rewrite (H k) by left. apply IH. intros k' Hk'. apply H. by right.
Qed.

Lemma find_client_all_same cl (keys : list jsval) (name : string) (c : conn)
    (key : jsval) (target : conn) :
  (∀ k, k ∈ keys → String_ k = name) → cl !! name = Some c →
  find_client cl keys = Some (key, target) → target = c.
Proof.
  intros Hk Hc. destruct keys as [|k keys]; [done|].
  cbn. rewrite (Hk k) by left. rewrite Hc. congruence.
Qed.

(** A push to a numeric id whose key holds a healthy stream writes one
    frame to that stream. *)
Lemma sendEvent_delivers st (n : Z) (c : conn) type data :
  clients st !! pretty n = Some c → c ∉ broken st →
  sendEvent st (VNum n) type data
  = (true, push_wire st c (eventPayload type data)).
Proof.
  intros Hc Hok. unfold sendEvent.
  destruct (keysToTry_num n) as (pre & rest & Heq & Hpre).
  destruct (find_client_app_first (clients st) pre (VNum n) rest c)
    as (key & Hfind & _).
  { intros k' Hk'. destruct Hpre as [->| ->].
    - by apply elem_of_nil in Hk'.
    - by apply list_elem_of_singleton in Hk' as ->. }
  { exact Hc. }
  rewrite Heq, Hfind. by rewrite bool_decide_false.
Qed.

(** A push to a numeric id whose key is free does nothing. *)
Lemma sendEvent_unregistered st (n : Z) type data :
  clients st !! pretty n = None →
  sendEvent st (VNum n) type data = (false, st).
Proof.
  intros Hc. unfold sendEvent.
  rewrite find_client_all_absent; [done|].
  intros k Hk. by rewrite (keysToTry_num_key n k Hk).
Qed.

Lemma unregister_lookup st userId (name : string) :
  clients (unregister st userId) !! name
  = if bool_decide (name ∈ String_ <$> storedKeys userId) then None
    else clients st !! name.
Proof.
  unfold unregister. cbn [clients set_clients]. apply delete_keys_lookup.
Qed.

Lemma state_eq st st' :
  clients st = clients st' → callSignals st = callSignals st' →
  broken st = broken st' → wire st = wire st' → st = st'.
Proof. destruct st, st'. cbn. by intros -> -> -> ->. Qed.

(** X2.  Registration and delivery: once [/api/events] has stored the
    connection of user [n], whose stream is healthy, a push to [n], given as
    a number or as its decimal string, returns [true] and writes exactly one
    frame [{type, message: data, data}] to that connection; registry and
    queues are as they were.  A later registration replaces an earlier one:
    the push then goes to the later connection. *)
Theorem X2_register_then_push st (n : Z) (res : conn) type data :
  res ∉ broken st →
  let st1 := register st (VNum n) res in
  sendEvent st1 (VNum n) type data
  = (true, push_wire st1 res (eventPayload type data))
  ∧ sendEvent st1 (VStr (pretty n)) type data
    = sendEvent st1 (VNum n) type data
  ∧ (∀ old : conn,
       sendEvent (register (register st (VNum n) old) (VNum n) res)
         (VNum n) type data
       = (true, push_wire (register (register st (VNum n) old) (VNum n) res)
                  res (eventPayload type data))).
Proof.
  intros Hok st1. split; [|split].
  - apply sendEvent_delivers; [apply register_num_lookup | done].
  - unfold sendEvent. by rewrite keysToTry_pretty.
  - intros old. apply sendEvent_delivers; [apply register_num_lookup | done].
Qed.

(** X3.  Closing a connection deletes every key the user was stored under,
    whichever connection holds them now: after the close handler ran, a push
    to the numeric id finds nothing, returns [false] and leaves the state as
    it is, also when a newer connection of the same user had replaced the
    closed one.  Running the handler again, or for a user who is not
    registered, changes nothing. *)
Theorem X3_close_unregisters st userId :
  (∀ k, k ∈ storedKeys userId →
     clients (unregister st userId) !! String_ k = None)
  ∧ unregister (unregister st userId) userId = unregister st userId
  ∧ ((∀ k, k ∈ storedKeys userId → clients st !! String_ k = None) →
       unregister st userId = st)
  ∧ (∀ n type data, userId = VNum n →
       sendEvent (unregister st userId) userId type data
       = (false, unregister st userId))
  ∧ (∀ n (old new : conn) type data, userId = VNum n →
       (sendEvent
          (unregister (register (register st userId old) userId new) userId)
          userId type data).1 = false).
Proof.
  split; [|split; [|split; [|split]]].
  - intros k Hk. rewrite unregister_lookup.
    rewrite bool_decide_true; [done|]. by apply list_elem_of_fmap_2.
  - apply state_eq; try reflexivity.
    apply map_eq. intros name. rewrite !unregister_lookup.
    by case_bool_decide.
  - intros Hfree. apply state_eq; try reflexivity.
    apply map_eq. intros name. rewrite unregister_lookup.
    case_bool_decide as Hin; [|done].
    apply list_elem_of_fmap in Hin as (k & -> & Hk). by rewrite Hfree.
  - intros n type data ->. apply sendEvent_unregistered.
    rewrite unregister_lookup. rewrite bool_decide_true; [done|].
    apply list_elem_of_fmap. exists (VNum n). split; [done|].
    unfold storedKeys. cbn. set_solver.
  - intros n old new type data ->.
    rewrite sendEvent_unregistered; [done|].
    rewrite unregister_lookup. rewrite bool_decide_true; [done|].
    apply list_elem_of_fmap. exists (VNum n). split; [done|].
    unfold storedKeys. cbn. set_solver.
Qed.

(** X4.  A push never reaches an id that is not numeric: for a string that
    is not a number and does not start with an integer, and for [null],
    [undefined] and [NaN], every candidate key is filtered out, so
    [sendEvent] returns [false] and changes nothing, even right after a
    connection was registered under that very id. *)
Theorem X4_non_numeric_id_never_pushed st (s : string) type data :
  string_is_NaN s = true → parseInt10 s = VNaN →
  keysToTry (VStr s) = []
  ∧ sendEvent st (VStr s) type data = (false, st)
  ∧ (∀ res : conn,
       sendEvent (register st (VStr s) res) (VStr s) type data
       = (false, register st (VStr s) res))
  ∧ keysToTry VNull = [] ∧ keysToTry VUndef = [] ∧ keysToTry VNaN = [].
Proof.
  intros Hnan Hparse.
  assert (Hkeys : keysToTry (VStr s) = []).
  { unfold keysToTry, keysToTry_raw. cbn [is_string String_].
    rewrite Hparse. cbn [String_]. unfold filter_idx.
    cbn [filter_idx_from isNaN]. rewrite Hnan.
    change (string_is_NaN "NaN") with true.
    cbn [negb andb]. rewrite !andb_false_r. cbn [andb]. reflexivity. }
  split; [done|]. split; [|split].
  - unfold sendEvent. by rewrite Hkeys.
  - intros res. unfold sendEvent. by rewrite Hkeys.
  - by vm_compute.
Qed.

End RegistryMore.

(** User 7 connects on stream 3: the next push to 7 is written there. *)
Lemma X2_push_after_register :
  sendEvent (register empty_state (VNum 7) 3%nat) (VNum 7) "friend_request"
    (VObj [("from", VNum 1)])
  = (true,
     push_wire (register empty_state (VNum 7) 3%nat) 3%nat
       (eventPayload "friend_request" (VObj [("from", VNum 1)]))).
Proof.
  destruct (X2_register_then_push empty_state 7 3%nat "friend_request"
              (VObj [("from", VNum 1)])) as [H _].
  - vm_compute. discriminate.
  - exact H.
Defined.

(** The id [abc] can be registered but never pushed to. *)
Lemma X4_push_to_abc :
  sendEvent (register empty_state (VStr "abc") 1%nat) (VStr "abc")
    "receive_message" VNull
  = (false, register empty_state (VStr "abc") 1%nat).
Proof.
  destruct (X4_non_numeric_id_never_pushed empty_state "abc"
              "receive_message" VNull eq_refl eq_refl) as (_ & _ & H & _).
  apply H.
Defined.

(** ** Signal queue: capacity and order *)

Section QueueMore.

Implicit Types (st : State) (q : list Signal) (now : Z).

Lemma length_slice_last {A} (n : nat) (l : list A) :
  length (slice_last n l) = Nat.min (length l) n.
Proof. unfold slice_last. rewrite length_drop. lia. Qed.

(** The payloads a poll returns, in order. *)
Lemma getCallSignals_payloads st now userId :
  map payload (getCallSignals st now userId).1
  = map payload
      (List.filter (fun s => unread s && fresh now s) (queue_of st userId)).
Proof.
  destruct (getCallSignals_unfold st now userId) as [-> _]. cbn zeta.
  generalize (queue_of st userId) as q.
  induction q as [|s q IH]; [done|]. cbn.
  destruct (fresh now s) eqn:Hf; cbn.
  - destruct (unread s); cbn; [|done].
    by rewrite mark_read_payload, IH.
  - by rewrite andb_false_r.
Qed.

(** X5.  [addCallSignal] appends the signal, unread and stamped with the
    current time, to the user's queue and then keeps the last 50: whatever
    the queue held, it has at most 50 entries afterwards, they are the end
    of the old queue followed by the new signal, and nothing else changes.
    Polling never lengthens a queue and pushing does not touch it, so the
    bound of 50 per queue holds in every state the server reaches. *)
Theorem X5_queue_capacity st now userId type data :
  let q := queue_of st userId in
  let st' := addCallSignal st now userId type data in
  let q' := queue_of st' userId in
  length q' = Nat.min (length q + 1) 50
  ∧ q' `suffix_of` q ++ [new_signal type data now]
  ∧ last q' = Some (new_signal type data now)
  ∧ (∀ key, key ≠ String_ userId →
       callSignals st' !! key = callSignals st !! key)
  ∧ clients st' = clients st ∧ wire st' = wire st ∧ broken st' = broken st
  ∧ queues_bounded empty_state
  ∧ (queues_bounded st → queues_bounded st')
  ∧ (∀ now2 uid, queues_bounded st →
       queues_bounded (getCallSignals st now2 uid).2)
  ∧ (∀ uid ty d, queues_bounded st → queues_bounded (sendEvent st uid ty d).2).
Proof.
  intros q st' q'.
  assert (Hq : q' = if 50 <? Z.of_nat (length (q ++ [new_signal type data now]))
                    then slice_last 50 (q ++ [new_signal type data now])
                    else q ++ [new_signal type data now])
    by apply queue_of_addCallSignal_eq.
  assert (Hlen : length q' = Nat.min (length q + 1) 50).
  { rewrite Hq. destruct (50 <? _) eqn:Hc.
    - apply Z.ltb_lt in Hc. rewrite length_slice_last.
      rewrite length_app in *. cbn [length] in *. lia.
    - apply Z.ltb_ge in Hc. rewrite length_app in *. cbn [length] in *. lia. }
  split; [exact Hlen|]. split; [|split; [|split; [|split; [|split; [|split;
    [|split; [|split; [|split]]]]]]]].
  - rewrite Hq. destruct (50 <? _); [apply suffix_drop | done].
  - rewrite Hq. destruct (50 <? _) eqn:Hc; [|apply last_snoc].
    apply Z.ltb_lt in Hc. unfold slice_last.
    rewrite length_app. cbn [length].
    rewrite drop_app_le by lia. apply last_snoc.
  - intros key Hne. subst st'. unfold addCallSignal. cbn.
    by rewrite lookup_insert_ne.
  - done.
  - done.
  - done.
  - intros key l. cbn. by rewrite lookup_empty.
  - intros Hb key l Hl. destruct (decide (key = String_ userId)) as [->|Hne].
    + assert (l = q') as ->
        by (subst q'; unfold queue_of; by rewrite Hl).
      rewrite Hlen. lia.
    + apply (Hb key). rewrite <- Hl. symmetry. subst st'.
      unfold addCallSignal. cbn. by rewrite lookup_insert_ne.
  - intros now2 uid Hb key l Hl.
    destruct (getCallSignals_unfold st now2 uid) as [_ Hcs]. cbn zeta in Hcs.
    rewrite Hcs in Hl.
    destruct (decide (key = String_ uid)) as [->|Hne].
    + rewrite lookup_insert_eq in Hl. injection Hl as <-.
      etransitivity; [apply filter_length_le|].
      rewrite length_map.
      etransitivity; [apply filter_length_le|].
      unfold queue_of. destruct (callSignals st !! String_ uid) as [l0|] eqn:Hl0.
      * cbn. by apply (Hb _ _ Hl0).
      * cbn. lia.
    + rewrite lookup_insert_ne in Hl by done. by apply (Hb key).
  - intros uid ty d Hb key l Hl. rewrite sendEvent_callSignals in Hl.
    by apply (Hb key).
Qed.

Lemma queue_of_enqueue_all_room st userId adds :
  (length (queue_of st userId) + length adds ≤ 50)%nat →
  queue_of (enqueue_all st userId adds) userId
  = queue_of st userId ++ map (fun a => new_signal a.1.1 a.1.2 a.2) adds.
Proof.
  revert st. induction adds as [|a adds IH]; intros st Hlen.
  - cbn. by rewrite app_nil_r.
  - cbn [enqueue_all foldl].
    fold (enqueue_all (addCallSignal st a.2 userId a.1.1 a.1.2) userId adds).
    pose proof (queue_of_addCallSignal_eq st a.2 userId a.1.1 a.1.2) as Hq.
    cbn zeta in Hq. fold (new_signal a.1.1 a.1.2 a.2) in Hq.
    cbn [length] in Hlen.
    assert (Hno : (50 <? Z.of_nat (length (queue_of st userId
                                             ++ [new_signal a.1.1 a.1.2 a.2])))
                  = false).
    { apply Z.ltb_ge. rewrite length_app. cbn [length]. lia. }
    rewrite Hno in Hq.
    rewrite IH; rewrite Hq.
    + rewrite <- app_assoc. reflexivity.
    + rewrite length_app. cbn [length]. lia.
Qed.

(** X6.  First in, first out: when the signals queued for a user since the
    last poll fit in the queue (50 entries with what was there) and are all
    younger than 60 s at the next poll, that poll returns whatever was still
    unread and fresh, followed by all of the new signals in the order they
    were queued. *)
Theorem X6_signals_polled_in_order st userId adds now2 :
  (length (queue_of st userId) + length adds ≤ 50)%nat →
  (∀ a, a ∈ adds → now2 - a.2 < 60000) →
  map payload (getCallSignals (enqueue_all st userId adds) now2 userId).1
  = map payload
      (List.filter (fun s => unread s && fresh now2 s) (queue_of st userId))
    ++ adds.
Proof.
  intros Hroom Hfresh.
  rewrite getCallSignals_payloads, queue_of_enqueue_all_room by done.
  rewrite List.filter_app, map_app. f_equal.
  clear Hroom. induction adds as [|a adds IH]; [done|].
  cbn. unfold fresh at 1. cbn.
  assert (Hlt : (now2 - a.2 <? SIGNAL_TTL) = true)
    by (apply Z.ltb_lt, Hfresh; left).
  rewrite Hlt. cbn. rewrite IH.
  - by destruct a as [[ty d] t].
  - intros a' Ha'. apply Hfresh. by right.
Qed.

End QueueMore.

(** Three candidates queued for user 9 at 1000, 1010 and 1020 are polled at
    1500 in that order. *)
Lemma X6_three_candidates_in_order :
  let adds := [("ice_candidate", VStr "a", 1000);
               ("ice_candidate", VStr "b", 1010);
               ("ice_candidate", VStr "c", 1020)] in
  map payload (getCallSignals (enqueue_all empty_state (VNum 9) adds)
                 1500 (VNum 9)).1
  = adds.
Proof.
  intros adds.
  rewrite (X6_signals_polled_in_order empty_state (VNum 9) adds 1500).
  - reflexivity.
  - vm_compute. lia.
  - intros a Ha. repeat (apply elem_of_cons in Ha as [->|Ha]; [reflexivity|]).
    by apply elem_of_nil in Ha.
Defined.

(** ** Request handlers *)

Section Handlers.

Implicit Types (st : State) (body : jsval) (decoded : option jsval).

(** X7.  A request whose token does not verify changes nothing, whatever
    else it carries: no frame is written, no signal queued, no registration
    touched.  The same holds for every call request and friend request that
    is answered with a status other than 200. *)
Theorem X7_rejected_requests_change_nothing st now body :
  ((calls_initiate st now None body).2 = st
   ∧ (calls_answer st now None body).2 = st
   ∧ (calls_ice_candidate st now None body).2 = st
   ∧ (calls_end st now None body).2 = st
   ∧ calls_poll st now None = (401, [], st)
   ∧ (∀ created g_members, (post_message st None body created g_members).2 = st)
   ∧ (∀ targetUser hasRequest isFriend fromUser,
        (friends_request st None body targetUser hasRequest isFriend fromUser).2
        = st)
   ∧ friends_accept st None body = (500, st)
   ∧ (∀ members group, groups_create st None members group = (500, st))
   ∧ (∀ group members role,
        groups_delete st None group members role = (500, st)))
  ∧ (∀ decoded,
       ((calls_initiate st now decoded body).1 ≠ 200 →
          (calls_initiate st now decoded body).2 = st)
       ∧ ((calls_answer st now decoded body).1 ≠ 200 →
          (calls_answer st now decoded body).2 = st)
       ∧ ((calls_ice_candidate st now decoded body).1 ≠ 200 →
          (calls_ice_candidate st now decoded body).2 = st)
       ∧ ((calls_end st now decoded body).1 ≠ 200 →
          (calls_end st now decoded body).2 = st)
       ∧ (∀ targetUser hasRequest isFriend fromUser,
            (friends_request st decoded body targetUser hasRequest isFriend
               fromUser).1 ≠ 200 →
            (friends_request st decoded body targetUser hasRequest isFriend
               fromUser).2 = st)).
Proof.
  split.
  - unfold calls_initiate, calls_answer, calls_ice_candidate, calls_end,
      calls_poll, post_message, friends_request, friends_accept,
      groups_create, groups_delete.
    repeat split; intros; repeat (destruct (_ || _) || destruct (negb _)
                                  || destruct (_ && _)); reflexivity.
  - intros decoded.
    unfold calls_initiate, calls_answer, calls_ice_candidate, calls_end,
      friends_request.
    repeat split; intros; destruct decoded;
      repeat match goal with
             | |- context [if ?b then _ else _] => destruct b
             end; cbn in *; congruence.
Qed.

(** A candidate the relay has normalised always has an [sdpMLineIndex]
    field, so the client's test for a malformed candidate never fires on
    it. *)
Lemma validCandidate_never_malformed cand :
  malformed_candidate (validCandidate cand) = false.
Proof.
  unfold malformed_candidate.
  destruct (validCandidate_fields cand) as (_ & _ & ->).
  destruct (strict_eq (get cand "sdpMLineIndex") VUndef) eqn:H; cbn [negb].
  - by rewrite !andb_false_r.
  - by rewrite H, !andb_false_r.
Qed.

Lemma poll_signal_ice_candidate cap c (s : Signal) :
  sig_type s = "ice_candidate" →
  poll_signal cap c s = on_ice_candidate c (sig_data s).
Proof. unfold poll_signal. intros ->. reflexivity. Qed.

Lemma nullish_truthy (v : jsval) : truthy v = true → nullish v = false.
Proof. by destruct v. Qed.

(** The constructor refuses a normalised candidate exactly when the posted
    one had no [sdpMid] and no [sdpMLineIndex]. *)
Lemma validCandidate_raises cand :
  RTCIceCandidate_raises (validCandidate cand)
  = negb (truthy (get cand "sdpMid")
          || negb (nullish (get cand "sdpMLineIndex"))).
Proof.
  change (RTCIceCandidate_raises (validCandidate cand))
    with (nullish (get (validCandidate cand) "sdpMid")
          && nullish (get (validCandidate cand) "sdpMLineIndex")).
  destruct (validCandidate_fields cand) as (_ & -> & ->).
  assert (Hmid : nullish (or_ (get cand "sdpMid") VNull)
                 = negb (truthy (get cand "sdpMid"))).
  { unfold or_. destruct (truthy (get cand "sdpMid")) eqn:H; [|done].
    by rewrite nullish_truthy. }
  assert (Hidx : nullish (if negb (strict_eq (get cand "sdpMLineIndex") VUndef)
                          then get cand "sdpMLineIndex" else VNull)
                 = nullish (get cand "sdpMLineIndex"))
    by (by destruct (get cand "sdpMLineIndex")).
  rewrite Hmid, Hidx.
  destruct (truthy (get cand "sdpMid")),
    (nullish (get cand "sdpMLineIndex")); reflexivity.
Qed.

(** X9.  Relay and poll compose.  A candidate the relay accepts is queued in
    its normalised form and the target's next poll within 60 s returns it.
    The poll handler of a client that has a peer connection hands exactly
    that candidate to the connection when the posted candidate had an
    [sdpMid] or an [sdpMLineIndex].  A candidate that had only its
    [candidate] string is relayed and polled all the same, with both ids
    [null]: the [RTCIceCandidate] constructor refuses it and the client is
    left as it was. *)
Theorem X9_relayed_candidate_reaches_peer st now sender body now2 :
  let cand := get body "candidate" in
  let target := toInt (get body "to") in
  let st' := (calls_ice_candidate st now (Some sender) body).2 in
  truthy (get body "token") = true → truthy (get body "to") = true →
  truthy cand = true →
  truthy (get cand "candidate") || truthy (get cand "sdpMid")
  || negb (strict_eq (get cand "sdpMLineIndex") VUndef
           || strict_eq (get cand "sdpMLineIndex") VNull) = true →
  now2 - now < 60000 →
  ∃ s, s ∈ (getCallSignals st' now2 target).1
     ∧ payload s = ("ice_candidate", validCandidate cand, now)
     ∧ ∀ c p, connectionRef (refs c) = ConnPeer p →
         let c' := receive_poll c [s] in
         if truthy (get cand "sdpMid")
            || negb (nullish (get cand "sdpMLineIndex"))
         then log c' = log c ++ [IceCandidateAdded (validCandidate cand)]
              ∧ ∃ p', connectionRef (refs c') = ConnPeer p'
                    ∧ iceCandidates p'
                      = iceCandidates p ++ [validCandidate cand]
         else c' = c.
Proof.
  intros cand target st' Htok Hto Hcand Hfields Hage.
  pose proof (calls_ice_candidate_forwards st now (Some sender) body) as Hfw.
  cbn zeta in Hfw. fold cand target st' in Hfw.
  rewrite Htok, Hto, Hcand, Hfields in Hfw.
  rewrite bool_decide_true in Hfw by eauto. cbn [andb] in Hfw.
  destruct (addCallSignal_on_offer
              (sendEvent st target "ice_candidate" (validCandidate cand)).2
              now target "ice_candidate" (validCandidate cand) [] now2)
    as (s & Hin & Hpay).
  { cbn. lia. }
  { exact Hage. }
  cbn [enqueue_all foldl] in Hin. rewrite <- Hfw in Hin.
  exists s. split; [exact Hin|]. split; [exact Hpay|].
  intros c p Hconn c'. subst c'.
  unfold receive_poll, pollCalls. cbn [foldl].
  unfold payload in Hpay. injection Hpay as Hty Hda _.
  rewrite poll_signal_ice_candidate, Hda by done.
  unfold on_ice_candidate. rewrite Hconn. cbn [conn_truthy].
  change (truthy (validCandidate cand)) with true.
  change (strict_eq (validCandidate cand) VNull) with false.
  change (strict_eq (validCandidate cand) VUndef) with false.
  rewrite validCandidate_never_malformed, validCandidate_raises.
  cbn [andb orb].
  destruct (truthy (get cand "sdpMid")
            || negb (nullish (get cand "sdpMLineIndex"))); cbn [negb];
    [|reflexivity].
  unfold addIceCandidate. rewrite Hconn. cbn.
  split; [done|]. eexists. split; reflexivity.
Qed.

Lemma deliveries_cons st (n : Z) (ids : list Z) frame :
  deliveries st (n :: ids) frame
  = match clients st !! pretty n with
    | Some c => (c, frame) :: deliveries st ids frame
    | None => deliveries st ids frame
    end.
Proof. unfold deliveries. cbn. by destruct (clients st !! pretty n). Qed.

(** Pushes to a list of numeric ids when no stream is broken: each
    registered id gets one frame, in order. *)
Lemma sendEvent_each st (ids : list Z) type data :
  broken st = ∅ →
  foldl (fun s n => (sendEvent s (VNum n) type data).2) st ids
  = written st (deliveries st ids (eventPayload type data)).
Proof.
  intros Hb.
  assert (Hgen : ∀ fs,
    foldl (fun s n => (sendEvent s (VNum n) type data).2) (written st fs) ids
    = written st (fs ++ deliveries st ids (eventPayload type data))).
  { induction ids as [|n ids IH]; intros fs.
    - cbn. by rewrite app_nil_r.
    - cbn [foldl]. rewrite deliveries_cons.
      destruct (clients st !! pretty n) as [c|] eqn:Hc.
      + rewrite (sendEvent_delivers (written st fs) n c).
        * cbn [snd].
          replace (push_wire (written st fs) c (eventPayload type data))
            with (written st (fs ++ [(c, eventPayload type data)])).
          -- rewrite IH, <- app_assoc. reflexivity.
          -- unfold push_wire, written. cbn. by rewrite app_assoc.
        * exact Hc.
        * cbn. rewrite Hb. apply not_elem_of_empty.
      + rewrite (sendEvent_unregistered (written st fs) n) by exact Hc.
        cbn [snd]. apply IH. }
  specialize (Hgen []).
  replace (written st []) with st in Hgen; [exact Hgen|].
  destruct st. unfold written. cbn. by rewrite app_nil_r.
Qed.

Lemma sendEvent_members st (ms : list jsval) (ids : list Z) type data :
  Forall2 (fun m n => member_id m = VNum n) ms ids →
  foldl (fun s m => (sendEvent s (member_id m) type data).2) st ms
  = foldl (fun s n => (sendEvent s (VNum n) type data).2) st ids.
Proof.
  intros H. revert st. induction H as [|m n ms ids Hm _ IH]; intros st.
  - done.
  - cbn [foldl]. by rewrite Hm, IH.
Qed.

(** The members [Group.findById] hands out carry the ids of their rows. *)
Lemma Group_members_ids (users : list jsval) (ids : list Z) :
  Forall2 (fun u n => get u "id" = VNum n) users ids →
  Forall2 (fun m n => member_id m = VNum n) (Group_members users) ids.
Proof.
  unfold Group_members. induction 1 as [|u n users ids Hu _ IH]; cbn.
  - constructor.
  - assert (Ht : truthy u = true)
      by (destruct u; try discriminate; reflexivity).
    rewrite Ht. cbn [fmap list_fmap]. constructor; [|exact IH].
    change (member_id (formatMember u))
      with (toInt (or_ (get u "id") (get u "id"))).
    unfold or_. rewrite Hu. by destruct (truthy (VNum n)).
Qed.

(** X10.  Fan-out of a chat message when no stream is broken.  For a group
    message every member that has a registration gets exactly one
    [receive_message] frame, in the order of the member list, and nobody
    else gets one (so the sender only as a member): this holds for the
    member objects that [Group.findById] returns, whose [id] is the id of
    the user row, and for any member list whose entries yield numeric ids.
    For a direct message the recipient's registration gets the frame first
    and the sender's second.  Ids without a registration are skipped;
    registry and queues are as before. *)
Theorem X10_message_fanout st msg :
  broken st = ∅ →
  let frame := eventPayload "receive_message" msg in
  (∀ g (users : list jsval) (ids : list Z) r sd, g ≠ 0 →
     Forall2 (fun u n => get u "id" = VNum n) users ids →
     message_dispatch st (VNum g) (Some (Group_members users)) r sd msg
     = written st (deliveries st ids frame))
  ∧ (∀ g (ms : list jsval) (ids : list Z) r sd, g ≠ 0 →
       Forall2 (fun m n => member_id m = VNum n) ms ids →
       message_dispatch st (VNum g) (Some ms) r sd msg
       = written st (deliveries st ids frame))
  ∧ (∀ g r sd, g ≠ 0 → message_dispatch st (VNum g) None r sd msg = st)
  ∧ (∀ g_members r sd, r ≠ 0 →
       message_dispatch st VNull g_members (VNum r) (VNum sd) msg
       = written st (deliveries st [r; sd] frame)).
Proof.
  intros Hb frame.
  assert (Hgroup : ∀ g (ms : list jsval) (ids : list Z) r sd, g ≠ 0 →
            Forall2 (fun m n => member_id m = VNum n) ms ids →
            message_dispatch st (VNum g) (Some ms) r sd msg
            = written st (deliveries st ids frame)).
  { intros g ms ids r sd Hg Hms. unfold message_dispatch.
    assert (Ht : truthy (VNum g) = true)
      by (cbn; by apply negb_true_iff, Z.eqb_neq).
    rewrite Ht.
    rewrite (sendEvent_members st ms ids "receive_message" msg Hms).
    by apply (sendEvent_each st ids "receive_message" msg). }
  split; [|split; [|split]].
  - intros g users ids r sd Hg Hu. apply Hgroup; [done|].
    by apply Group_members_ids.
  - exact Hgroup.
  - intros g r sd Hg. unfold message_dispatch.
    assert (Ht : truthy (VNum g) = true)
      by (cbn; by apply negb_true_iff, Z.eqb_neq).
    by rewrite Ht.
  - intros g_members r sd Hr. unfold message_dispatch.
    assert (Ht : truthy (VNum r) = true)
      by (cbn; by apply negb_true_iff, Z.eqb_neq).
    cbn [truthy]. cbn [truthy] in Ht. rewrite Ht.
    by apply (sendEvent_each st [r; sd] "receive_message" msg).
Qed.

Lemma parseInt_is_number v : is_number (parseInt v) = true.
Proof.
  unfold parseInt, parseInt_radix.
  repeat case_match; reflexivity.
Qed.

Lemma same_value_zero_numbers a b :
  is_number a = true → is_number b = true →
  same_value_zero a b = true ↔ a = b.
Proof.
  destruct a, b; cbn; try done.
  - intros _ _. rewrite Z.eqb_eq. split; congruence.
Qed.

Lemma existsb_same_value_zero x (seen : list jsval) :
  is_number x = true → Forall (fun y => is_number y = true) seen →
  existsb (same_value_zero x) seen = true ↔ x ∈ seen.
Proof.
  intros Hx Hseen. rewrite existsb_exists. split.
  - intros (y & Hy & Heq). apply list_elem_of_In in Hy.
    apply same_value_zero_numbers in Heq as ->; [done|done|].
    by eapply Forall_forall in Hseen.
  - intros Hin. exists x. split; [by apply list_elem_of_In|].
    by apply same_value_zero_numbers.
Qed.

Lemma Set_values_spec (seen l : list jsval) :
  Forall (fun y => is_number y = true) seen →
  Forall (fun y => is_number y = true) l →
  NoDup seen →
  NoDup (Set_values seen l)
  ∧ (∀ x, x ∈ Set_values seen l ↔ x ∈ seen ∨ x ∈ l)
  ∧ seen `prefix_of` Set_values seen l.
Proof.
  revert seen. induction l as [|x l IH]; intros seen Hseen Hl Hnd.
  - cbn. split; [done|]. split; [|done]. intros x. split; [by left|].
    intros [H|H]; [done | by apply elem_of_nil in H].
  - apply Forall_cons in Hl as [Hx Hl]. cbn [Set_values].
    destruct (existsb (same_value_zero x) seen) eqn:He.
    + apply existsb_same_value_zero in He; [|done|done].
      destruct (IH seen Hseen Hl Hnd) as (H1 & H2 & H3).
      split; [done|]. split; [|done].
      intros y. rewrite H2, elem_of_cons.
      split; [intros [?|?]; auto | intros [?|[->|?]]; auto].
    + assert (Hnin : x ∉ seen).
      { intros Hin. apply existsb_same_value_zero in Hin; [|done|done].
        congruence. }
      destruct (IH (seen ++ [x])) as (H1 & H2 & H3).
      * apply Forall_app. split; [done|]. by apply Forall_singleton.
      * done.
      * apply NoDup_app. split; [done|]. split; [|apply NoDup_singleton].
        intros y Hy ->%list_elem_of_singleton. done.
      * split; [done|]. split.
        -- intros y.
           rewrite H2, elem_of_app, list_elem_of_singleton, elem_of_cons.
           tauto.
        -- etransitivity; [|exact H3]. by apply prefix_app_r.
Qed.

(** X11.  The members a new group is announced to: the ids of the request
    and the creator's id, each read as an integer, without repetition and in
    the order of their first occurrence.  A member listed twice, or the
    creator listed among the members, is notified once; a safe integer id
    given as a decimal string and the same id given as a number count as
    one. *)
Theorem X11_group_members_notified_once (members : list jsval)
    (adminId : jsval) :
  NoDup (allMembers members adminId)
  ∧ (∀ x, x ∈ allMembers members adminId
          ↔ ∃ m, m ∈ members ++ [adminId] ∧ x = parseInt m)
  ∧ (∀ n : Z, safe_integer n →
       VStr (pretty n) ∈ members ∨ VNum n ∈ members ∨
       adminId = VNum n ∨ adminId = VStr (pretty n) →
       VNum n ∈ allMembers members adminId)
  ∧ (∀ st group,
       (groups_create st (Some adminId) members group).2
       = foldl (fun acc m => (sendEvent acc m "group_created" group).2) st
           (allMembers members adminId)).
Proof.
  assert (Hnum : Forall (fun y => is_number y = true)
                   (map parseInt (members ++ [adminId]))).
  { apply Forall_forall. intros y (m & -> & _)%list_elem_of_fmap.
    apply parseInt_is_number. }
  destruct (Set_values_spec [] (map parseInt (members ++ [adminId])))
    as (Hnd & Hin & _); [done|done|apply NoDup_nil_2|].
  assert (Hmem : ∀ x, x ∈ allMembers members adminId
                      ↔ ∃ m, m ∈ members ++ [adminId] ∧ x = parseInt m).
  { intros x. unfold allMembers. rewrite Hin. rewrite list_elem_of_fmap.
    split.
    - intros [H|(m & -> & Hm)]; [by apply elem_of_nil in H|eauto].
    - intros (m & Hm & ->). right. eauto. }
  split; [exact Hnd|]. split; [exact Hmem|]. split; [|done].
  intros n _ Hn. apply Hmem.
  assert (Hs : parseInt (VStr (pretty n)) = VNum n)
    by apply (parseInt_radix_pretty true).
  assert (Hz : parseInt (VNum n) = VNum n)
    by apply (parseInt_radix_pretty true).
  destruct Hn as [H|[H|[->| ->]]].
  - exists (VStr (pretty n)). split; [apply elem_of_app; by left|done].
  - exists (VNum n). split; [apply elem_of_app; by left|done].
  - exists (VNum n).
    split; [apply elem_of_app; right; by apply list_elem_of_singleton|done].
  - exists (VStr (pretty n)).
    split; [apply elem_of_app; right; by apply list_elem_of_singleton|done].
Qed.

End Handlers.

(** A candidate with all three fields, sent to user 9 at 2000, reaches the
    peer connection of user 9's client through the poll at 2100; one with
    its candidate string only is polled as well and not handed over. *)
Lemma X9_candidate_via_poll :
  let full := VObj [("candidate", VStr "candidate:1 1 UDP 1 192.0.2.1 9 typ host");
                    ("sdpMid", VStr "0"); ("sdpMLineIndex", VNum 0)] in
  let bare := VObj [("candidate", VStr "candidate:1 1 UDP 1 192.0.2.1 9 typ host")] in
  let body cand :=
    VObj [("token", VStr "t"); ("to", VNum 9); ("candidate", cand)] in
  let st' cand :=
    (calls_ice_candidate empty_state 2000 (Some (VNum 5)) (body cand)).2 in
  (∃ s, s ∈ (getCallSignals (st' full) 2100 (VNum 9)).1
      ∧ log (receive_poll (got_media 1 mount) [s]) = [IceCandidateAdded full])
  ∧ (∃ s, s ∈ (getCallSignals (st' bare) 2100 (VNum 9)).1
        ∧ receive_poll (got_media 1 mount) [s] = got_media 1 mount).
Proof.
  intros full bare body st'. split.
  - destruct (X9_relayed_candidate_reaches_peer empty_state 2000 (VNum 5)
                (body full) 2100 eq_refl eq_refl eq_refl eq_refl eq_refl)
      as (s & Hin & _ & Happly).
    exists s. split; [exact Hin|].
    destruct (Happly (got_media 1 mount) new_peer eq_refl) as [Hlog _].
    exact Hlog.
  - destruct (X9_relayed_candidate_reaches_peer empty_state 2000 (VNum 5)
                (body bare) 2100 eq_refl eq_refl eq_refl eq_refl eq_refl)
      as (s & Hin & _ & Happly).
    exists s. split; [exact Hin|].
    exact (Happly (got_media 1 mount) new_peer eq_refl).
Defined.

(** Users 1 and 2 are connected on streams 11 and 12, user 3 is not: a
    message for the group whose member rows are those of users 1, 3 and 2
    is written to 11, then to 12. *)
Lemma X10_group_of_three :
  let st := register (register empty_state (VNum 1) 11%nat) (VNum 2) 12%nat in
  let row (n : Z) (name : string) :=
    VObj [("id", VNum n); ("username", VStr name); ("role", VStr "user")] in
  let users := [row 1 "ann"; row 3 "cy"; row 2 "bob"] in
  wire (message_dispatch st (VNum 4) (Some (Group_members users))
          VNull (VNum 1) (VStr "hi"))
  = [(11%nat, eventPayload "receive_message" (VStr "hi"));
     (12%nat, eventPayload "receive_message" (VStr "hi"))].
Proof.
  intros st row users.
  destruct (X10_message_fanout st (VStr "hi") eq_refl) as [H _].
  rewrite (H 4 users [1; 3; 2] VNull (VNum 1)).
  - reflexivity.
  - lia.
  - repeat constructor.
Defined.

Lemma invalid_candidate_posted_neg cand :
  negb (invalid_candidate (validCandidate cand))
  = truthy (get cand "candidate") || truthy (get cand "sdpMid")
    || negb (strict_eq (get cand "sdpMLineIndex") VUndef
             || strict_eq (get cand "sdpMLineIndex") VNull).
Proof.
  rewrite invalid_candidate_posted.
  by destruct (truthy _), (truthy _), (_ || _).
Qed.

(** An offer handled with the view of the first render is recorded. *)
Lemma call_user_recorded c from name signal :
  effect_view c = initial_view →
  let c' := on_call_user (effect_view c) c from name signal in
  receivingCall (st c') = true ∧ caller (st c') = from
  ∧ callerSignal (st c') = signal ∧ callTargetRef (refs c') = from
  ∧ callStatus (st c')
    = String.append
        (String_ (or_ (or_ name (get signal "name")) (VStr "Someone")))
        " is calling..."
  ∧ effect_view c' = initial_view.
Proof.
  intros Hview. rewrite Hview. unfold on_call_user. cbn.
  rewrite andb_false_r. cbn. by repeat split.
Qed.

(** ** The relay's filter and the shape of pushed frames *)

Section Frames.

Implicit Types (st : State) (c : Client).

(** X8.  What the candidate relay does with a request.  It forwards the
    candidate, normalised, by push and by queue, exactly when the request
    has a token, a target and a candidate, the token verifies, and the
    candidate has a [candidate] string, an [sdpMid] or an [sdpMLineIndex];
    in every other case the state is untouched.  A request without
    candidate is answered 200 before the token is looked at, and a candidate
    without any of the three fields is dropped with status 200 as well. *)
Theorem X8_relay_candidate_filter st now decoded body :
  let cand := get body "candidate" in
  let forwarded :=
    truthy (get body "token") && truthy (get body "to") && truthy cand
    && bool_decide (is_Some decoded)
    && (truthy (get cand "candidate") || truthy (get cand "sdpMid")
        || negb (strict_eq (get cand "sdpMLineIndex") VUndef
                 || strict_eq (get cand "sdpMLineIndex") VNull)) in
  let res := calls_ice_candidate st now decoded body in
  (if forwarded
   then res.2 = addCallSignal
                  (sendEvent st (toInt (get body "to")) "ice_candidate"
                     (validCandidate cand)).2
                  now (toInt (get body "to")) "ice_candidate"
                  (validCandidate cand)
   else res.2 = st)
  ∧ (forwarded = true → res.1 = 200)
  ∧ (truthy (get body "token") = true → truthy (get body "to") = true →
     truthy cand = false → res = (200, st))
  ∧ (truthy (get body "token") = true → truthy (get body "to") = true →
     is_Some decoded → forwarded = false → res = (200, st)).
Proof.
  intros cand forwarded res.
  split; [apply calls_ice_candidate_forwards|].
  subst forwarded res. unfold calls_ice_candidate. fold cand.
  rewrite <- invalid_candidate_posted_neg.
  destruct (truthy (get body "token")), (truthy (get body "to")),
    (truthy cand), decoded as [d|]; cbn [andb negb orb];
    rewrite ?bool_decide_true by eauto;
    rewrite ?bool_decide_false by (by intros [? ?]);
    cbn [andb]; destruct (invalid_candidate (validCandidate cand));
    cbn [negb]; repeat split; try done; intros; try done;
    exfalso; by eapply is_Some_None.
Qed.

(** X20.  What the push handler makes of the frames the server writes.  A
    frame is [{type, message, data}], and the handler reads the fields of
    the event from the frame itself.  So a pushed [ice_candidate] is
    ignored, in every state; a pushed [call_user] raises the ring with an
    undefined caller, offer and target and the name [Someone]; a pushed
    [end_call] does what the polled one does; a pushed [receive_message]
    leaves the call state alone.  When the poll then returns the same offer,
    the ring takes the caller and the offer from it. *)
Theorem X20_pushed_call_frames c data :
  effect_view c = initial_view →
  receive_sse c (eventPayload "ice_candidate" data) = c
  ∧ receive_sse c (eventPayload "receive_message" data) = c
  ∧ receive_sse c (eventPayload "end_call" data)
    = on_end_call (effect_view c) c
  ∧ (let c' := receive_sse c (eventPayload "call_user" data) in
     receivingCall (st c') = true ∧ caller (st c') = VUndef
     ∧ callerSignal (st c') = VUndef ∧ callTargetRef (refs c') = VUndef
     ∧ callStatus (st c') = "Someone is calling..."
     ∧ ∀ s, sig_type s = "call_user" → sig_data s = data →
         let c'' := receive_poll c' [s] in
         caller (st c'') = get data "from"
         ∧ callerSignal (st c'') = get data "signal"
         ∧ callTargetRef (refs c'') = get data "from").
Proof.
  intros Hview. split; [|split; [|split]].
  - unfold receive_sse, onmessage, eventPayload, type_is, on_ice_candidate.
    cbn. by rewrite andb_false_r.
  - reflexivity.
  - reflexivity.
  - cbn zeta.
    assert (Hc' : receive_sse c (eventPayload "call_user" data)
                  = on_call_user (effect_view c) c VUndef VUndef VUndef)
      by reflexivity.
    rewrite Hc'.
    destruct (call_user_recorded c VUndef VUndef VUndef Hview)
      as (Hr & Hc & Hs & Ht & Hst & Hev).
    split; [done|]. split; [done|]. split; [done|]. split; [done|].
    split; [done|].
    intros s Hty Hda.
    set (c1 := on_call_user (effect_view c) c VUndef VUndef VUndef) in *.
    assert (Hp : receive_poll c1 [s]
                 = on_call_user (effect_view c1) c1 (get data "from")
                     (get data "name") (get data "signal")).
    { unfold receive_poll, pollCalls, poll_signal. cbn [foldl].
      rewrite Hty, Hda. reflexivity. }
    rewrite Hp.
    destruct (call_user_recorded c1 (get data "from") (get data "name")
                (get data "signal")) as (_ & Hc2 & Hs2 & Ht2 & _).
    { by rewrite Hev. }
    done.
Qed.

End Frames.

(** The first render's client gets the pushed offer of user 5. *)
Lemma X20_pushed_offer_has_no_caller :
  caller (st (receive_sse mount
                (eventPayload "call_user"
                   (VObj [("from", VNum 5); ("name", VStr "eve")]))))
  = VUndef.
Proof.
  destruct (X20_pushed_call_frames mount
              (VObj [("from", VNum 5); ("name", VStr "eve")]) eq_refl)
    as (_ & _ & _ & _ & H & _).
  exact H.
Defined.

(** ** Push reconnection over any run of events *)

Section ReconnectMore.

Implicit Types (s : Sse) (es : list sse_event).

Lemma backoff_delay_values (a : Z) :
  1 ≤ a ≤ 5 → backoff_delay a ∈ [2000; 4000; 8000; 16000; 30000].
Proof.
  intros H.
  assert (Ha : a = 1 ∨ a = 2 ∨ a = 3 ∨ a = 4 ∨ a = 5) by lia.
  destruct Ha as [->|[->|[->|[->| ->]]]]; vm_compute backoff_delay.
  - by left.
  - right. by left.
  - do 2 right. by left.
  - do 3 right. by left.
  - do 4 right. by left.
Qed.

Lemma sse_run_snoc s es e :
  sse_run s (es ++ [e]) = sse_step (sse_run s es) e.
Proof. unfold sse_run. by rewrite foldl_snoc. Qed.

Lemma schedule_reconnect_cases s :
  (reconnectAttempts s < 5
   ∧ reconnectAttempts (schedule_reconnect s) = reconnectAttempts s + 1
   ∧ scheduled (schedule_reconnect s)
     = scheduled s ++ [backoff_delay (reconnectAttempts s + 1)])
  ∨ (5 ≤ reconnectAttempts s ∧ schedule_reconnect s = s).
Proof.
  unfold schedule_reconnect, maxReconnectAttempts.
  destruct (reconnectAttempts s <? 5) eqn:Hlt.
  - apply Z.ltb_lt in Hlt. left. by repeat split.
  - apply Z.ltb_ge in Hlt. right. by split.
Qed.

Lemma sse_step_cases s e :
  (e = SseOpen ∧ reconnectAttempts (sse_step s e) = 0
   ∧ scheduled (sse_step s e) = scheduled s)
  ∨ (e ≠ SseOpen ∧ sse_step s e = s)
  ∨ (e ≠ SseOpen ∧ reconnectAttempts s < 5
     ∧ reconnectAttempts (sse_step s e) = reconnectAttempts s + 1
     ∧ scheduled (sse_step s e)
       = scheduled s ++ [backoff_delay (reconnectAttempts s + 1)]).
Proof.
  destruct e as [|rs|].
  - left. by repeat split.
  - right. destruct rs; cbn; [by left | by left |].
    destruct (schedule_reconnect_cases s) as [(? & ? & ?)|[? ?]];
      [right | left]; by repeat split.
  - right. cbn.
    destruct (schedule_reconnect_cases s) as [(? & ? & ?)|[? ?]];
      [right | left]; by repeat split.
Qed.

Lemma sse_run_bounds s es :
  0 ≤ reconnectAttempts s ≤ 5 →
  (∀ d, d ∈ scheduled s → d ∈ [2000; 4000; 8000; 16000; 30000]) →
  let s' := sse_run s es in
  0 ≤ reconnectAttempts s' ≤ 5
  ∧ (∀ d, d ∈ scheduled s' → d ∈ [2000; 4000; 8000; 16000; 30000])
  ∧ (length (scheduled s') ≤ length (scheduled s) + length es)%nat
  ∧ scheduled s `prefix_of` scheduled s'.
Proof.
  intros Ha Hd. induction es as [|e es IH] using rev_ind.
  - cbn. split; [done|]. split; [done|]. split; [lia|done].
  - cbn zeta in *. rewrite sse_run_snoc, length_app. cbn [length].
    destruct IH as (IHa & IHd & IHl & IHp).
    destruct (sse_step_cases (sse_run s es) e)
      as [(_ & -> & ->)|[(_ & ->)|(_ & Hlt & -> & ->)]].
    + split; [lia|]. split; [done|]. split; [lia|done].
    + split; [lia|]. split; [done|]. split; [lia|done].
    + split; [lia|]. split; [|split].
      * intros d [Hin|Hin%list_elem_of_singleton]%elem_of_app; [by apply IHd|].
        subst d. apply backoff_delay_values. lia.
      * rewrite length_app. cbn [length]. lia.
      * etransitivity; [exact IHp|]. by apply prefix_app_r.
Qed.

Lemma sse_run_without_open s es :
  SseOpen ∉ es →
  Z.of_nat (length (scheduled (sse_run s es))) - reconnectAttempts (sse_run s es)
  = Z.of_nat (length (scheduled s)) - reconnectAttempts s.
Proof.
  induction es as [|e es IH] using rev_ind; intros Hno; [done|].
  rewrite sse_run_snoc.
  assert (He : e ≠ SseOpen).
  { intros ->. apply Hno, elem_of_app. right. by left. }
  assert (Hes : SseOpen ∉ es).
  { intros Hin. apply Hno, elem_of_app. by left. }
  specialize (IH Hes).
  destruct (sse_step_cases (sse_run s es) e)
    as [(-> & _)|[(_ & ->)|(_ & Hlt & -> & ->)]]; [done|done|].
  rewrite length_app. cbn [length]. lia.
Qed.

(** X12.  Whatever happens to the push subscription, in any order: the
    attempt counter stays between 0 and 5, every reconnection is scheduled
    after 2, 4, 8, 16 or 30 seconds (never sooner, never later), an event
    schedules at most one reconnection and cancels none, and no more than
    five reconnections are scheduled without a successful open in between. *)
Theorem X12_reconnect_bounds es :
  let s := sse_run sse_start es in
  0 ≤ reconnectAttempts s ≤ 5
  ∧ (∀ d, d ∈ scheduled s → d ∈ [2000; 4000; 8000; 16000; 30000])
  ∧ (length (scheduled s) ≤ length es)%nat
  ∧ (∀ es', scheduled s `prefix_of` scheduled (sse_run s es'))
  ∧ (∀ es', SseOpen ∉ es' →
       (length (scheduled (sse_run s es')) ≤ length (scheduled s) + 5)%nat).
Proof.
  intros s.
  destruct (sse_run_bounds sse_start es) as (Ha & Hd & Hl & _).
  { cbn. lia. }
  { intros d Hd. by apply elem_of_nil in Hd. }
  fold s in Ha, Hd, Hl. cbn [scheduled sse_start length] in Hl.
  split; [done|]. split; [done|]. split; [lia|]. split.
  - intros es'. by destruct (sse_run_bounds s es' Ha Hd) as (_ & _ & _ & Hp).
  - intros es' Hno.
    pose proof (sse_run_without_open s es' Hno) as Heq.
    destruct (sse_run_bounds s es' Ha Hd) as (Ha' & _).
    cbn zeta in Ha'. lia.
Qed.

End ReconnectMore.

(** ** Call polling over time *)

Section PollingMore.

Variable check_first : bool.
Variable env : Z → bool * bool.
Variable t0 : Z.

Lemma fire_poll_polled p x :
  x ∈ polled p → x ∈ polled (fire_poll p).
Proof.
  unfold fire_poll. destruct (pollDue p =? clock p); [|done].
  cbn. intros H. apply elem_of_app. by left.
Qed.

Lemma fire_check_polled refs p : polled (fire_check refs p) = polled p.
Proof. unfold fire_check. by destruct (checkDue p =? clock p). Qed.

Lemma tick_polled refs p x :
  x ∈ polled p → x ∈ polled (tick check_first refs p).
Proof.
  intros H. unfold tick. destruct check_first.
  - apply fire_poll_polled. by rewrite fire_check_polled.
  - rewrite fire_check_polled. by apply fire_poll_polled.
Qed.

(** From the first re-evaluation at which a call is active or ringing on,
    the poll timer set at each re-evaluation is due 500 ms later, and once
    it has fired, at the next re-evaluation. *)
Lemma active_pollDue (j : Z) (n : nat) :
  0 ≤ j → (∀ t, t0 + 1000 * j ≤ t → (env t).1 || (env t).2 = true) →
  1000 * j ≤ Z.of_nat n →
  pollDue (poll_run check_first env t0 n)
  = last_update t0 n + (if Z.of_nat n mod 1000 <? 500 then 500 else 1000).
Proof.
  intros Hj Hact. induction n as [|n IH]; intros Hn.
  - cbn. unfold poll_interval. rewrite Hact by lia. unfold last_update.
    change (Z.of_nat 0 / 1000) with 0. change (Z.of_nat 0 mod 1000) with 0.
    cbn. lia.
  - destruct (poll_run_invariant check_first env t0 n)
      as (Hclock & Hcheck & Hperiod).
    cbn zeta in Hclock, Hcheck, Hperiod.
    cbn [poll_run]. set (p := poll_run check_first env t0 n) in *.
    set (refs := env (t0 + Z.of_nat (S n))).
    assert (Hrefs : poll_interval refs.1 refs.2 = 500)
      by (unfold poll_interval; subst refs; rewrite Hact by lia; done).
    assert (Hpp : pollPeriod p = 500 ∨ pollPeriod p = 2000).
    { rewrite Hperiod. unfold poll_interval. destruct (_ || _); auto. }
    assert (Hp500 : 1000 * j ≤ Z.of_nat n → pollPeriod p = 500).
    { intros Hle. rewrite Hperiod. unfold poll_interval, last_update.
      rewrite Hact; [done|].
      assert (j ≤ Z.of_nat n / 1000) by (apply Z.div_le_lower_bound; lia).
      lia. }
    clear Hperiod.
    unfold last_update in *.
    assert (Hsn : Z.of_nat (S n) = Z.of_nat n + 1) by lia.
    assert (Hcases :
      (Z.of_nat (S n) mod 1000 = 0
       ∧ Z.of_nat n mod 1000 = 999
       ∧ Z.of_nat (S n) / 1000 = Z.of_nat n / 1000 + 1)
      ∨ (Z.of_nat (S n) mod 1000 = Z.of_nat n mod 1000 + 1
         ∧ Z.of_nat (S n) / 1000 = Z.of_nat n / 1000)).
    { rewrite Hsn. Z.to_euclidean_division_equations. lia. }
    assert (Hmod : 0 ≤ Z.of_nat n mod 1000 < 1000)
      by (apply Z.mod_pos_bound; lia).
    assert (Hmod' : 0 ≤ Z.of_nat (S n) mod 1000 < 1000)
      by (apply Z.mod_pos_bound; lia).
    assert (Hdm : Z.of_nat n = 1000 * (Z.of_nat n / 1000) + Z.of_nat n mod 1000)
      by (apply Z.div_mod; lia).
    assert (Hdm' : Z.of_nat (S n)
                   = 1000 * (Z.of_nat (S n) / 1000) + Z.of_nat (S n) mod 1000)
      by (apply Z.div_mod; lia).
    set (q := Z.of_nat n / 1000) in *. set (m := Z.of_nat n mod 1000) in *.
    set (q' := Z.of_nat (S n) / 1000) in *.
    set (m' := Z.of_nat (S n) mod 1000) in *.
    assert (Hdue : 1000 * j ≤ Z.of_nat n →
                   pollDue p = t0 + 1000 * q + (if m <? 500 then 500 else 1000))
      by exact IH.
    clear IH.
    assert (Hstart : Z.of_nat n < 1000 * j → m' = 0) by lia.
    destruct (decide (1000 * j ≤ Z.of_nat n)) as [Hold|Hnew];
      [specialize (Hdue Hold); specialize (Hp500 Hold)
      | specialize (Hstart ltac:(lia)); clear Hdue Hp500];
      unfold tick, fire_check, fire_poll, updatePollInterval;
      destruct check_first;
        cbn [clock checkDue pollPeriod pollDue polled];
        repeat match goal with
               | |- context [if ?a =? ?b then _ else _] =>
                   let E := fresh "E" in
                   destruct (a =? b) eqn:E;
                   [apply Z.eqb_eq in E | apply Z.eqb_neq in E];
                   cbn [clock checkDue pollPeriod pollDue polled] in *
               end;
        rewrite ?Hrefs;
        repeat match goal with
               | |- context [if ?a <? ?b then _ else _] =>
                   let E := fresh "E" in
                   destruct (a <? b) eqn:E;
                   [apply Z.ltb_lt in E | apply Z.ltb_ge in E]
               | H : context [if ?a <? ?b then _ else _] |- _ =>
                   let E := fresh "E" in
                   destruct (a <? b) eqn:E;
                   [apply Z.ltb_lt in E | apply Z.ltb_ge in E]
               end; lia.
Qed.

Lemma active_polled (j : Z) (n : nat) (k : Z) :
  0 ≤ j → (∀ t, t0 + 1000 * j ≤ t → (env t).1 || (env t).2 = true) →
  j ≤ k → 1000 * k + 500 ≤ Z.of_nat n →
  t0 + 1000 * k + 500 ∈ polled (poll_run check_first env t0 n).
Proof.
  intros Hj Hact Hk. induction n as [|n IH]; intros Hle; [cbn in Hle; lia|].
  destruct (decide (1000 * k + 500 ≤ Z.of_nat n)) as [Hold|Hnew].
  { cbn [poll_run]. apply tick_polled. by apply IH. }
  clear IH.
  assert (Hk' : Z.of_nat n = 1000 * k + 499) by lia.
  pose proof (active_pollDue j n Hj Hact ltac:(lia)) as Hdue.
  destruct (poll_run_invariant check_first env t0 n) as (Hclock & Hcheck & _).
  cbn zeta in Hclock, Hcheck. unfold last_update in *.
  assert (Hq : Z.of_nat n / 1000 = k ∧ Z.of_nat n mod 1000 = 499).
  { rewrite Hk'. Z.to_euclidean_division_equations. lia. }
  destruct Hq as [Hq Hm]. rewrite Hq in Hdue, Hcheck. rewrite Hm in Hdue.
  change (499 <? 500) with true in Hdue. cbv iota in Hdue.
  cbn [poll_run]. set (p := poll_run check_first env t0 n) in *.
  unfold tick, fire_check, fire_poll, updatePollInterval.
  destruct check_first; cbn [clock checkDue pollPeriod pollDue polled].
  - rewrite (proj2 (Z.eqb_neq (checkDue p) (clock p + 1))) by lia.
    cbn [clock checkDue pollPeriod pollDue polled].
    rewrite (proj2 (Z.eqb_eq (pollDue p) (clock p + 1))) by lia.
    cbn [polled]. apply elem_of_app. right.
    apply list_elem_of_singleton. lia.
  - rewrite (proj2 (Z.eqb_eq (pollDue p) (clock p + 1))) by lia.
    cbn [clock checkDue pollPeriod pollDue polled].
    rewrite (proj2 (Z.eqb_neq (checkDue p) (clock p + 1))) by lia.
    cbn [polled]. apply elem_of_app. right.
    apply list_elem_of_singleton. lia.
Qed.

(** When the re-evaluation runs before a poll timer due in the same
    millisecond, the polls of an active call come half a second after the
    re-evaluations and at no other time. *)
Lemma active_polled_only_at_half (j : Z) (n : nat) (x : Z) :
  check_first = true →
  0 ≤ j → (∀ t, t0 + 1000 * j ≤ t → (env t).1 || (env t).2 = true) →
  x ∈ polled (poll_run check_first env t0 n) →
  x ≤ t0 + 1000 * j ∨ (x - t0) mod 1000 = 500.
Proof.
  intros Hcf Hj Hact. induction n as [|n IH].
  - cbn. intros ->%list_elem_of_singleton. left. lia.
  - pose proof (active_pollDue j n Hj Hact) as Hdue.
    destruct (poll_run_invariant check_first env t0 n)
      as (Hclock & Hcheck & _).
    cbn zeta in Hclock, Hcheck. unfold last_update in *.
    assert (Hmod : 0 ≤ Z.of_nat n mod 1000 < 1000)
      by (apply Z.mod_pos_bound; lia).
    assert (Hdm : Z.of_nat n = 1000 * (Z.of_nat n / 1000) + Z.of_nat n mod 1000)
      by (apply Z.div_mod; lia).
    cbn [poll_run]. set (p := poll_run check_first env t0 n) in *.
    set (refs := env (t0 + Z.of_nat (S n))).
    assert (Hint : poll_interval refs.1 refs.2 = 500
                   ∨ poll_interval refs.1 refs.2 = 2000)
      by (unfold poll_interval; destruct (_ || _); auto).
    unfold tick. rewrite Hcf. unfold fire_check, fire_poll, updatePollInterval.
    cbn [clock checkDue pollPeriod pollDue polled].
    destruct (checkDue p =? clock p + 1) eqn:Ec;
      [apply Z.eqb_eq in Ec | apply Z.eqb_neq in Ec];
      cbn [clock checkDue pollPeriod pollDue polled].
    + rewrite (proj2 (Z.eqb_neq (clock p + 1 + poll_interval refs.1 refs.2)
                        (clock p + 1))) by lia.
      exact IH.
    + destruct (pollDue p =? clock p + 1) eqn:Ep;
        [apply Z.eqb_eq in Ep | exact IH].
      cbn [polled].
      intros [Hx|Hx%list_elem_of_singleton]%elem_of_app; [by apply IH|].
      subst x.
      destruct (decide (1000 * j ≤ Z.of_nat n)) as [Hold|Hnew]; [|left; lia].
      right. specialize (Hdue Hold).
      set (q := Z.of_nat n / 1000) in *. set (m := Z.of_nat n mod 1000) in *.
      destruct (m <? 500) eqn:Em; [|lia].
      replace (clock p + 1 - t0) with (500 + q * 1000) by lia.
      by rewrite Z.mod_add.
Qed.

(** X14.  A call that becomes active or starts ringing after the effect
    ran.  When the refs are set from the re-evaluation at [t0 + 1000 * j] on
    ([j] at least 1 in a session, since both refs are unset when the effect
    body runs), the period is 500 ms from then on and [pollCalls] runs half
    a second after every re-evaluation, at [t0 + 1000 * k + 500] for every
    [k] from [j] on, whichever of two timers due in the same millisecond
    runs first.  When the re-evaluation runs first, these are the only
    polls after [t0 + 1000 * j]: one a second, not one every 500 ms, since
    the poll due at the next re-evaluation is cleared by it. *)
Theorem X14_active_call_polled_every_second (j : Z) (n : nat) :
  0 ≤ j → (∀ t, t0 + 1000 * j ≤ t → (env t).1 || (env t).2 = true) →
  let p := poll_run check_first env t0 n in
  (1000 * j ≤ Z.of_nat n → pollPeriod p = 500)
  ∧ (∀ k, j ≤ k → 1000 * k + 500 ≤ Z.of_nat n →
       t0 + 1000 * k + 500 ∈ polled p)
  ∧ (check_first = true →
       ∀ x, x ∈ polled p → x ≤ t0 + 1000 * j ∨ (x - t0) mod 1000 = 500).
Proof.
  intros Hj Hact p. split; [|split].
  - intros Hn.
    destruct (poll_run_invariant check_first env t0 n) as (_ & _ & Hperiod).
    subst p. rewrite Hperiod. unfold poll_interval, last_update.
    rewrite Hact; [done|].
    assert (j ≤ Z.of_nat n / 1000) by (apply Z.div_le_lower_bound; lia).
    lia.
  - intros k Hk Hle. by apply (active_polled j n k).
  - intros Hcf x Hx. by apply (active_polled_only_at_half j n x).
Qed.

End PollingMore.

(** A ring that begins 200 ms after the effect ran: the client polls at
    2500 ms, and, the re-evaluation running first, not at 2000 ms. *)
Lemma X14_ringing_polled_at_2500 :
  let ring := fun t : Z => (false, 200 <=? t) in
  2500 ∈ polled (poll_run true ring 0 3000)
  ∧ 2000 ∉ polled (poll_run true ring 0 3000).
Proof.
  intros ring.
  assert (Hring : ∀ t, 0 + 1000 * 1 ≤ t → (ring t).1 || (ring t).2 = true).
  { intros t Ht. cbn. apply Z.leb_le. lia. }
  destruct (X14_active_call_polled_every_second true ring 0 1 3000
              ltac:(lia) Hring) as (_ & Hin & Honly).
  split.
  - apply (Hin 2); lia.
  - intros H2000. destruct (Honly eq_refl 2000 H2000) as [H|H].
    + lia.
    + vm_compute in H. discriminate.
Defined.

(** ** The call session: ending, failing, overlapping *)

Section SessionMore.

Implicit Types (c : Client) (cap : View).

Lemma endCallCleanup_without_message cap c :
  let c' := endCallCleanup cap EmptyString c in
  let r := connectionRef (refs c) in
  idle c'
  ∧ timeouts c' = timeouts c
  ∧ connectionRef (refs c') = match r with ConnPeer _ => ConnNull | _ => r end
  ∧ log c'
    = log c ++ [FlagSet]
      ++ (if conn_truthy r then [HandlersDetached] else [])
      ++ match localStream cap with Some s => [TracksStopped s] | None => [] end
      ++ [MediaElementsCleared]
      ++ (if conn_truthy r then [PeerClosed] else [])
  ∧ live_streams c'
    = match localStream cap with
      | Some s => List.filter (fun x => negb (x =? s)%nat) (live_streams c)
      | None => live_streams c
      end
  ∧ localStream (st c')
    = match localStream cap with
      | Some _ => None
      | None => localStream (st c)
      end.
Proof.
  unfold endCallCleanup, idle.
  change (truthy (VStr EmptyString)) with false. cbv iota.
  destruct c as [v r ev live tos lg].
  destruct r as [flag target conn aref rref].
  unfold stop_tracks.
  destruct conn, (localStream cap) as [s|];
    cbn; rewrite <- ?app_assoc; cbn; repeat split; reflexivity.
Qed.

Lemma leaveCall_flag cap c :
  callEndedIntentionallyRef (refs (leaveCall cap c)) = true.
Proof.
  unfold leaveCall.
  set (msg := if receivingCall cap && negb (callActive cap)
              then "Call declined" else "Call ended").
  assert (Hmsg : msg ≠ EmptyString) by (subst msg; by destruct (_ && _)).
  set (c1 := if truthy _ then _ else c).
  by destruct (endCallCleanup_with_message cap msg c1 Hmsg) as (_ & Hflag & _).
Qed.

(** X15.  From the moment a call is ended, by the hang-up or decline
    button, by the other party's [end_call], or by any cleanup with a status
    message, until the reset 3 s later, the connection-state callbacks of
    both roles change nothing: no status such as [Connection lost...] can
    replace the ending message and no ICE restart is attempted, whatever
    state the closing connection reports and whatever render the callback
    was created in. *)
Theorem X15_callbacks_silenced_after_hangup cap (msg : string) c c' :
  msg ≠ EmptyString →
  c' = endCallCleanup cap msg c ∨ c' = leaveCall cap c
  ∨ c' = on_end_call cap c →
  ∀ cap',
    (∀ s, onconnectionstatechange_caller cap' c' s = c')
    ∧ (∀ s, oniceconnectionstatechange_caller cap' c' s = c')
    ∧ (∀ s, onconnectionstatechange_answerer cap' c' s = c')
    ∧ (∀ s, oniceconnectionstatechange_answerer cap' c' s = c').
Proof.
  intros Hmsg Hc' cap'. apply callbacks_ignored_once_ended.
  destruct Hc' as [-> |[-> | ->]].
  - by destruct (endCallCleanup_with_message cap msg c Hmsg) as (_ & Hflag & _).
  - apply leaveCall_flag.
  - by destruct (on_end_call_flag_first cap c) as [_ Hflag].
Qed.

Lemma on_end_call_initial_view c :
  effect_view c = initial_view →
  on_end_call (effect_view c) c
  = endCallCleanup initial_view "Call ended by other party"
      (remove_handlers
         (setCallStatus "Call ended by other party"
            (setShowCallEnding true
               (emit FlagSet (set_callEndedIntentionallyRef true c))))).
Proof. intros ->. reflexivity. Qed.

Lemma on_end_call_prelude c :
  let c0 := remove_handlers
              (setCallStatus "Call ended by other party"
                 (setShowCallEnding true
                    (emit FlagSet (set_callEndedIntentionallyRef true c)))) in
  timeouts c0 = timeouts c ∧ live_streams c0 = live_streams c
  ∧ localStream (st c0) = localStream (st c)
  ∧ ∃ l, log c0 = log c ++ l
         ∧ ∀ x, TracksStopped x ∉ l ++ cleanup_log initial_view
                                          (connectionRef (refs c0)).
Proof.
  destruct c as [v r ev live tos lg].
  destruct r as [flag target conn aref rref].
  destruct conn; cbn; repeat split; eexists;
    (split; [by rewrite <- ?app_assoc|]);
    intros x Hx; cbn in Hx;
    repeat (apply elem_of_cons in Hx as [Hx|Hx]; [discriminate|]);
    by apply elem_of_nil in Hx.
Qed.

(** X16.  The other party hangs up.  Both transports run the same branch,
    with the state of the first render: the status shown is always
    [Call ended by other party] (never [Call declined by caller]), the flag
    is set, the handlers are detached and the peer connection is closed, and
    the reset is scheduled 3000 ms later; but the media stream is not
    touched: no track is stopped and the stream stays in the state. *)
Theorem X16_remote_hangup c :
  effect_view c = initial_view →
  let c' := on_end_call (effect_view c) c in
  (∀ data, receive_sse c (eventPayload "end_call" data) = c')
  ∧ (∀ s, sig_type s = "end_call" → receive_poll c [s] = c')
  ∧ callStatus (st c') = "Call ended by other party"
  ∧ showCallEnding (st c') = true
  ∧ callEndedIntentionallyRef (refs c') = true
  ∧ conn_truthy (connectionRef (refs c')) = false
  ∧ timeouts c' = timeouts c ++ [(3000, ResetCall)]
  ∧ live_streams c' = live_streams c
  ∧ localStream (st c') = localStream (st c)
  ∧ (∀ x, TracksStopped x ∈ log c' → TracksStopped x ∈ log c).
Proof.
  intros Hview c'.
  assert (Hc' : c' = endCallCleanup initial_view "Call ended by other party"
                       (remove_handlers
                          (setCallStatus "Call ended by other party"
                             (setShowCallEnding true
                                (emit FlagSet
                                   (set_callEndedIntentionallyRef true c))))))
    by (by apply on_end_call_initial_view).
  set (c0 := remove_handlers _) in Hc'.
  destruct (endCallCleanup_with_message initial_view
              "Call ended by other party" c0 ltac:(discriminate))
    as (Hlog & Hflag & Hconn & Htos & Hstatus & Hshow & Hlive & Hstream).
  rewrite <- Hc' in *. cbn [localStream initial_view] in Hlive, Hstream.
  destruct (on_end_call_prelude c)
    as (Ht0 & Hl0 & Hs0 & l & Hlog0 & Hnone).
  fold c0 in Ht0, Hl0, Hs0, Hlog0, Hnone.
  split; [|split; [|split; [|split; [|split; [|split; [|split; [|split;
    [|split]]]]]]]].
  - intros data. reflexivity.
  - intros s Hs. unfold receive_poll, pollCalls, poll_signal. cbn [foldl].
    rewrite Hs. reflexivity.
  - exact Hstatus.
  - exact Hshow.
  - exact Hflag.
  - exact Hconn.
  - by rewrite Htos, Ht0.
  - by rewrite Hlive, Hl0.
  - by rewrite Hstream, Hs0.
  - intros x. rewrite Hlog, Hlog0, <- app_assoc.
    intros [Hin|Hin]%elem_of_app; [done|]. by apply Hnone in Hin.
Qed.

(** X17.  A call that cannot be set up.  When the offer cannot be posted
    after the media stream was acquired, the cleanup without message resets
    the session at once (no ending message, no timeout), detaches the
    handlers and closes the peer connection; the stream acquired for the
    call is not stopped, since the cleanup looks at the stream of the render
    in which the call button was clicked.  When the media request itself is
    rejected, the session is reset and nothing else happens. *)
Theorem X17_failed_call_setup c videoEnabled (s : nat) :
  localStream (st c) = None → truthy (selectedUser (st c)) = true →
  let c1 := got_media s (click_call videoEnabled c) in
  let c2 := call_failed (st c) c1 in
  let c3 := call_failed (st c) (click_call videoEnabled c) in
  (callActive (st c1) = true ∧ connectionRef (refs c1) = ConnPeer new_peer)
  ∧ idle c2 ∧ connectionRef (refs c2) = ConnNull
  ∧ timeouts c2 = timeouts c
  ∧ log c2 = log c ++ [FlagSet; HandlersDetached; MediaElementsCleared;
                       PeerClosed]
  ∧ s ∈ live_streams c2 ∧ localStream (st c2) = Some s
  ∧ idle c3 ∧ live_streams c3 = live_streams c ∧ timeouts c3 = timeouts c
  ∧ log c3 = log c ++ [FlagSet]
             ++ (if conn_truthy (connectionRef (refs c))
                 then [HandlersDetached; MediaElementsCleared; PeerClosed]
                 else [MediaElementsCleared]).
Proof.
  intros Hstream Hsel c1 c2 c3.
  assert (Hc1 : callActive (st c1) = true
                ∧ connectionRef (refs c1) = ConnPeer new_peer
                ∧ timeouts c1 = timeouts c ∧ log c1 = log c
                ∧ live_streams c1 = live_streams c ++ [s]
                ∧ localStream (st c1) = Some s).
  { subst c1. unfold click_call, callUser. rewrite Hsel. cbn.
    repeat split. }
  destruct Hc1 as (Hact & Hconn & Htos & Hlog & Hlive & Hls).
  destruct (endCallCleanup_without_message (st c) c1)
    as (Hidle & Htos2 & Hconn2 & Hlog2 & Hlive2 & Hls2).
  fold (call_failed (st c) c1) in Hidle, Htos2, Hconn2, Hlog2, Hlive2, Hls2.
  fold c2 in Hidle, Htos2, Hconn2, Hlog2, Hlive2, Hls2.
  rewrite Hstream in Hlog2, Hlive2, Hls2. rewrite Hconn in Hlog2.
  cbn [conn_truthy app] in Hlog2.
  destruct (endCallCleanup_without_message (st c) (click_call videoEnabled c))
    as (Hidle3 & Htos3 & Hconn3 & Hlog3 & Hlive3 & Hls3).
  fold (call_failed (st c) (click_call videoEnabled c)) in
    Hidle3, Htos3, Hconn3, Hlog3, Hlive3, Hls3.
  fold c3 in Hidle3, Htos3, Hconn3, Hlog3, Hlive3, Hls3.
  rewrite Hstream in Hlive3.
  assert (Hc : timeouts (click_call videoEnabled c) = timeouts c
               ∧ live_streams (click_call videoEnabled c) = live_streams c
               ∧ log (click_call videoEnabled c) = log c
               ∧ connectionRef (refs (click_call videoEnabled c))
                 = connectionRef (refs c)).
  { unfold click_call, callUser. rewrite Hsel. cbn. repeat split. }
  destruct Hc as (Htc & Hlc & Hlgc & Hcc).
  rewrite Hcc, Hstream, Hlgc in Hlog3. cbn [app] in Hlog3.
  split; [done|]. split; [done|].
  split; [by rewrite Hconn2, Hconn|].
  split; [by rewrite Htos2|]. split; [by rewrite Hlog2, Hlog|].
  split; [rewrite Hlive2, Hlive; apply elem_of_app; right; by left|].
  split; [by rewrite Hls2|]. split; [done|].
  split; [by rewrite Hlive3|]. split; [by rewrite Htos3|].
  rewrite Hlog3. by destruct (conn_truthy (connectionRef (refs c))).
Qed.

(** X18.  An offer that arrives while the reset of the previous call is
    still pending (the 3 s during which the ending message is shown) is
    recorded, since the transports see the state of the first render; when
    the pending reset fires, it wipes the new ring with the old call: the
    session is idle again and the caller was never answered nor declined. *)
Theorem X18_offer_during_ending_is_wiped c from name signal ms rest
    ice_failed :
  effect_view c = initial_view → timeouts c = (ms, ResetCall) :: rest →
  let c1 := on_call_user (effect_view c) c from name signal in
  let c2 := fire_timeout ice_failed c1 in
  (∀ s, sig_type s = "call_user" →
        sig_data s = VObj [("from", from); ("signal", signal); ("name", name)] →
        receive_poll c [s] = c1)
  ∧ receivingCall (st c1) = true ∧ caller (st c1) = from
  ∧ callTargetRef (refs c1) = from
  ∧ idle c2 ∧ timeouts c2 = rest ∧ log c2 = log c.
Proof.
  intros Hview Htos c1 c2.
  assert (Hc1 : c1 = setCallStatus
                       (String_ (or_ (or_ name (get signal "name"))
                                   (VStr "Someone")) ++ " is calling...")
                       (setCallerSignal signal
                          (setCaller from
                             (setReceivingCall true
                                (set_receivingCallRef true
                                   (set_callTargetRef from c)))))).
  { subst c1. rewrite Hview. unfold on_call_user. cbn.
    by rewrite andb_false_r. }
  split; [|split; [|split; [|split; [|split; [|split]]]]].
  - intros s Hty Hda. unfold receive_poll, pollCalls, poll_signal.
    cbn [foldl]. rewrite Hty, Hda. reflexivity.
  - by rewrite Hc1.
  - by rewrite Hc1.
  - by rewrite Hc1.
  - subst c2. unfold fire_timeout. rewrite Hc1. cbn [timeouts setCallStatus
      setCallerSignal setCaller setReceivingCall set_receivingCallRef
      set_callTargetRef with_st with_refs]. rewrite Htos.
    apply reset_call_idle.
  - subst c2. unfold fire_timeout. rewrite Hc1. cbn [timeouts setCallStatus
      setCallerSignal setCaller setReceivingCall set_receivingCallRef
      set_callTargetRef with_st with_refs]. by rewrite Htos.
  - subst c2. unfold fire_timeout. rewrite Hc1. cbn [timeouts setCallStatus
      setCallerSignal setCaller setReceivingCall set_receivingCallRef
      set_callTargetRef with_st with_refs]. by rewrite Htos.
Qed.

(** X22.  The target of a hang-up is the one cached when the call began.
    After the caller clicked the call button for the selected contact, or
    after an incoming offer was recorded, the hang-up or decline button
    posts [end_call] to that party, whatever contact is selected by then. *)
Theorem X22_hangup_goes_to_cached_target c videoEnabled sel' :
  let sel := selectedUser (st c) in
  let target := or_ (get sel "_id") (get sel "id") in
  truthy sel = true → truthy target = true →
  let c1 := setSelectedUser sel' (click_call videoEnabled c) in
  otherId (st c1) c1 = target
  ∧ log (click_leave c1)
    = log c ++ [PostEndCall target]
      ++ cleanup_log (st c1) (connectionRef (refs c))
  ∧ (∀ from name signal, truthy from = true → effect_view c = initial_view →
       let c2 := setSelectedUser sel'
                   (on_call_user (effect_view c) c from name signal) in
       otherId (st c2) c2 = from
       ∧ log (click_leave c2)
         = log c ++ [PostEndCall from]
           ++ cleanup_log (st c2) (connectionRef (refs c))).
Proof.
  intros sel target Hsel Htarget c1.
  assert (Hleave : ∀ c0 t, callTargetRef (refs c0) = t → truthy t = true →
            otherId (st c0) c0 = t
            ∧ log (click_leave c0)
              = log c0 ++ [PostEndCall t]
                ++ cleanup_log (st c0) (connectionRef (refs c0))).
  { intros c0 t Ht Htr.
    assert (Ho : otherId (st c0) c0 = t).
    { unfold otherId, or_. rewrite Ht, Htr. cbv iota. rewrite Htr.
      cbv iota. by rewrite Htr. }
    split; [exact Ho|].
    unfold click_leave, leaveCall. rewrite Ho, Htr.
    set (msg := if receivingCall (st c0) && negb (callActive (st c0))
                then "Call declined" else "Call ended").
    assert (Hmsg : msg ≠ EmptyString) by (subst msg; by destruct (_ && _)).
    destruct (endCallCleanup_with_message (st c0) msg
                (emit (PostEndCall t) c0) Hmsg) as (Hlog & _).
    rewrite Hlog. cbn [log emit refs]. by rewrite <- app_assoc. }
  split; [|split].
  - apply Hleave; [|done]. subst c1. unfold click_call, callUser.
    fold sel. rewrite Hsel. reflexivity.
  - destruct (Hleave c1 target) as [_ Hl]; [|done|].
    + subst c1. unfold click_call, callUser. fold sel. by rewrite Hsel.
    + rewrite Hl. subst c1. unfold click_call, callUser. fold sel.
      rewrite Hsel. reflexivity.
  - intros from name signal Hfrom Hview c2.
    assert (Hc2 : callTargetRef (refs c2) = from ∧ log c2 = log c
                  ∧ connectionRef (refs c2) = connectionRef (refs c)).
    { subst c2. rewrite Hview. unfold on_call_user. cbn.
      rewrite andb_false_r. cbn. repeat split. }
    destruct Hc2 as (Ht & Hl & Hcn).
    destruct (Hleave c2 from Ht Hfrom) as [Ho Hlg].
    split; [exact Ho|]. by rewrite Hlg, Hl, Hcn.
Qed.

End SessionMore.

(** After a hang-up, a late [disconnected] report changes nothing. *)
Lemma X15_late_disconnect_ignored :
  let c := click_leave (got_media 1 mount) in
  onconnectionstatechange_caller (st c) c CsDisconnected = c.
Proof.
  intros c.
  destruct (X15_callbacks_silenced_after_hangup
              (st (got_media 1 mount)) "Call ended" (got_media 1 mount) c
              ltac:(discriminate) ltac:(right; left; reflexivity) (st c))
    as [H _].
  apply H.
Defined.

(** The other party ends a call whose stream 1 is running: it keeps
    running. *)
Lemma X16_stream_survives_remote_hangup :
  live_streams (on_end_call initial_view (got_media 1 mount)) = [1%nat].
Proof.
  destruct (X16_remote_hangup (got_media 1 mount) eq_refl)
    as (_ & _ & _ & _ & _ & _ & _ & H & _).
  exact H.
Defined.

(** Bob is selected, the call button is clicked, stream 1 is acquired and
    the offer cannot be posted: the session is idle and stream 1 runs on. *)
Lemma X17_offer_not_posted :
  let bob := VObj [("_id", VNum 7); ("username", VStr "bob")] in
  let c := setSelectedUser bob mount in
  1%nat ∈ live_streams (call_failed (st c) (got_media 1 (click_call true c))).
Proof.
  intros bob c.
  destruct (X17_failed_call_setup c true 1%nat eq_refl eq_refl)
    as (_ & _ & _ & _ & _ & H & _).
  exact H.
Defined.

(** User 5 rings one second after a decline: the ring is gone when the
    reset of the declined call runs. *)
Lemma X18_ring_after_decline :
  let c := click_leave (setReceivingCall true mount) in
  receivingCall
    (st (fire_timeout false
           (on_call_user (effect_view c) c (VNum 5) (VStr "eve") VNull)))
  = false.
Proof.
  intros c.
  destruct (X18_offer_during_ending_is_wiped c (VNum 5) (VStr "eve") VNull
              3000 [] false eq_refl eq_refl)
    as (_ & _ & _ & _ & Hidle & _).
  apply Hidle.
Defined.

(** Bob is called, then Carol is selected: hanging up notifies Bob. *)
Lemma X22_hangup_notifies_bob :
  let bob := VObj [("_id", VNum 7); ("username", VStr "bob")] in
  let carol := VObj [("_id", VNum 8); ("username", VStr "carol")] in
  let c1 := setSelectedUser carol (click_call false (setSelectedUser bob mount)) in
  otherId (st c1) c1 = VNum 7.
Proof.
  intros bob carol c1.
  destruct (X22_hangup_goes_to_cached_target (setSelectedUser bob mount) false
              carol eq_refl eq_refl) as [H _].
  exact H.
Defined.

(** ** The message list *)

Section Messages.

Variable sort : list jsval → list jsval.
Hypothesis sort_permutes : ∀ l, sort l ≡ₚ l.

Implicit Types (prev fetched : list jsval) (m : list (string * jsval)).

Lemma existsb_key (k : string) (l : list jsval) :
  existsb (fun x => bool_decide (message_key x = k)) l = true
  ↔ k ∈ message_key <$> l.
Proof.
  rewrite existsb_exists, list_elem_of_fmap. split.
  - intros (x & Hx%list_elem_of_In & Hk%bool_decide_eq_true). eauto.
  - intros (x & -> & Hx). exists x.
    split; [by apply list_elem_of_In | by apply bool_decide_eq_true].
Qed.

Lemma add_message_spec prev fm :
  let l := add_message sort prev fm in
  (message_key fm ∈ message_key <$> prev → l = prev)
  ∧ (message_key fm ∉ message_key <$> prev → l ≡ₚ prev ++ [fm]).
Proof.
  unfold add_message.
  destruct (existsb _ prev) eqn:He.
  - apply existsb_key in He. split; [done|]. intros Hn. by destruct Hn.
  - split; [|intros _; apply sort_permutes].
    intros Hin. apply existsb_key in Hin. congruence.
Qed.

(** The identity of a formatted message does not depend on the time of
    formatting. *)
Lemma message_key_formattedMessage nm now :
  message_key (formattedMessage nm now)
  = String_ (or_ (or_ (get nm "_id") (get nm "id"))
                 (or_ (get nm "id") (get nm "_id"))).
Proof. reflexivity. Qed.

Lemma formattedMessage_keeps_key nm now :
  truthy (get nm "_id") || truthy (get nm "id") = true →
  message_key (formattedMessage nm now) = message_key nm.
Proof.
  intros Hid. rewrite message_key_formattedMessage.
  unfold message_key, or_.
  destruct (truthy (get nm "_id")) eqn:H1.
  - by rewrite H1.
  - cbn [orb] in Hid. rewrite !Hid. reflexivity.
Qed.

(** What handling a push event does to the ids of the list. *)
Lemma on_receive_message_ids prev data now :
  let l1 := on_receive_message sort now prev data in
  let nm := or_ (get data "message") (get data "data") in
  (NoDup (message_key <$> prev) → NoDup (message_key <$> l1))
  ∧ (truthy nm = true →
       message_key (formattedMessage nm now) ∈ message_key <$> l1).
Proof.
  intros l1 nm. subst l1. unfold on_receive_message. fold nm.
  destruct (truthy nm) eqn:Hnm; [|done].
  set (fm1 := formattedMessage nm now).
  destruct (add_message_spec prev fm1) as [Hold Hnew]. cbn zeta in Hold, Hnew.
  destruct (decide (message_key fm1 ∈ message_key <$> prev)) as [Hin|Hnin].
  - by rewrite (Hold Hin).
  - specialize (Hnew Hnin). split.
    + intros Hnd. rewrite Hnew, fmap_app. apply NoDup_app.
      split; [done|]. split; [|apply NoDup_singleton].
      intros k Hkin Hk%list_elem_of_singleton. by subst.
    + intros _. rewrite Hnew, fmap_app. apply elem_of_app. right. by left.
Qed.

(** X23.  A pushed chat message is added to the list once.  Handling the
    same event again, at any later time, changes nothing; no message that
    was in the list is dropped; the list grows by at most one; and a list
    without two messages of the same id stays so.  A message that has an id
    keeps it as its identity when it is formatted. *)
Theorem X23_pushed_message_added_once prev data now1 now2 :
  let l1 := on_receive_message sort now1 prev data in
  let nm := or_ (get data "message") (get data "data") in
  on_receive_message sort now2 l1 data = l1
  ∧ (∀ x, x ∈ prev → x ∈ l1)
  ∧ (length l1 ≤ length prev + 1)%nat
  ∧ (NoDup (message_key <$> prev) → NoDup (message_key <$> l1))
  ∧ (truthy nm = true →
       message_key (formattedMessage nm now1) ∈ message_key <$> l1)
  ∧ (truthy (get nm "_id") || truthy (get nm "id") = true →
       message_key (formattedMessage nm now1) = message_key nm).
Proof.
  intros l1 nm. subst l1. unfold on_receive_message. fold nm.
  destruct (truthy nm) eqn:Hnm.
  2:{ split; [done|]. split; [done|]. split; [lia|]. split; [done|].
      split; [done|].
      intros _. by destruct nm. }
  set (fm1 := formattedMessage nm now1). set (fm2 := formattedMessage nm now2).
  assert (Hk : message_key fm2 = message_key fm1)
    by (subst fm1 fm2; by rewrite !message_key_formattedMessage).
  destruct (add_message_spec prev fm1) as [Hold Hnew]. cbn zeta in Hold, Hnew.
  destruct (decide (message_key fm1 ∈ message_key <$> prev)) as [Hin|Hnin].
  - rewrite (Hold Hin).
    destruct (add_message_spec prev fm2) as [Hold2 _]. cbn zeta in Hold2.
    rewrite Hold2 by (by rewrite Hk).
    split; [done|]. split; [done|]. split; [lia|]. split; [done|].
    split; [done|].
    by apply formattedMessage_keeps_key.
  - specialize (Hnew Hnin).
    assert (Hfm : message_key fm1 ∈ message_key <$> add_message sort prev fm1).
    { rewrite Hnew, fmap_app. apply elem_of_app. right. by left. }
    split.
    { destruct (add_message_spec (add_message sort prev fm1) fm2) as [H2 _].
      cbn zeta in H2. apply H2. by rewrite Hk. }
    split.
    { intros x Hx. rewrite Hnew. apply elem_of_app. by left. }
    split.
    { rewrite Hnew, length_app. cbn. lia. }
    split.
    { intros Hnd. rewrite Hnew, fmap_app. apply NoDup_app.
      split; [done|]. split; [|apply NoDup_singleton].
      intros k Hkin ->%list_elem_of_singleton. done. }
    split; [done|].
    by apply formattedMessage_keeps_key.
Qed.

(** The [Map] of the merge. *)
Lemma map_set_keys (k : string) (v : jsval) m (k' : string) :
  k' ∈ (map_set k v m).*1 ↔ k' = k ∨ k' ∈ m.*1.
Proof.
  induction m as [|[k0 v0] m IH]; cbn.
  - rewrite list_elem_of_singleton. split; [by left|].
    intros [?|H]; [done|by apply elem_of_nil in H].
  - case_bool_decide as Hk; cbn; rewrite !elem_of_cons.
    + subst k0. tauto.
    + rewrite IH. tauto.
Qed.

Lemma map_set_NoDup (k : string) (v : jsval) m :
  NoDup m.*1 → NoDup (map_set k v m).*1.
Proof.
  induction m as [|[k0 v0] m IH]; cbn; intros Hnd.
  - apply NoDup_singleton.
  - apply NoDup_cons in Hnd as [Hnin Hnd].
    case_bool_decide as Hk; cbn; apply NoDup_cons.
    + subst k0. done.
    + split; [|by apply IH]. rewrite map_set_keys. intros [?|?]; congruence.
Qed.

Lemma map_set_elem (k : string) (v : jsval) m (k' : string) (v' : jsval) :
  NoDup m.*1 →
  (k', v') ∈ map_set k v m
  ↔ (k' = k ∧ v' = v) ∨ (k' ≠ k ∧ (k', v') ∈ m).
Proof.
  induction m as [|[k0 v0] m IH]; cbn; intros Hnd.
  - rewrite list_elem_of_singleton. split.
    + intros [= -> ->]. by left.
    + intros [[-> ->]|[_ H]]; [done|by apply elem_of_nil in H].
  - apply NoDup_cons in Hnd as [Hnin Hnd].
    assert (Hm : ∀ a b, (a, b) ∈ m → a ≠ k0).
    { intros a b Hab ->. apply Hnin, list_elem_of_fmap. by exists (k0, b). }
    case_bool_decide as Hk; rewrite !elem_of_cons.
    + subst k0. split.
      * intros [[= -> ->]|Hin]; [by left|]. right. split; [by eapply Hm|by right].
      * intros [[-> ->]|[Hne [[= -> ->]|Hin]]]; [by left|done|by right].
    + rewrite IH by done. split.
      * intros [[= -> ->]|[[-> ->]|[Hne Hin]]].
        -- right. split; [done|by left].
        -- by left.
        -- right. split; [done|by right].
      * intros [[-> ->]|[Hne [[= -> ->]|Hin]]].
        -- right. by left.
        -- by left.
        -- right. right. by split.
Qed.

Lemma map_has_keys (k : string) m : map_has k m = true ↔ k ∈ m.*1.
Proof.
  unfold map_has. rewrite existsb_exists, list_elem_of_fmap. split.
  - intros ([k0 v0] & Hx%list_elem_of_In & Hk%bool_decide_eq_true).
    exists (k0, v0). by split.
  - intros ([k0 v0] & -> & Hx). exists (k0, v0).
    split; [by apply list_elem_of_In | by apply bool_decide_eq_true].
Qed.

Lemma merge_inv_set m seen x :
  merge_inv m seen → merge_inv (map_set (message_key x) x m) (seen ++ [x]).
Proof.
  intros (Hnd & Hval & Hkeys). split; [by apply map_set_NoDup|]. split.
  - intros k v Hin. apply map_set_elem in Hin; [|done].
    destruct Hin as [[-> ->]|[Hne Hin]].
    + split; [done|]. apply elem_of_app. right. by left.
    + destruct (Hval k v Hin) as [? ?]. split; [done|].
      apply elem_of_app. by left.
  - intros y [Hy|Hy%list_elem_of_singleton]%elem_of_app;
      apply map_set_keys; [right; by apply Hkeys | left; by subst].
Qed.

Lemma merge_inv_add m seen x :
  merge_inv m seen →
  merge_inv (if map_has (message_key x) m then m
             else map_set (message_key x) x m) (seen ++ [x]).
Proof.
  intros Hinv. destruct (map_has (message_key x) m) eqn:Hhas.
  - apply map_has_keys in Hhas. destruct Hinv as (Hnd & Hval & Hkeys).
    split; [done|]. split.
    + intros k v Hin. destruct (Hval k v Hin) as [? ?]. split; [done|].
      apply elem_of_app. by left.
    + intros y [Hy|Hy%list_elem_of_singleton]%elem_of_app;
        [by apply Hkeys | by subst].
  - by apply merge_inv_set.
Qed.

Lemma foldl_merge_inv
    (step : list (string * jsval) → jsval → list (string * jsval))
    (l : list jsval) :
  (∀ m seen x, merge_inv m seen → merge_inv (step m x) (seen ++ [x])) →
  ∀ m seen, merge_inv m seen → merge_inv (foldl step m l) (seen ++ l).
Proof.
  intros Hstep. induction l as [|x l IH]; intros m seen Hinv.
  - by rewrite app_nil_r.
  - cbn [foldl]. replace (seen ++ x :: l) with ((seen ++ [x]) ++ l)
      by (by rewrite <- app_assoc).
    apply IH, Hstep, Hinv.
Qed.

(** Pairs that the loops leave in place. *)
Lemma foldl_add_keeps m fetched (k : string) (v : jsval) :
  NoDup m.*1 → (k, v) ∈ m →
  (k, v) ∈ foldl (fun m msg =>
                    if map_has (message_key msg) m then m
                    else map_set (message_key msg) msg m) m fetched
  ∧ NoDup (foldl (fun m msg =>
                    if map_has (message_key msg) m then m
                    else map_set (message_key msg) msg m) m fetched).*1.
Proof.
  revert m. induction fetched as [|x l IH]; intros m Hnd Hin; [done|].
  cbn [foldl]. destruct (map_has (message_key x) m) eqn:Hhas.
  - by apply IH.
  - apply IH; [by apply map_set_NoDup|].
    apply map_set_elem; [done|]. right. split; [|done].
    intros ->. assert (Hk : message_key x ∈ m.*1)
      by (apply list_elem_of_fmap; by exists (message_key x, v)).
    apply map_has_keys in Hk. congruence.
Qed.

Lemma foldl_set_distinct prev :
  NoDup (message_key <$> prev) →
  let m := foldl (fun m msg => map_set (message_key msg) msg m) [] prev in
  NoDup m.*1 ∧ ∀ x, x ∈ prev → (message_key x, x) ∈ m.
Proof.
  induction prev as [|x prev IH] using rev_ind; intros Hnd.
  - cbn. split; [apply NoDup_nil_2|]. intros x Hx. by apply elem_of_nil in Hx.
  - rewrite fmap_app in Hnd. apply NoDup_app in Hnd as (Hnd & Hdis & _).
    destruct (IH Hnd) as [Hm Hprev]. cbn zeta in *. rewrite foldl_snoc.
    split; [by apply map_set_NoDup|].
    intros y [Hy|Hy%list_elem_of_singleton]%elem_of_app; [|subst y].
    + apply map_set_elem; [done|]. right. split; [|by apply Hprev].
      intros Heq. apply (Hdis (message_key y)).
      * apply list_elem_of_fmap. by exists y.
      * rewrite Heq. by left.
    + apply map_set_elem; [done|]. by left.
Qed.

Lemma values_keys m :
  (∀ k v, (k, v) ∈ m → message_key v = k) → message_key <$> m.*2 = m.*1.
Proof.
  intros Hval. induction m as [|[k v] m IH]; [done|]. cbn. f_equal.
  - apply Hval. by left.
  - apply IH. intros k' v' Hin. apply Hval. by right.
Qed.

(** The map after the first loop, for a list without repeated ids. *)
Lemma merge_first_loop prev :
  NoDup (message_key <$> prev) →
  let m1 := foldl (fun m msg => map_set (message_key msg) msg m) [] prev in
  (∀ k, k ∈ m1.*1 ↔ k ∈ message_key <$> prev)
  ∧ sort (map snd m1) ≡ₚ prev.
Proof.
  intros Hndp m1.
  assert (H1 : merge_inv m1 prev).
  { apply (foldl_merge_inv _ prev merge_inv_set [] []).
    split; [apply NoDup_nil_2|].
    split.
    - intros k v Hin. by apply elem_of_nil in Hin.
    - intros y Hin. by apply elem_of_nil in Hin. }
  destruct (foldl_set_distinct prev Hndp) as [Hnd1 Hin1]. cbn zeta in *.
  fold m1 in Hnd1, Hin1. destruct H1 as (_ & Hval1 & Hkeys1).
  assert (Hk1 : message_key <$> m1.*2 = m1.*1)
    by (apply values_keys; intros k v Hin; by destruct (Hval1 k v Hin)).
  split.
  - intros k. split.
    + intros ([k' v] & -> & Hin)%list_elem_of_fmap.
      destruct (Hval1 k' v Hin) as [<- Hv]. apply list_elem_of_fmap. eauto.
    + intros (x & -> & Hx)%list_elem_of_fmap. by apply Hkeys1.
  - rewrite sort_permutes. apply NoDup_Permutation.
    + apply (NoDup_fmap_1 message_key).
      change (map snd m1) with (m1.*2). by rewrite Hk1.
    + by apply (NoDup_fmap_1 message_key).
    + intros x. split.
      * intros ([k v] & -> & Hin)%list_elem_of_fmap.
        by destruct (Hval1 k v Hin).
      * intros Hx. apply list_elem_of_fmap. exists (message_key x, x).
        split; [done|by apply Hin1].
Qed.

(** X24.  Merging fetched messages into the list.  The result has no two
    messages of the same id; it holds a message for every id of the list and
    of the fetch, and nothing that was in neither.  When the list had no two
    messages of the same id, every message of the list is still there
    itself: a fetched copy never replaces a message already shown. *)
Theorem X24_merge_fetched prev fetched :
  let merged := merge_fetched sort prev fetched in
  NoDup (message_key <$> merged)
  ∧ (∀ x, x ∈ prev ++ fetched → message_key x ∈ message_key <$> merged)
  ∧ (∀ x, x ∈ merged → x ∈ prev ++ fetched)
  ∧ (NoDup (message_key <$> prev) → ∀ x, x ∈ prev → x ∈ merged)
  ∧ (NoDup (message_key <$> prev) →
       merge_fetched sort prev [] ≡ₚ prev).
Proof.
  intros merged. subst merged. unfold merge_fetched.
  set (m1 := foldl (fun m msg => map_set (message_key msg) msg m) [] prev).
  set (m2 := foldl _ m1 fetched).
  assert (H1 : merge_inv m1 prev).
  { apply (foldl_merge_inv _ prev merge_inv_set [] []).
    split; [apply NoDup_nil_2|].
    split.
    - intros k v Hin. by apply elem_of_nil in Hin.
    - intros y Hin. by apply elem_of_nil in Hin. }
  assert (H2 : merge_inv m2 (prev ++ fetched))
    by (by apply (foldl_merge_inv _ fetched merge_inv_add)).
  destruct H2 as (Hnd & Hval & Hkeys).
  assert (Hk : message_key <$> m2.*2 = m2.*1)
    by (apply values_keys; intros k v Hin; by destruct (Hval k v Hin)).
  split; [|split; [|split; [|split]]].
  - rewrite sort_permutes. change (map snd m2) with (m2.*2). by rewrite Hk.
  - intros x Hx. rewrite sort_permutes. change (map snd m2) with (m2.*2).
    rewrite Hk. by apply Hkeys.
  - intros x. rewrite sort_permutes.
    intros ([k v] & -> & Hin)%list_elem_of_fmap. by destruct (Hval k v Hin).
  - intros Hndp x Hx. rewrite sort_permutes.
    destruct (foldl_set_distinct prev Hndp) as [Hnd1 Hin1]. cbn zeta in *.
    fold m1 in Hnd1, Hin1.
    destruct (foldl_add_keeps m1 fetched (message_key x) x Hnd1 (Hin1 x Hx))
      as [Hin2 _].
    apply list_elem_of_fmap. by exists (message_key x, x).
  - intros Hndp. cbn [foldl].
    by destruct (merge_first_loop prev Hndp) as [_ Hperm].
Qed.

End Messages.

Section MessagePolling.

Implicit Types (p : MessagePoll) (fetched : list jsval).

Lemma pollMessages_cases p fetched :
  let p' := pollMessages p fetched in
  messages p' = messages p
  ∨ (∃ x, last fetched = Some x ∧ messages p' = messages p ++ [x]
          ∧ truthy (lastMessageId p) = true).
Proof.
  unfold pollMessages. destruct (last fetched) as [x|]; [|by left].
  cbn. destruct (truthy (lastMessageId p)); [|by left]. cbn [andb].
  destruct (negb _); [|by left].
  destruct (existsb _ _); [by left|]. right. by exists x.
Qed.

(** X25.  Message polling adds at most the last message of each fetch.
    Over any run of polls the list only grows at its end, by at most one
    message per poll, and whatever was added was the last message of one of
    the fetches: a message that is never last in a fetch is never added by
    polling.  The first poll of the effect only notes the latest id and adds
    nothing, and an empty fetch changes nothing. *)
Theorem X25_message_poll_adds_only_latest p (fs : list (list jsval)) :
  let p' := foldl pollMessages p fs in
  messages p `prefix_of` messages p'
  ∧ (length (messages p') ≤ length (messages p) + length fs)%nat
  ∧ (∀ x, x ∈ messages p' →
          x ∈ messages p ∨ ∃ f, f ∈ fs ∧ last f = Some x)
  ∧ (∀ fetched, truthy (lastMessageId p) = false →
       messages (pollMessages p fetched) = messages p)
  ∧ pollMessages p [] = p.
Proof.
  intros p'. subst p'. split; [|split; [|split; [|split]]].
  - induction fs as [|f fs IH] using rev_ind; [done|].
    rewrite foldl_snoc. etransitivity; [exact IH|].
    destruct (pollMessages_cases (foldl pollMessages p fs) f)
      as [->|(x & _ & -> & _)]; [done|by apply prefix_app_r].
  - induction fs as [|f fs IH] using rev_ind; [cbn; lia|].
    rewrite foldl_snoc, length_app. cbn [length].
    destruct (pollMessages_cases (foldl pollMessages p fs) f)
      as [->|(x & _ & -> & _)]; [lia|].
    rewrite length_app. cbn [length]. lia.
  - induction fs as [|f fs IH] using rev_ind; [by left|].
    rewrite foldl_snoc. intros x.
    destruct (pollMessages_cases (foldl pollMessages p fs) f)
      as [->|(y & Hlast & -> & _)].
    + intros [Hx|(f' & Hf' & Hl)]%IH; [by left|]. right. exists f'.
      split; [apply elem_of_app; by left|done].
    + intros [[Hx|(f' & Hf' & Hl)]%IH|Hx%list_elem_of_singleton]%elem_of_app;
        [| |subst x].
      * by left.
      * right. exists f'. split; [apply elem_of_app; by left|done].
      * right. exists f. split; [apply elem_of_app; right; by left|done].
  - intros fetched Hfirst.
    destruct (pollMessages_cases p fetched) as [->|(x & _ & _ & Ht)];
      [done|congruence].
  - reflexivity.
Qed.

End MessagePolling.

(** The same push event handled twice adds one message. *)
Lemma X23_same_event_twice :
  let data := VObj [("type", VStr "receive_message");
                    ("message", VObj [("id", VNum 41); ("content", VStr "hi")])] in
  let l1 := on_receive_message (fun l => l) (VStr "t1") [] data in
  on_receive_message (fun l => l) (VStr "t2") l1 data = l1.
Proof.
  intros data l1.
  destruct (X23_pushed_message_added_once (fun l => l) (fun l => reflexivity l)
              [] data (VStr "t1") (VStr "t2")) as [H _].
  exact H.
Defined.

(** A fetched copy of message 41 does not replace the one in the list. *)
Lemma X24_existing_message_kept :
  let shown := VObj [("id", VNum 41); ("content", VStr "hi")] in
  let copy := VObj [("id", VNum 41); ("content", VStr "hi (edited)")] in
  shown ∈ merge_fetched (fun l => l) [shown] [copy].
Proof.
  intros shown copy.
  destruct (X24_merge_fetched (fun l => l) (fun l => reflexivity l)
              [shown] [copy]) as (_ & _ & _ & H & _).
  apply H.
  - apply NoDup_singleton.
  - by left.
Defined.

(** ** A message row on its way to the list *)

Section MessageIdentity.

Variable sort : list jsval → list jsval.
Hypothesis sort_permutes : ∀ l, sort l ≡ₚ l.

Lemma or_same (v : jsval) : or_ v v = v.
Proof. unfold or_. by destruct (truthy v). Qed.

Lemma message_key_formatMessage row :
  message_key (formatMessage row) = String_ (get row "id").
Proof.
  change (message_key (formatMessage row))
    with (String_ (or_ (get row "id") (get row "id"))).
  by rewrite or_same.
Qed.

Lemma foldl_add_known (m : list (string * jsval)) (fetched : list jsval) :
  (∀ x, x ∈ fetched → message_key x ∈ m.*1) →
  foldl (fun m msg =>
           if map_has (message_key msg) m then m
           else map_set (message_key msg) msg m) m fetched = m.
Proof.
  induction fetched as [|x l IH]; intros Hknown; [done|].
  cbn [foldl].
  assert (Hx : map_has (message_key x) m = true)
    by (apply map_has_keys, Hknown; by left).
  rewrite Hx. apply IH. intros y Hy. apply Hknown. by right.
Qed.

(** Fetched messages whose ids are all in the list add nothing to it. *)
Lemma merge_fetched_known prev fetched :
  NoDup (message_key <$> prev) →
  (∀ x, x ∈ fetched → message_key x ∈ message_key <$> prev) →
  merge_fetched sort prev fetched ≡ₚ prev.
Proof.
  intros Hnd Hknown.
  destruct (merge_first_loop sort sort_permutes prev)
    as (Hkeys & Hperm); [done|].
  unfold merge_fetched. rewrite foldl_add_known; [exact Hperm|].
  intros x Hx. rewrite Hkeys. by apply Hknown.
Qed.

(** X26.  One row, one message.  The server hands out a message row in one
    shape, whether it is pushed after [/api/message] or fetched later, and
    that shape carries the row id as [_id] and [id].  So for a row with an
    id: the client gives the pushed copy the identity of the row; a push of
    a message the list already holds changes nothing; and after the push,
    fetching the same row again leaves the list as it is, up to the order
    the sort gives it. *)
Theorem X26_pushed_and_fetched_copies_are_one row now prev :
  truthy (get row "id") = true →
  let m := formatMessage row in
  let frame := eventPayload "receive_message" m in
  let l1 := on_receive_message sort now prev frame in
  message_key m = String_ (get row "id")
  ∧ message_key (formattedMessage m now) = message_key m
  ∧ message_key m ∈ message_key <$> l1
  ∧ (m ∈ prev → l1 = prev)
  ∧ (NoDup (message_key <$> prev) → merge_fetched sort l1 [m] ≡ₚ l1).
Proof.
  intros Hid m frame l1.
  assert (Hkm : message_key m = String_ (get row "id"))
    by apply message_key_formatMessage.
  assert (Hnm : or_ (get frame "message") (get frame "data") = m)
    by reflexivity.
  assert (Hkf : message_key (formattedMessage m now) = message_key m).
  { apply formattedMessage_keeps_key.
    change (get m "_id") with (get row "id"). by rewrite Hid. }
  destruct (on_receive_message_ids sort sort_permutes prev frame now)
    as (Hnd1 & Hin1).
  fold l1 in Hnd1, Hin1. rewrite Hnm in Hin1.
  assert (Hin : message_key m ∈ message_key <$> l1)
    by (rewrite <- Hkf; by apply Hin1).
  split; [done|]. split; [done|]. split; [done|]. split.
  - intros Hprev. subst l1. unfold on_receive_message. rewrite Hnm.
    change (truthy m) with true. cbv iota.
    destruct (add_message_spec sort sort_permutes prev
                (formattedMessage m now)) as [Hold _].
    apply Hold. rewrite Hkf. apply list_elem_of_fmap. by exists m.
  - intros Hnd. apply merge_fetched_known; [by apply Hnd1|].
    intros x ->%list_elem_of_singleton. done.
Qed.

End MessageIdentity.

(** Row 41 is pushed to an empty list and then fetched: one message. *)
Lemma X26_row_41_once :
  let row := VObj [("id", VNum 41); ("sender_id", VNum 5);
                   ("recipient_id", VNum 9); ("content", VStr "hi")] in
  let l1 := on_receive_message (fun l => l) (VStr "t1") []
              (eventPayload "receive_message" (formatMessage row)) in
  merge_fetched (fun l => l) l1 [formatMessage row] ≡ₚ l1.
Proof.
  intros row l1.
  destruct (X26_pushed_and_fetched_copies_are_one (fun l => l)
              (fun l => reflexivity l) row (VStr "t1") [] eq_refl)
    as (_ & _ & _ & _ & H).
  apply H. apply NoDup_nil_2.
Defined.

(** ** What the poll transport does with an offer and with a candidate *)

Section PolledSignals.

Implicit Types (c : Client) (s : Signal).

(** X13.  While no call is active or ringing, the poll timer never fires.
    It is set to 2000 ms, and every re-evaluation of the interval, 1000 ms
    apart, clears it and sets it anew: after the poll made when the effect
    starts, [pollCalls] is not run again for as long as both refs stay
    unset, however long that is. *)
Theorem X13_idle_session_polled_once (check_first : bool)
    (env : Z → bool * bool) (t0 : Z) (n : nat) :
  (∀ t, env t = (false, false)) →
  let p := poll_run check_first env t0 n in
  polled p = [t0] ∧ pollPeriod p = 2000 ∧ clock p < pollDue p.
Proof.
  intros Hidle p.
  destruct (idle_poll_timer_rearmed_before_due check_first env t0 n Hidle)
    as (Hpolled & Hlt & Hdue).
  destruct (poll_run_invariant check_first env t0 n) as (_ & _ & Hperiod).
  fold p in Hpolled, Hlt, Hdue, Hperiod.
  split; [done|]. split; [|lia].
  rewrite Hperiod, Hidle. reflexivity.
Qed.

(** X19.  A polled candidate is handed to the peer connection exactly when
    there is a connection, the candidate is truthy, it does not lack all of
    [candidate], [sdpMid] and [sdpMLineIndex], and the [RTCIceCandidate]
    constructor accepts it, that is, it is an object whose [sdpMid] and
    [sdpMLineIndex] are not both [null] or missing; the connection then has
    it as its newest candidate and is otherwise as before.  In every other
    case, the constructor raising inside the [try] included, the client is
    left as it was. *)
Theorem X19_polled_candidate c s :
  sig_type s = "ice_candidate" →
  let cand := sig_data s in
  let c' := receive_poll c [s] in
  if conn_truthy (connectionRef (refs c)) && truthy cand
     && negb (malformed_candidate cand) && negb (RTCIceCandidate_raises cand)
  then log c' = log c ++ [IceCandidateAdded cand]
       ∧ st c' = st c
       ∧ ∃ p p', connectionRef (refs c) = ConnPeer p
               ∧ connectionRef (refs c') = ConnPeer p'
               ∧ iceCandidates p' = iceCandidates p ++ [cand]
               ∧ remoteDescription p' = remoteDescription p
               ∧ closed p' = closed p
  else c' = c.
Proof.
  intros Hty cand c'. subst c'.
  unfold receive_poll, pollCalls. cbn [foldl].
  rewrite poll_signal_ice_candidate by done. fold cand.
  pose proof (on_ice_candidate_applied c cand) as Happ. cbn zeta in Happ.
  destruct (conn_truthy (connectionRef (refs c)) && truthy cand
            && negb (malformed_candidate cand)
            && negb (RTCIceCandidate_raises cand)) eqn:Hcond; [|done].
  split; [done|].
  apply andb_true_iff in Hcond as [[[Hconn Htr]%andb_true_iff Hmal]%andb_true_iff Hrs].
  apply negb_true_iff in Hmal. apply negb_true_iff in Hrs.
  unfold on_ice_candidate, addIceCandidate. rewrite Hconn, Htr, Hmal, Hrs.
  cbn [andb].
  assert (Hn : strict_eq cand VNull || strict_eq cand VUndef = false)
    by (destruct cand; try discriminate; reflexivity).
  rewrite Hn.
  destruct (connectionRef (refs c)) as [| |p] eqn:Hp; try discriminate.
  split; [done|]. exists p. eexists. cbn. by repeat split.
Qed.

(** What the poll handler records of an offer. *)
Lemma polled_offer_recorded c s :
  effect_view c = initial_view → sig_type s = "call_user" →
  let d := sig_data s in
  let c' := receive_poll c [s] in
  receivingCall (st c') = true ∧ caller (st c') = get d "from"
  ∧ callerSignal (st c') = get d "signal"
  ∧ callTargetRef (refs c') = get d "from"
  ∧ receivingCallRef (refs c') = true
  ∧ callActive (st c') = callActive (st c)
  ∧ connectionRef (refs c') = connectionRef (refs c)
  ∧ log c' = log c.
Proof.
  intros Hview Hty d c'.
  assert (Hc' : c' = on_call_user (effect_view c) c (get d "from")
                       (get d "name") (get d "signal")).
  { subst c'. unfold receive_poll, pollCalls, poll_signal. cbn [foldl].
    rewrite Hty. reflexivity. }
  destruct (call_user_recorded c (get d "from") (get d "name")
              (get d "signal") Hview) as (H1 & H2 & H3 & H4 & _).
  rewrite <- Hc' in H1, H2, H3, H4.
  assert (Hrest : receivingCallRef (refs c') = true
                  ∧ callActive (st c') = callActive (st c)
                  ∧ connectionRef (refs c') = connectionRef (refs c)
                  ∧ log c' = log c).
  { rewrite Hc', Hview. unfold on_call_user. cbn.
    rewrite andb_false_r. cbn. by repeat split. }
  destruct Hrest as (H5 & H6 & H7 & H8).
  by repeat (split; [done|]).
Qed.

(** X21.  A polled offer is always recorded.  The poll handler tests the
    call state of the first render, in which no call is active and none is
    ringing, so its guard never holds: whatever the session is doing, the
    offer sets the ring, the caller, the stored offer and the cached call
    target.  A call in progress goes on (its connection is not touched),
    but its hang-up will now notify the new caller. *)
Theorem X21_polled_offer_always_recorded c s :
  effect_view c = initial_view → sig_type s = "call_user" →
  let d := sig_data s in
  let c' := receive_poll c [s] in
  receivingCall (st c') = true ∧ caller (st c') = get d "from"
  ∧ callerSignal (st c') = get d "signal"
  ∧ callTargetRef (refs c') = get d "from"
  ∧ receivingCallRef (refs c') = true
  ∧ callActive (st c') = callActive (st c)
  ∧ connectionRef (refs c') = connectionRef (refs c)
  ∧ log c' = log c
  ∧ (truthy (get d "from") = true → otherId (st c') c' = get d "from").
Proof.
  intros Hview Hty d c'.
  destruct (polled_offer_recorded c s Hview Hty)
    as (H1 & H2 & H3 & H4 & H5 & H6 & H7 & H8).
  fold d c' in H1, H2, H3, H4, H5, H6, H7, H8.
  repeat (split; [done|]).
  intros Hfrom. unfold otherId, or_. rewrite H4, Hfrom. cbv iota.
  rewrite Hfrom. cbv iota. by rewrite Hfrom.
Qed.

End PolledSignals.

(** Four seconds without a call: the only poll is the one at the start. *)
Lemma X13_idle_four_seconds :
  polled (poll_run true (fun _ => (false, false)) 0 4000) = [0].
Proof.
  destruct (X13_idle_session_polled_once true (fun _ => (false, false))
              0 4000 (fun _ => eq_refl)) as [H _].
  exact H.
Defined.

(** A client with a peer connection polls two candidates: the one with an
    [sdpMid] is handed over, the one with its candidate string only is
    not. *)
Lemma X19_candidate_with_and_without_ids :
  let c := got_media 1 mount in
  let full := VObj [("candidate", VStr "candidate:1"); ("sdpMid", VStr "0");
                    ("sdpMLineIndex", VNum 0)] in
  let bare := VObj [("candidate", VStr "candidate:1"); ("sdpMid", VNull);
                    ("sdpMLineIndex", VNull)] in
  log (receive_poll c [new_signal "ice_candidate" full 2000])
  = [IceCandidateAdded full]
  ∧ receive_poll c [new_signal "ice_candidate" bare 2000] = c.
Proof.
  intros c full bare. split.
  - exact (proj1 (X19_polled_candidate c
                    (new_signal "ice_candidate" full 2000) eq_refl)).
  - exact (X19_polled_candidate c
             (new_signal "ice_candidate" bare 2000) eq_refl).
Defined.

(** During a call with user 7 on stream 1, an offer from user 6 is polled:
    the cached call target is now 6. *)
Lemma X21_offer_during_active_call :
  let bob := VObj [("_id", VNum 7); ("username", VStr "bob")] in
  let c := got_media 1 (click_call true (setSelectedUser bob mount)) in
  let s := new_signal "call_user"
             (VObj [("from", VNum 6); ("signal", VNull);
                    ("name", VStr "mallory")]) 1500 in
  callActive (st (receive_poll c [s])) = true
  ∧ callTargetRef (refs (receive_poll c [s])) = VNum 6.
Proof.
  intros bob c s.
  destruct (X21_polled_offer_always_recorded c s eq_refl eq_refl)
    as (_ & _ & _ & H4 & _ & H6 & _).
  split; [exact H6 | exact H4].
Defined.

(** ** Offer and answer, from one client to the other *)

Section RoundTrips.

Implicit Types (srv : State) (c : Client) (body : jsval).





End RoundTrips.



(** ** Connection reports during a call *)

Section ConnectionReports.

Implicit Types (c : Client) (cap : View).

(** X29.  The caller's client never reports a lost connection.  The call
    buttons are rendered only while no call is active and none is ringing,
    and the callbacks that [callUser] installs read [callActive] and
    [receivingCall] of that render.  So in the caller's client a
    [disconnected] or [failed] report, of the connection or of ICE, changes
    nothing: no [Connection lost...], no ICE restart; only [connected] sets
    the status.  The callbacks that [answerCall] installs come from a render
    in which the call is ringing: there a failed connection is reported and
    ICE is restarted, unless the call has been ended. *)
Theorem X29_caller_never_reports_connection_loss cap c :
  callActive cap = false → receivingCall cap = false →
  (∀ s, s ≠ CsConnected → onconnectionstatechange_caller cap c s = c)
  ∧ (∀ s, s ≠ IceConnected → oniceconnectionstatechange_caller cap c s = c)
  ∧ (∀ s s', log (onconnectionstatechange_caller cap c s) = log c
             ∧ log (oniceconnectionstatechange_caller cap c s') = log c)
  ∧ (∀ cap', receivingCall cap' = true → showCallEnding cap' = false →
       callEndedIntentionallyRef (refs c) = false →
       log (onconnectionstatechange_answerer cap' c CsFailed)
       = log c ++ [IceRestarted]
       ∧ callStatus (st (onconnectionstatechange_answerer cap' c CsFailed))
         = "Connection failed - trying to reconnect..."
       ∧ callStatus (st (onconnectionstatechange_answerer cap' c CsDisconnected))
         = "Connection lost..."
       ∧ timeouts (oniceconnectionstatechange_answerer cap' c IceFailed)
         = timeouts c ++ [(1000, RestartIceIfFailed)]).
Proof.
  intros Hact Hrec.
  assert (Hstill : still_in_call cap c = false)
    by (unfold still_in_call; by rewrite Hact, Hrec).
  split; [|split; [|split]].
  - intros s Hs. unfold onconnectionstatechange_caller. rewrite Hstill.
    destruct (ended cap c); [done|]. by destruct s.
  - intros s Hs. unfold oniceconnectionstatechange_caller. rewrite Hstill.
    destruct (ended cap c); [done|]. by destruct s.
  - intros s s'. unfold onconnectionstatechange_caller,
      oniceconnectionstatechange_caller. rewrite Hstill.
    destruct (ended cap c); [done|].
    split; [destruct s | destruct s']; try done; by destruct (_ && _).
  - intros cap' Hrec' Hshow Hflag.
    unfold onconnectionstatechange_answerer,
      oniceconnectionstatechange_answerer, ended, still_in_call.
    rewrite Hrec', Hshow, Hflag, orb_true_r. cbn. by repeat split.
Qed.

End ConnectionReports.

(** Bob is called on stream 1 and the connection fails: the caller's
    client shows and does nothing new. *)
Lemma X29_failed_connection_unnoticed :
  let bob := VObj [("_id", VNum 7); ("username", VStr "bob")] in
  let c0 := setSelectedUser bob mount in
  let c := sync_refs (got_media 1 (click_call true c0)) in
  onconnectionstatechange_caller (st c0) c CsFailed = c.
Proof.
  intros bob c0 c.
  destruct (X29_caller_never_reports_connection_loss (st c0) c
              eq_refl eq_refl) as [H _].
  apply H. discriminate.
Defined.
